(** * Stock-consistent cart and order engine

    A shallow embedding of the cart and order tools of the storefront
    server ([server/dist/index.js]: [create.order], [cart.ensure],
    [cart.add_item], [cart.view], [cart.checkout], [cart.remove_item]) over
    the relational schema of [db/init.sql].

    The database is a record of tables, each table a list of rows in
    storage order.  A tool handler is a program in a small transaction
    monad that threads the connection, can raise, and logs the row locks
    taken by [SELECT ... FOR UPDATE].  [BEGIN]/[COMMIT]/[ROLLBACK] are the
    runner [transaction]; handlers that open no transaction run under
    [autocommit].

    What the state leaves out: the table [customers] (no tool reads or
    writes it; customer 1, for whom every handler acts, is taken to be in
    it), the columns [description], [category] and [created_at], and the
    end of a sequence (2^31 - 1 ids).  A handler runs on its own; the one
    interleaving that is followed is that of [cart.ensure], which opens no
    transaction ([cart_ensure_amid]). *)

From Stdlib Require Import ZArith List Lia Bool String Permutation Sorted.
From Stdlib Require Import Ascii DecimalString.
Import ListNotations.
Local Open Scope Z_scope.

(** ** Rows and tables (db/init.sql) *)

(** [carts.status] is TEXT; the schema comment lists its three values. *)
Inductive cart_status := active | checked_out | abandoned.

Definition status_eqb (a b : cart_status) : bool :=
  match a, b with
  | active, active | checked_out, checked_out | abandoned, abandoned => true
  | _, _ => false
  end.

(** [products]; the columns [description] and [category] are never read by
    the engine and are left out. *)
Record product := mk_product
  { prod_id : Z; prod_name : string; prod_price_cents : Z; prod_stock : Z }.

(** [carts] and [orders]; [created_at] is left out. *)
Record cart := mk_cart
  { cart_id : Z; cart_customer_id : Z; cart_status_of : cart_status }.

Record cart_item := mk_cart_item
  { ci_cart_id : Z; ci_product_id : Z; ci_quantity : Z; ci_price_cents : Z }.

Record order := mk_order { ord_id : Z; ord_customer_id : Z }.

Record order_item := mk_order_item
  { oi_order_id : Z; oi_product_id : Z; oi_quantity : Z; oi_price_cents : Z }.

(** The two SERIAL columns draw their values from sequences; a sequence is
    not transactional: a value drawn inside a transaction stays drawn when
    the transaction rolls back. *)
Record DB := mk_DB
  { products : list product;
    carts : list cart;
    cart_items : list cart_item;
    orders : list order;
    order_items : list order_item;
    carts_id_seq : Z;
    orders_id_seq : Z }.

(** Every handler acts for the pinned customer 1. *)
Definition CUSTOMER : Z := 1.

(** ** Errors *)

(** The first five are thrown by the handlers themselves (with the message
    given by [message]); the last four are raised by the store (SQLSTATE
    23514, 23505, 22003 and 22P02). *)
Inductive error :=
| ProductNotFound | OutOfStock | NotEnoughStock | NoActiveCart | CartIsEmpty
| CheckViolation | UniqueViolation | IntegerOutOfRange | InvalidTextRepresentation.

Definition message (e : error) : string :=
  match e with
  | ProductNotFound => "Product not found"
  | OutOfStock => "Out of stock"
  | NotEnoughStock => "Not enough stock"
  | NoActiveCart => "No active cart"
  | CartIsEmpty => "Cart is empty"
  | CheckViolation => "violates check constraint"
  | UniqueViolation => "duplicate key value violates unique constraint"
  | IntegerOutOfRange => "integer out of range"
  | InvalidTextRepresentation => "invalid input syntax for type integer"
  end.

(** The spec's [InsufficientStock] covers both stock messages. *)
Definition InsufficientStock (e : error) : Prop :=
  e = OutOfStock \/ e = NotEnoughStock.

(** ** The transaction monad *)

(** A connection: the database as the open transaction sees it, and the
    product rows it has locked so far, oldest first. *)
Record conn := mk_conn { db : DB; held : list Z }.

Definition Tx (A : Type) : Type := conn -> (error + A) * conn.

Definition ret {A} (a : A) : Tx A := fun c => (inr a, c).

Definition throw {A} (e : error) : Tx A := fun c => (inl e, c).

Definition bind {A B} (m : Tx A) (k : A -> Tx B) : Tx B :=
  fun c =>
    match m c with
    | (inr a, c') => k a c'
    | (inl e, c') => (inl e, c')
    end.

Declare Scope tx_scope.
Delimit Scope tx_scope with tx.
Notation "x <- m ;; k" := (bind m (fun x => k))
  (at level 61, m at next level, right associativity) : tx_scope.
Notation "m ;;; k" := (bind m (fun _ => k))
  (at level 61, right associativity) : tx_scope.
Local Open Scope tx_scope.

Definition query {A} (f : DB -> A) : Tx A := fun c => (inr (f (db c)), c).

Definition write (f : DB -> DB) : Tx unit :=
  fun c => (inr tt, mk_conn (f (db c)) (held c)).

Definition lock_row (id : Z) : Tx unit :=
  fun c => (inr tt, mk_conn (db c) (held c ++ [id])).

(** What a tool call leaves behind: its reply or the error it threw, the
    database afterwards, and the locks its transaction took, in order. *)
Record outcome (A : Type) := mk_outcome
  { result : error + A; after : DB; lock_trace : list Z }.
Arguments mk_outcome {A}.
Arguments result {A}.
Arguments after {A}.
Arguments lock_trace {A}.

(** ROLLBACK restores every table; the sequences keep their values. *)
Definition rollback (saved now : DB) : DB :=
  mk_DB (products saved) (carts saved) (cart_items saved) (orders saved)
        (order_items saved) (carts_id_seq now) (orders_id_seq now).

(** [BEGIN; body; COMMIT], with [ROLLBACK] in the [catch] arm. *)
Definition transaction {A} (body : Tx A) (s : DB) : outcome A :=
  match body (mk_conn s []) with
  | (inr a, c) => mk_outcome (inr a) (db c) (held c)
  | (inl e, c) => mk_outcome (inl e) (rollback s (db c)) (held c)
  end.

(** No [BEGIN]: every statement commits on its own, and a statement that
    fails changes no table. *)
Definition autocommit {A} (body : Tx A) (s : DB) : outcome A :=
  match body (mk_conn s []) with
  | (r, c) => mk_outcome r (db c) (held c)
  end.

(** ** Setters *)

Definition set_products (ps : list product) (d : DB) : DB :=
  mk_DB ps (carts d) (cart_items d) (orders d) (order_items d)
        (carts_id_seq d) (orders_id_seq d).

Definition set_carts (cs : list cart) (d : DB) : DB :=
  mk_DB (products d) cs (cart_items d) (orders d) (order_items d)
        (carts_id_seq d) (orders_id_seq d).

Definition set_cart_items (cis : list cart_item) (d : DB) : DB :=
  mk_DB (products d) (carts d) cis (orders d) (order_items d)
        (carts_id_seq d) (orders_id_seq d).

Definition set_orders (os : list order) (d : DB) : DB :=
  mk_DB (products d) (carts d) (cart_items d) os (order_items d)
        (carts_id_seq d) (orders_id_seq d).

Definition set_order_items (ois : list order_item) (d : DB) : DB :=
  mk_DB (products d) (carts d) (cart_items d) (orders d) ois
        (carts_id_seq d) (orders_id_seq d).

Definition set_carts_id_seq (n : Z) (d : DB) : DB :=
  mk_DB (products d) (carts d) (cart_items d) (orders d) (order_items d)
        n (orders_id_seq d).

Definition set_orders_id_seq (n : Z) (d : DB) : DB :=
  mk_DB (products d) (carts d) (cart_items d) (orders d) (order_items d)
        (carts_id_seq d) n.

(** ** INTEGER values and parameters *)

(** PostgreSQL INTEGER is a signed 32-bit number; an expression that
    leaves the range raises rather than wraps.  The engine's sums and
    differences stay within a stock column ([existingQty + qty <= stock]
    before the upsert, [qty <= stock] before each decrement); the product
    that [cart.view] computes can leave the range, and so can a tool
    argument. *)
Definition INT_MIN : Z := -2147483648.
Definition INT_MAX : Z := 2147483647.

Definition int4 (z : Z) : option Z :=
  if (INT_MIN <=? z) && (z <=? INT_MAX) then Some z else None.

(** A tool argument handed to [client.query] for an INTEGER parameter.
    The input schema of the tools ([z.number().int().positive()]) sets no
    upper bound.  node-postgres sends the number as the text of
    [toString()], and the store reads that text as an INTEGER: digits
    beyond 32 bits are rejected with "out of range for type integer"
    (22003), and from 10^21 on the text is in exponent form and rejected
    with "invalid input syntax for type integer" (22P02).  The statement
    then does not run.  A value read from an INTEGER column and passed on
    to a later statement is in range by its type and needs no such step. *)
Definition rejection (v : Z) : error :=
  if Z.abs v <? 10 ^ 21 then IntegerOutOfRange else InvalidTextRepresentation.

Definition integer (v : Z) : Tx unit :=
  match int4 v with
  | Some _ => ret tt
  | None => throw (rejection v)
  end.

(** ** The SQL statements of the handlers *)

Definition is_active_cart_of (customer : Z) (c : cart) : bool :=
  (cart_customer_id c =? customer) && status_eqb (cart_status_of c) active.

(** [SELECT id FROM carts WHERE customer_id=1 AND status='active' LIMIT 1] *)
Definition select_active_cart : Tx (list Z) :=
  query (fun d => firstn 1 (map cart_id (filter (is_active_cart_of CUSTOMER) (carts d)))).

(** [INSERT INTO carts (customer_id, status) VALUES (1, 'active') RETURNING id].
    The id is drawn from the sequence first; the primary key [carts_pkey]
    then rejects an id that a row already has, and the partial unique
    index [ux_carts_active_per_customer] a second active cart.  The row's
    reference to [customers] is taken to hold: customer 1 is seeded by
    db/init.sql and no tool writes that table. *)
Definition insert_cart : Tx Z :=
  id <- query carts_id_seq ;;
  write (set_carts_id_seq (id + 1)) ;;;
  clash <- query (fun d => existsb (fun c => cart_id c =? id) (carts d)) ;;
  taken <- query (fun d => existsb (is_active_cart_of CUSTOMER) (carts d)) ;;
  if clash || taken then throw UniqueViolation
  else
    write (fun d => set_carts (carts d ++ [mk_cart id CUSTOMER active]) d) ;;;
    ret id.

Definition product_rows (productId : Z) (d : DB) : list product :=
  filter (fun p => prod_id p =? productId) (products d).

(** [SELECT price_cents, stock FROM products WHERE id=$1] with the tool
    argument [productId] of [cart.add_item]. *)
Definition select_product (productId : Z) : Tx (list product) :=
  integer productId ;;;
  query (product_rows productId).

(** [SELECT stock FROM products WHERE id=$1 FOR UPDATE] with the
    [product_id] of a cart line, as [cart.checkout] runs it: a row that is
    found is locked. *)
Definition select_stock_for_update (productId : Z) : Tx (list product) :=
  rows <- query (product_rows productId) ;;
  match rows with
  | [] => ret rows
  | _ :: _ => lock_row productId ;;; ret rows
  end.

(** [SELECT price_cents, stock FROM products WHERE id=$1 FOR UPDATE] with
    the tool argument [productId] of [create.order]. *)
Definition select_product_for_update (productId : Z) : Tx (list product) :=
  integer productId ;;;
  select_stock_for_update productId.

Definition is_line (cartId productId : Z) (ci : cart_item) : bool :=
  (ci_cart_id ci =? cartId) && (ci_product_id ci =? productId).

(** [SELECT quantity FROM cart_items WHERE cart_id=$1 AND product_id=$2] *)
Definition select_line_quantity (cartId productId : Z) : Tx (list Z) :=
  query (fun d => map ci_quantity (filter (is_line cartId productId) (cart_items d))).

(** [ON CONFLICT (cart_id, product_id) DO UPDATE SET quantity =
    cart_items.quantity + EXCLUDED.quantity]: the row holding the key gets
    the quantity added and keeps its price; with no such row the proposed
    row is appended.  [None] when the updated row breaks [quantity > 0].
    The updated row is kept at its place in the list; where the store
    puts the new version of a row, and so where a later scan without
    ORDER BY returns it, is not fixed by SQL, and the properties below
    speak of the rows a statement returns ([lines_of]), not of a place. *)
Fixpoint upsert (new : cart_item) (rows : list cart_item) : option (list cart_item) :=
  match rows with
  | [] => Some [new]
  | r :: rest =>
      if is_line (ci_cart_id new) (ci_product_id new) r then
        let q := ci_quantity r + ci_quantity new in
        if 0 <? q
        then Some (mk_cart_item (ci_cart_id r) (ci_product_id r) q (ci_price_cents r) :: rest)
        else None
      else option_map (cons r) (upsert new rest)
  end.

(** [INSERT INTO cart_items (cart_id, product_id, quantity, price_cents)
    VALUES ($1,$2,$3,$4) ON CONFLICT ... DO UPDATE ...]; the proposed row
    must itself pass the checks [quantity > 0] and [price_cents >= 0]. *)
Definition upsert_cart_item (cartId productId qty price : Z) : Tx unit :=
  if (0 <? qty) && (0 <=? price) then
    rows <- query cart_items ;;
    match upsert (mk_cart_item cartId productId qty price) rows with
    | Some rows' => write (set_cart_items rows')
    | None => throw CheckViolation
    end
  else throw CheckViolation.

(** [SELECT product_id, quantity, price_cents FROM cart_items WHERE
    cart_id=$1]: no ORDER BY, the rows come in storage order. *)
Definition select_cart_items (cartId : Z) : Tx (list cart_item) :=
  query (fun d => filter (fun ci => ci_cart_id ci =? cartId) (cart_items d)).

(** [INSERT INTO orders (customer_id) VALUES (1) RETURNING id]; the
    primary key [orders_pkey] rejects an id that a row already has.  The
    row's reference to [customers] is taken to hold, as for a cart. *)
Definition insert_order : Tx Z :=
  id <- query orders_id_seq ;;
  write (set_orders_id_seq (id + 1)) ;;;
  clash <- query (fun d => existsb (fun o => ord_id o =? id) (orders d)) ;;
  if clash then throw UniqueViolation
  else
    write (fun d => set_orders (orders d ++ [mk_order id CUSTOMER]) d) ;;;
    ret id.

Definition is_order_line (orderId productId : Z) (oi : order_item) : bool :=
  (oi_order_id oi =? orderId) && (oi_product_id oi =? productId).

(** [INSERT INTO order_items (order_id, product_id, quantity, price_cents)
    VALUES ($1,$2,$3,$4)], under the checks [quantity > 0] and
    [price_cents >= 0] and the primary key [(order_id, product_id)]. *)
Definition insert_order_item (orderId productId qty price : Z) : Tx unit :=
  if (0 <? qty) && (0 <=? price) then
    clash <- query (fun d => existsb (is_order_line orderId productId) (order_items d)) ;;
    if clash then throw UniqueViolation
    else write (fun d => set_order_items
                  (order_items d ++ [mk_order_item orderId productId qty price]) d)
  else throw CheckViolation.

Definition decrement (qty productId : Z) (p : product) : product :=
  if prod_id p =? productId
  then mk_product (prod_id p) (prod_name p) (prod_price_cents p) (prod_stock p - qty)
  else p.

(** [UPDATE products SET stock = stock - $1 WHERE id=$2]; every row it
    rewrites must pass the check [stock >= 0] of the [products] table. *)
Definition update_stock (qty productId : Z) : Tx unit :=
  rows <- query (product_rows productId) ;;
  if forallb (fun p => 0 <=? prod_stock p - qty) rows
  then write (fun d => set_products (map (decrement qty productId) (products d)) d)
  else throw CheckViolation.

Definition check_out (cartId : Z) (c : cart) : cart :=
  if cart_id c =? cartId then mk_cart (cart_id c) (cart_customer_id c) checked_out else c.

(** [UPDATE carts SET status='checked_out' WHERE id=$1] *)
Definition update_cart_checked_out (cartId : Z) : Tx unit :=
  write (fun d => set_carts (map (check_out cartId) (carts d)) d).

(** [DELETE FROM cart_items WHERE cart_id=$1 AND product_id=$2] with the
    tool argument [productId] of [cart.remove_item]; the value is
    [rowCount]. *)
Definition delete_line (cartId productId : Z) : Tx Z :=
  integer productId ;;;
  n <- query (fun d => Z.of_nat (List.length (filter (is_line cartId productId) (cart_items d)))) ;;
  write (fun d => set_cart_items
           (filter (fun ci => negb (is_line cartId productId ci)) (cart_items d)) d) ;;;
  ret n.

(** ** cart.view's query *)

Record view_row := mk_view_row
  { vr_product_id : Z; vr_name : string; vr_quantity : Z;
    vr_price_cents : Z; vr_line_total : Z }.

(** [FROM cart_items ci JOIN products p ON p.id = ci.product_id
    WHERE ci.cart_id=$1] *)
Definition joined (cartId : Z) (d : DB) : list (cart_item * product) :=
  flat_map (fun ci => map (pair ci) (product_rows (ci_product_id ci) d))
           (filter (fun ci => ci_cart_id ci =? cartId) (cart_items d)).

(** The select list; [ci.quantity * ci.price_cents] multiplies two INTEGER
    columns. *)
Definition project (r : cart_item * product) : option view_row :=
  let (ci, p) := r in
  option_map (mk_view_row (ci_product_id ci) (prod_name p) (ci_quantity ci) (ci_price_cents ci))
             (int4 (ci_quantity ci * ci_price_cents ci)).

Fixpoint project_all (rs : list (cart_item * product)) : option (list view_row) :=
  match rs with
  | [] => Some []
  | r :: rest =>
      match project r, project_all rest with
      | Some v, Some vs => Some (v :: vs)
      | _, _ => None
      end
  end.

(** [ORDER BY p.name], as a stable insertion sort under the byte order of
    the names.  The collation of the database decides the real order; the
    properties below take the rows up to their order ([Permutation]). *)
Fixpoint insert_by_name (v : view_row) (vs : list view_row) : list view_row :=
  match vs with
  | [] => [v]
  | w :: rest =>
      if String.leb (vr_name v) (vr_name w) then v :: w :: rest
      else w :: insert_by_name v rest
  end.

Definition order_by_name (vs : list view_row) : list view_row :=
  fold_right insert_by_name [] vs.

Definition select_view (cartId : Z) : Tx (list view_row) :=
  rows <- query (fun d => project_all (joined cartId d)) ;;
  match rows with
  | Some vs => ret (order_by_name vs)
  | None => throw IntegerOutOfRange
  end.

(** ** The tool handlers (server/dist/index.js) *)

(** [create.order]: buy now. *)
Definition create_order (productId quantity : Z) : DB -> outcome Z :=
  transaction
    (let qty := quantity in
     prod <- select_product_for_update productId ;;
     match prod with
     | [] => throw ProductNotFound
     | p :: _ =>
         let price := prod_price_cents p in
         let stock := prod_stock p in
         if stock <? qty then throw OutOfStock
         else
           orderId <- insert_order ;;
           insert_order_item orderId productId qty price ;;;
           update_stock qty productId ;;;
           ret orderId
     end).

(** [cart.ensure]: two statements, no transaction around them. *)
Definition cart_ensure : DB -> outcome Z :=
  autocommit
    (existing <- select_active_cart ;;
     match existing with
     | id :: _ => ret id
     | [] => insert_cart
     end).

(** [cart.add_item] *)
Definition cart_add_item (productId quantity : Z) : DB -> outcome Z :=
  transaction
    (cart <- select_active_cart ;;
     cartId <- match cart with
               | id :: _ => ret id
               | [] => insert_cart
               end ;;
     let qty := quantity in
     prod <- select_product productId ;;
     match prod with
     | [] => throw ProductNotFound
     | p :: _ =>
         let price := prod_price_cents p in
         let stock := prod_stock p in
         existing <- select_line_quantity cartId productId ;;
         let existingQty := match existing with q :: _ => q | [] => 0 end in
         if stock <? existingQty + qty then throw NotEnoughStock
         else
           upsert_cart_item cartId productId qty price ;;;
           ret cartId
     end).

(** The reply of [cart.view]: [{cart: null, items: [], total_cents: 0}] or
    [{cartId, items, total_cents}]. *)
Record cart_view := mk_cart_view
  { cv_cartId : option Z; cv_items : list view_row; cv_total_cents : Z }.

(** [items.rows.reduce((s, r) => s + Number(r.line_total), 0)]; the
    summands are INTEGER values, which a JavaScript number adds exactly. *)
Definition total_of (items : list view_row) : Z :=
  fold_left (fun s r => s + vr_line_total r) items 0.

(** [cart.view] *)
Definition cart_view_tool : DB -> outcome cart_view :=
  autocommit
    (cart <- select_active_cart ;;
     match cart with
     | [] => ret (mk_cart_view None [] 0)
     | cartId :: _ =>
         items <- select_view cartId ;;
         let total := total_of items in
         ret (mk_cart_view (Some cartId) items total)
     end).

(** First loop of [cart.checkout]: lock each line's product row and compare
    its stock ([0] when the row is missing) with the line's quantity. *)
Fixpoint lock_and_check (items : list cart_item) : Tx unit :=
  match items with
  | [] => ret tt
  | it :: rest =>
      p <- select_stock_for_update (ci_product_id it) ;;
      let stock := match p with r :: _ => prod_stock r | [] => 0 end in
      if stock <? ci_quantity it then throw OutOfStock
      else lock_and_check rest
  end.

(** Second loop: one order line and one stock update per cart line. *)
Fixpoint place_lines (orderId : Z) (items : list cart_item) : Tx unit :=
  match items with
  | [] => ret tt
  | it :: rest =>
      insert_order_item orderId (ci_product_id it) (ci_quantity it) (ci_price_cents it) ;;;
      update_stock (ci_quantity it) (ci_product_id it) ;;;
      place_lines orderId rest
  end.

(** [cart.checkout] *)
Definition cart_checkout : DB -> outcome Z :=
  transaction
    (cart <- select_active_cart ;;
     match cart with
     | [] => throw NoActiveCart
     | cartId :: _ =>
         items <- select_cart_items cartId ;;
         match items with
         | [] => throw CartIsEmpty
         | _ :: _ =>
             lock_and_check items ;;;
             orderId <- insert_order ;;
             place_lines orderId items ;;;
             update_cart_checked_out cartId ;;;
             ret orderId
         end
     end).

(** [cart.remove_item]; the reply is [{removed}]. *)
Definition cart_remove_item (productId : Z) : DB -> outcome bool :=
  transaction
    (cart <- select_active_cart ;;
     match cart with
     | [] => ret false
     | cartId :: _ =>
         rowCount <- delete_line cartId productId ;;
         ret (0 <? rowCount)
     end).

(** [cart.ensure] when other sessions commit [others] between its SELECT
    and its INSERT (the handler opens no transaction, so nothing keeps
    them apart); [cart_ensure] is the case where nothing happens. *)
Definition cart_ensure_amid (others : DB -> DB) : DB -> outcome Z :=
  autocommit
    (existing <- select_active_cart ;;
     write others ;;;
     match existing with
     | id :: _ => ret id
     | [] => insert_cart
     end).

(** ** Predicates on transaction programs *)

(** [keeps P m]: running [m] never leads out of [P]. *)
Definition keeps {A} (P : DB -> Prop) (m : Tx A) : Prop :=
  forall c, P (db c) -> P (db (snd (m c))).

(** [no_lock m]: running [m] takes no row lock. *)
Definition no_lock {A} (m : Tx A) : Prop :=
  forall c, held (snd (m c)) = held c.

(** The database with other carts and cart lines. *)
Definition with_carts (cs : list cart) (cis : list cart_item) (d : DB) : DB :=
  set_cart_items cis (set_carts cs d).

(** [cart_blind m]: [m] neither reads nor writes carts and cart lines; it
    runs the same whatever they are. *)
Definition cart_blind {A} (m : Tx A) : Prop :=
  forall cs cis c,
    m (mk_conn (with_carts cs cis (db c)) (held c)) =
    (fst (m c), mk_conn (with_carts cs cis (db (snd (m c)))) (held (snd (m c)))).

(** ** Observations on a database *)

(** The customer's active cart, as every handler looks it up. *)
Definition active_cart (d : DB) : option Z :=
  hd_error (map cart_id (filter (is_active_cart_of CUSTOMER) (carts d))).

Definition active_carts (d : DB) : list cart :=
  filter (is_active_cart_of CUSTOMER) (carts d).

Definition lines_of (cartId : Z) (d : DB) : list cart_item :=
  filter (fun ci => ci_cart_id ci =? cartId) (cart_items d).

Definition lines_of_order (orderId : Z) (d : DB) : list order_item :=
  filter (fun oi => oi_order_id oi =? orderId) (order_items d).

Definition find_product (productId : Z) (d : DB) : option product :=
  hd_error (product_rows productId d).

(** The stock checkout compares against: [Number(p.rows[0]?.stock ?? 0)]. *)
Definition stock_of (productId : Z) (d : DB) : Z :=
  match product_rows productId d with r :: _ => prod_stock r | [] => 0 end.

(** The quantity already in the active cart for a product, [0] when the
    cart or the line is absent. *)
Definition existing_quantity (productId : Z) (d : DB) : Z :=
  match active_cart d with
  | Some cartId =>
      match filter (is_line cartId productId) (cart_items d) with
      | ci :: _ => ci_quantity ci
      | [] => 0
      end
  | None => 0
  end.

(** The database once [insert_cart] has gone through. *)
Definition with_new_cart (d : DB) : DB :=
  set_carts (carts d ++ [mk_cart (carts_id_seq d) CUSTOMER active])
            (set_carts_id_seq (carts_id_seq d + 1) d).

(** The cart [cart.add_item] works on, and the database it works in: the
    active cart, or a new one. *)
Definition cart_for (d : DB) : Z * DB :=
  match active_cart d with
  | Some id => (id, d)
  | None => (carts_id_seq d, with_new_cart d)
  end.

(** The quantity a cart already holds of a product, as [cart.add_item]
    reads it. *)
Definition quantity_in (cartId productId : Z) (d : DB) : Z :=
  match filter (is_line cartId productId) (cart_items d) with
  | ci :: _ => ci_quantity ci
  | [] => 0
  end.

(** The quantity a list of lines holds of a product ([0] without a line). *)
Definition line_quantity (items : list cart_item) (productId : Z) : Z :=
  match filter (fun it => ci_product_id it =? productId) items with
  | it :: _ => ci_quantity it
  | [] => 0
  end.

(** A product row after [items] were taken from its stock. *)
Definition consume (items : list cart_item) (p : product) : product :=
  mk_product (prod_id p) (prod_name p) (prod_price_cents p)
             (prod_stock p - line_quantity items (prod_id p)).

(** The select list of [cart.view] when the product is in range. *)
Definition row_of (r : cart_item * product) : view_row :=
  mk_view_row (ci_product_id (fst r)) (prod_name (snd r)) (ci_quantity (fst r))
              (ci_price_cents (fst r)) (ci_quantity (fst r) * ci_price_cents (fst r)).

(** The cart line a row of [cart.view] shows. *)
Definition line_of_row (cartId : Z) (v : view_row) : cart_item :=
  mk_cart_item cartId (vr_product_id v) (vr_quantity v) (vr_price_cents v).

Definition order_line_of (orderId : Z) (ci : cart_item) : order_item :=
  mk_order_item orderId (ci_product_id ci) (ci_quantity ci) (ci_price_cents ci).

Definition same_tables (a b : DB) : Prop :=
  products a = products b /\ carts a = carts b /\ cart_items a = cart_items b /\
  orders a = orders b /\ order_items a = order_items b.

(** [d] has the carts and cart lines of [s]. *)
Definition cart_frame (s d : DB) : Prop :=
  carts d = carts s /\ cart_items d = cart_items s.

Definition stock_floor (d : DB) : Prop :=
  Forall (fun p => 0 <= prod_stock p) (products d).

(** The constraints of db/init.sql on the five tables of the engine: the
    primary keys, the CHECKs, the partial unique index on active carts
    (one active cart for any customer) and the foreign keys between these
    tables; with them, that the two
    sequences are ahead of the ids in use and that a product id is an
    INTEGER.  The references to [customers], a table the state does not
    hold, are [customers_fkeys] below. *)
Record schema_ok (d : DB) : Prop := mk_schema_ok
  { products_pkey : NoDup (map prod_id (products d));
    products_stock_check : stock_floor d;
    products_price_check : Forall (fun p => 0 <= prod_price_cents p) (products d);
    carts_serial : Forall (fun c => cart_id c < carts_id_seq d) (carts d);
    ux_carts_active_per_customer :
      forall customer,
        (List.length (filter (is_active_cart_of customer) (carts d)) <= 1)%nat;
    cart_items_pkey :
      NoDup (map (fun ci => (ci_cart_id ci, ci_product_id ci)) (cart_items d));
    cart_items_checks :
      Forall (fun ci => 0 < ci_quantity ci /\ 0 <= ci_price_cents ci) (cart_items d);
    cart_items_cart_fkey :
      Forall (fun ci => In (ci_cart_id ci) (map cart_id (carts d))) (cart_items d);
    cart_items_product_fkey :
      Forall (fun ci => In (ci_product_id ci) (map prod_id (products d))) (cart_items d);
    orders_serial : Forall (fun o => ord_id o < orders_id_seq d) (orders d);
    order_items_order_fkey :
      Forall (fun oi => In (oi_order_id oi) (map ord_id (orders d))) (order_items d);
    products_id_integer :
      Forall (fun p => INT_MIN <= prod_id p <= INT_MAX) (products d);
    carts_pkey : NoDup (map cart_id (carts d));
    orders_pkey : NoDup (map ord_id (orders d));
    order_items_pkey :
      NoDup (map (fun oi => (oi_order_id oi, oi_product_id oi)) (order_items d));
    order_items_checks :
      Forall (fun oi => 0 < oi_quantity oi /\ 0 <= oi_price_cents oi) (order_items d);
    order_items_product_fkey :
      Forall (fun oi => In (oi_product_id oi) (map prod_id (products d))) (order_items d) }.

(** [carts.customer_id] and [orders.customer_id] reference [customers].
    No tool reads or writes that table, so it is given by the ids it
    holds. *)
Definition customers_fkeys (customers : list Z) (d : DB) : Prop :=
  Forall (fun c => In (cart_customer_id c) customers) (carts d) /\
  Forall (fun o => In (ord_customer_id o) customers) (orders d).

(** [d] has the product names of [s], row by row. *)
Definition same_names (s d : DB) : Prop :=
  map prod_name (products d) = map prod_name (products s).

(** [d] satisfies the schema, its sequences are not behind those of [s]
    and its products have the ids of those of [s]. *)
Definition grown (s d : DB) : Prop :=
  schema_ok d /\ carts_id_seq s <= carts_id_seq d /\ orders_id_seq s <= orders_id_seq d /\
  map prod_id (products d) = map prod_id (products s).

(** [grown s d] inside a transaction that has inserted the order [orderId]. *)
Definition ordering (s : DB) (orderId : Z) (d : DB) : Prop :=
  grown s d /\ In orderId (map ord_id (orders d)).

(** The six tools of the engine, with their arguments. *)
Inductive request :=
| CreateOrder (productId quantity : Z)
| CartEnsure
| CartAddItem (productId quantity : Z)
| CartView
| CartCheckout
| CartRemoveItem (productId : Z).

Definition serve (r : request) (d : DB) : DB :=
  match r with
  | CreateOrder productId quantity => after (create_order productId quantity d)
  | CartEnsure => after (cart_ensure d)
  | CartAddItem productId quantity => after (cart_add_item productId quantity d)
  | CartView => after (cart_view_tool d)
  | CartCheckout => after (cart_checkout d)
  | CartRemoveItem productId => after (cart_remove_item productId d)
  end.

(** ** Call sequences *)

Inductive call :=
| AddItem (productId quantity : Z)
| Checkout
| DirectPurchase (productId quantity : Z).

Definition perform (c : call) (d : DB) : DB :=
  match c with
  | AddItem productId quantity => after (cart_add_item productId quantity d)
  | Checkout => after (cart_checkout d)
  | DirectPurchase productId quantity => after (create_order productId quantity d)
  end.

(** The database after each call of a sequence, in order. *)
Fixpoint history (cs : list call) (d : DB) : list DB :=
  match cs with
  | [] => []
  | c :: rest => perform c d :: history rest (perform c d)
  end.

(** A catalog edit from outside the engine: the product gets a new price. *)
Definition reprice (productId price : Z) (d : DB) : DB :=
  set_products
    (map (fun p => if prod_id p =? productId
                   then mk_product (prod_id p) (prod_name p) price (prod_stock p)
                   else p) (products d)) d.

(** ** Test states *)

Definition shop : DB :=
  mk_DB [mk_product 1 "P1" 100 10; mk_product 2 "P2" 500 1]
        [] [] [] [] 1 1.

(** The checkout scenario of the spec: lines (P1, 2, 100) and (P2, 1, 500). *)
Definition shop_with_cart : DB :=
  mk_DB [mk_product 1 "P1" 100 10; mk_product 2 "P2" 500 1]
        [mk_cart 1 1 active]
        [mk_cart_item 1 1 2 100; mk_cart_item 1 2 1 500]
        [] [] 2 1.

(** A cart asking for three of P2, of which one is left. *)
Definition short_cart : DB :=
  mk_DB [mk_product 1 "P1" 100 10; mk_product 2 "P2" 500 1]
        [mk_cart 1 1 active]
        [mk_cart_item 1 1 2 100; mk_cart_item 1 2 3 500]
        [] [] 2 1.

(** P2 was put into the cart before P1. *)
Definition unsorted_cart : DB :=
  mk_DB [mk_product 1 "P1" 100 10; mk_product 2 "P2" 500 1]
        [mk_cart 1 1 active]
        [mk_cart_item 1 2 1 500; mk_cart_item 1 1 1 100]
        [] [] 2 1.

(** A cart row stored under an id the sequence has not reached. *)
Definition stale_carts : DB :=
  mk_DB [mk_product 1 "P1" 100 10] [mk_cart 1 1 checked_out] [] [] [] 1 1.

(** A product dear and plentiful enough for a line total beyond INTEGER. *)
Definition bulk_shop : DB :=
  mk_DB [mk_product 1 "Pallet" 50000 50000] [] [] [] [] 1 1.

Definition bulk_cart : DB :=
  mk_DB [mk_product 1 "Pallet" 50000 50000]
        [mk_cart 1 1 active]
        [mk_cart_item 1 1 50000 50000]
        [] [] 2 1.

(** ** Listing orders *)

(** [ORDER BY id DESC], as an insertion sort. *)
Fixpoint insert_by_id_desc (o : order) (os : list order) : list order :=
  match os with
  | [] => [o]
  | x :: rest =>
      if ord_id x <=? ord_id o then o :: x :: rest
      else x :: insert_by_id_desc o rest
  end.

Definition order_by_id_desc (os : list order) : list order :=
  fold_right insert_by_id_desc [] os.

(** [SELECT id, customer_id, created_at FROM orders ORDER BY id DESC LIMIT $1] *)
Definition select_recent_orders (limit : Z) : Tx (list order) :=
  query (fun d => firstn (Z.to_nat limit) (order_by_id_desc (orders d))).

(** [list.orders]; the input schema admits the integers 1 to 100 as
    [limit] (10 when left out). *)
Definition list_orders (limit : Z) : DB -> outcome (list order) :=
  autocommit (select_recent_orders limit).

(** ** Sums over tables *)

Definition total_stock (d : DB) : Z :=
  fold_right Z.add 0 (map prod_stock (products d)).

Definition units_of (ois : list order_item) : Z :=
  fold_right Z.add 0 (map oi_quantity ois).

Definition amount_of (ois : list order_item) : Z :=
  fold_right Z.add 0 (map (fun oi => oi_quantity oi * oi_price_cents oi) ois).

(** ** The statement of the product search *)

(** A bound parameter of a statement: a text or a number. *)
Inductive param := PText (s : string) | PInt (n : Z).

(** The argument of [runProductSearch]. *)
Record intent := mk_intent
  { in_q : option string;
    in_category : option string;
    in_categories : option (list string);
    in_terms : option (list string);
    in_maxPriceCents : option Z }.

(** A length in a template literal: its decimal digits. *)
Definition dec (n : nat) : string := NilEmpty.string_of_uint (Nat.to_uint n).

(** [Array.prototype.join] *)
Fixpoint join (sep : string) (l : list string) : string :=
  match l with
  | [] => EmptyString
  | x :: rest =>
      match rest with
      | [] => x
      | _ :: _ => (x ++ sep ++ join sep rest)%string
      end
  end.

(** One turn of a clause loop: [params.push(v)], then
    [clauses.push(text(params.length))]. *)
Definition push_clause (text : string -> string) (st : list param * list string)
    (v : param) : list param * list string :=
  let params := fst st ++ [v] in
  (params, snd st ++ [text (dec (List.length params))]).

Definition term_clause (n : string) : string := ("lower(name) LIKE $" ++ n)%string.

Definition category_clause (n : string) : string :=
  ("lower(category) = lower($" ++ n ++ ")")%string.

Definition price_clause (n : string) : string := ("price_cents <= $" ++ n)%string.

Definition like_pattern (t : string) : param := PText ("%" ++ t ++ "%")%string.

(** [`(${clauses.join(' OR ')})`] *)
Definition any_of (clauses : list string) : string :=
  ("(" ++ join " OR " clauses ++ ")")%string.

(** The block that both the terms and the categories go through: when the
    list is not empty, one clause and one parameter per element, the
    clauses joined by OR into one more entry of [orParts]. *)
Definition clause_group (clause : string -> string) (value : string -> param)
    (xs : list string) (st : list param * list string) : list param * list string :=
  match xs with
  | [] => st
  | _ :: _ =>
      let '(params, clauses) :=
        fold_left (fun s x => push_clause clause s (value x)) xs (fst st, []) in
      (params,
       match clauses with
       | [] => snd st
       | _ :: _ => snd st ++ [any_of clauses]
       end)
  end.

Definition truthy (s : string) : bool :=
  match s with EmptyString => false | String _ _ => true end.

Section ProductSearch.

(** [q.trim() ? q.trim().toLowerCase().split(/\s+/) : []]: the white
    space and the case mapping of JavaScript are taken as given. *)
Variable words : string -> list string.

Definition term_list (i : intent) : list string :=
  match in_terms i with
  | Some (t :: ts) => t :: ts
  | _ => match in_q i with Some q => words q | None => [] end
  end.

Definition category_list (i : intent) : list string :=
  filter truthy
    match in_categories i with
    | Some (c :: cs) => c :: cs
    | _ => match in_category i with
           | Some c => if truthy c then [c] else []
           | None => []
           end
    end.

(** The SQL text and the parameters [runProductSearch] hands to
    [client.query]. *)
Definition search_statement (i : intent) : string * list param :=
  let start : list param * list string := ([], []) in
  let termList := term_list i in
  let afterTerms := clause_group term_clause like_pattern termList start in
  let catList := category_list i in
  let '(params, orParts) := clause_group category_clause PText catList afterTerms in
  let whereParts0 : list string :=
    match orParts with
    | [] => []
    | _ :: _ => [any_of orParts]
    end in
  let '(params', whereParts) :=
    match in_maxPriceCents i with
    | Some n =>
        if n =? 0 then (params, whereParts0)
        else push_clause price_clause (params, whereParts0) (PInt n)
    | None => (params, whereParts0)
    end in
  let where_ :=
    match whereParts with
    | [] => EmptyString
    | _ :: _ => ("WHERE " ++ join " AND " whereParts)%string
    end in
  (("SELECT id, name, description, price_cents, stock, category FROM products "
    ++ where_ ++ " ORDER BY name LIMIT 100")%string,
   params').

End ProductSearch.

(** The parameter references [$n] of a statement text, in order, each as
    the digits that follow the dollar sign. *)
Definition is_digit (c : ascii) : bool :=
  (Nat.leb 48 (nat_of_ascii c) && Nat.leb (nat_of_ascii c) 57)%bool.

Definition is_dollar (c : ascii) : bool := Ascii.eqb c "$"%char.

Fixpoint references_from (cur : option string) (s : string) : list string :=
  match s with
  | EmptyString => match cur with Some d => [d] | None => [] end
  | String c rest =>
      match cur with
      | Some d =>
          if is_digit c then references_from (Some (d ++ String c EmptyString)%string) rest
          else d :: references_from (if is_dollar c then Some EmptyString else None) rest
      | None => references_from (if is_dollar c then Some EmptyString else None) rest
      end
  end.

Definition references (s : string) : list string := references_from None s.

(** A text that does not start with a digit. *)
Definition clean (s : string) : bool :=
  match s with EmptyString => true | String c _ => negb (is_digit c) end.

(** A text without a dollar sign. *)
Fixpoint plain (s : string) : bool :=
  match s with EmptyString => true | String c rest => negb (is_dollar c) && plain rest end.

(** [scans f L]: wherever the text [f] stands in a statement, before a
    text that does not start with a digit, it contributes the references
    [L]. *)
Definition scans (f : string) (L : list string) : Prop :=
  forall rest, clean rest = true ->
    references_from None (f ++ rest)%string = L ++ references_from None rest.

(** ** The web client (web/src/App.tsx) *)

Definition NL : ascii := "010"%char.

(** [String.prototype.split] with a separator of one character. *)
Fixpoint split_on (sep : ascii) (s : string) : list string :=
  match s with
  | EmptyString => [EmptyString]
  | String c rest =>
      if Ascii.eqb c sep then EmptyString :: split_on sep rest
      else match split_on sep rest with
           | [] => [String c EmptyString]
           | l :: ls => String c l :: ls
           end
  end.

(** [String.prototype.slice(n)] for [n] within the text or at its end. *)
Fixpoint drop (n : nat) (s : string) : string :=
  match n, s with
  | O, _ => s
  | S _, EmptyString => EmptyString
  | S n', String _ rest => drop n' rest
  end.

(** What [rpc] hands to [JSON.parse]: the first line that starts with
    [data: ], without these six characters, or else the whole body.  (A
    line that is found is not empty, so [|| text] only applies when none
    is.) *)
Definition json_text (text : string) : string :=
  let dataLine :=
    match find (prefix "data: ") (split_on NL text) with
    | Some line => line
    | None => text
    end in
  if prefix "data: " dataLine then drop 6 dataLine else dataLine.

Fixpoint no_newline (s : string) : bool :=
  match s with
  | EmptyString => true
  | String c rest => negb (Ascii.eqb c NL) && no_newline rest
  end.

(** A server-sent event stream: lines, each closed by a newline. *)
Definition unlines (ls : list string) : string :=
  fold_right (fun l acc => (l ++ String NL acc)%string) EmptyString ls.

Definition is_quote (c : ascii) : bool := Ascii.eqb c "'"%char.

(** [searchCategory.replace(/'/g, "''")] in the fallback of [search]. *)
Fixpoint escape_quotes (s : string) : string :=
  match s with
  | EmptyString => EmptyString
  | String c rest =>
      if is_quote c then String "'" (String "'" (escape_quotes rest))
      else String c (escape_quotes rest)
  end.

(** The clause the fallback of [search] builds for a category. *)
Definition category_filter (searchCategory : string) : string :=
  ("category = '" ++ escape_quotes searchCategory ++ "'")%string.

(** How SQL reads a string literal after its opening quote: up to the
    first quote that is not doubled, a doubled quote standing for one.
    The value is the text of the literal and what follows it; [None]
    without a closing quote. *)
Fixpoint read_literal (s : string) : option (string * string) :=
  match s with
  | EmptyString => None
  | String c rest =>
      if is_quote c then
        match rest with
        | EmptyString => Some (EmptyString, EmptyString)
        | String c' rest' =>
            if is_quote c'
            then option_map (fun br => (String c' (fst br), snd br)) (read_literal rest')
            else Some (EmptyString, rest)
        end
      else option_map (fun br => (String c (fst br), snd br)) (read_literal rest)
  end.

(** * Properties *)

Example add_two_items :
  after (cart_add_item 2 1 (after (cart_add_item 1 2 shop))) = shop_with_cart.
Proof. reflexivity. Qed.

Example checkout_scenario :
  cart_checkout shop_with_cart =
  mk_outcome (inr 1)
    (mk_DB [mk_product 1 "P1" 100 8; mk_product 2 "P2" 500 0]
           [mk_cart 1 1 checked_out]
           [mk_cart_item 1 1 2 100; mk_cart_item 1 2 1 500]
           [mk_order 1 1]
           [mk_order_item 1 1 2 100; mk_order_item 1 2 1 500] 2 2)
    [1; 2].
Proof. reflexivity. Qed.

Example view_scenario :
  result (cart_view_tool shop_with_cart) =
  inr (mk_cart_view (Some 1)
         [mk_view_row 1 "P1" 2 100 200; mk_view_row 2 "P2" 1 500 500] 700).
Proof. reflexivity. Qed.

(** A refused add rolls the new cart back; its id is not handed out again. *)
Example add_too_many :
  cart_add_item 2 5 shop =
  mk_outcome (inl NotEnoughStock)
    (mk_DB (products shop) [] [] [] [] 2 1) [].
Proof. reflexivity. Qed.

Example remove_then_checkout :
  let s := after (cart_remove_item 1 (after (cart_add_item 1 2 shop))) in
  result (cart_checkout s) = inl CartIsEmpty /\ orders (after (cart_checkout s)) = [].
Proof. split; reflexivity. Qed.

(** ** Running the monad *)

Lemma rollback_same s : rollback s s = s.
Proof. destruct s; reflexivity. Qed.

Lemma select_active_cart_run c :
  select_active_cart c =
  (inr (match active_cart (db c) with Some id => [id] | None => [] end), c).
Proof.
  unfold select_active_cart, active_cart, query.
  destruct (map cart_id (filter (is_active_cart_of CUSTOMER) (carts (db c))));
    reflexivity.
Qed.

Lemma active_cart_taken d :
  existsb (is_active_cart_of CUSTOMER) (carts d) =
  match active_cart d with Some _ => true | None => false end.
Proof.
  unfold active_cart. induction (carts d) as [|c cs IH]; simpl; [reflexivity|].
  destruct (is_active_cart_of CUSTOMER c); simpl; [reflexivity | exact IH].
Qed.

Lemma select_stock_for_update_run productId d h :
  select_stock_for_update productId (mk_conn d h) =
  (inr (product_rows productId d),
   mk_conn d (match product_rows productId d with [] => h | _ :: _ => h ++ [productId] end)).
Proof.
  unfold select_stock_for_update, bind, query, lock_row, ret; simpl.
  destruct (product_rows productId d); reflexivity.
Qed.

Lemma int4_in_range z : INT_MIN <= z <= INT_MAX -> int4 z = Some z.
Proof.
  intros [Hlo Hhi]. unfold int4.
  apply Z.leb_le in Hlo. apply Z.leb_le in Hhi. rewrite Hlo, Hhi. reflexivity.
Qed.

Lemma int4_out_of_range z : ~ INT_MIN <= z <= INT_MAX -> int4 z = None.
Proof.
  intros H. unfold int4.
  destruct (Z.leb_spec INT_MIN z), (Z.leb_spec z INT_MAX); simpl; try reflexivity.
  exfalso. apply H. split; assumption.
Qed.

(** An argument within the INTEGER range is accepted. *)
Lemma integer_run v c : INT_MIN <= v <= INT_MAX -> integer v c = (inr tt, c).
Proof. intros H. unfold integer. rewrite (int4_in_range v H). reflexivity. Qed.

(** One beyond it is rejected, and nothing has happened. *)
Lemma integer_rejects v c :
  ~ INT_MIN <= v <= INT_MAX -> integer v c = (inl (rejection v), c).
Proof. intros H. unfold integer. rewrite (int4_out_of_range v H). reflexivity. Qed.

Lemma rejection_digits v : Z.abs v < 10 ^ 21 -> rejection v = IntegerOutOfRange.
Proof.
  intros H. unfold rejection. destruct (Z.ltb_spec (Z.abs v) (10 ^ 21)); [reflexivity | lia].
Qed.

Lemma rejection_exponent v : 10 ^ 21 <= Z.abs v -> rejection v = InvalidTextRepresentation.
Proof.
  intros H. unfold rejection. destruct (Z.ltb_spec (Z.abs v) (10 ^ 21)); [lia | reflexivity].
Qed.

Lemma in_range_dec v : INT_MIN <= v <= INT_MAX \/ ~ INT_MIN <= v <= INT_MAX.
Proof. unfold INT_MIN, INT_MAX. lia. Qed.

Lemma select_product_for_update_rejects productId c :
  ~ INT_MIN <= productId <= INT_MAX ->
  select_product_for_update productId c = (inl (rejection productId), c).
Proof.
  intros H. unfold select_product_for_update, bind.
  rewrite (integer_rejects productId c H). reflexivity.
Qed.

Lemma select_product_rejects productId c :
  ~ INT_MIN <= productId <= INT_MAX ->
  select_product productId c = (inl (rejection productId), c).
Proof.
  intros H. unfold select_product, bind.
  rewrite (integer_rejects productId c H). reflexivity.
Qed.

Lemma select_product_for_update_run productId d h :
  INT_MIN <= productId <= INT_MAX ->
  select_product_for_update productId (mk_conn d h) =
  (inr (product_rows productId d),
   mk_conn d (match product_rows productId d with [] => h | _ :: _ => h ++ [productId] end)).
Proof.
  intros H. unfold select_product_for_update, bind at 1.
  rewrite (integer_run _ _ H). apply select_stock_for_update_run.
Qed.

(** An id above every id in use is the id of no row. *)
Lemma serial_fresh {A} (id : A -> Z) (rows : list A) (next : Z) :
  Forall (fun r => id r < next) rows ->
  existsb (fun r => id r =? next) rows = false.
Proof.
  induction 1 as [|r rows Hr _ IH]; simpl; [reflexivity|].
  rewrite IH, orb_false_r. apply Z.eqb_neq. lia.
Qed.

Lemma serial_not_in {A} (id : A -> Z) (rows : list A) (next : Z) :
  Forall (fun r => id r < next) rows -> ~ In next (map id rows).
Proof.
  intros H Hin. apply in_map_iff in Hin. destruct Hin as (r & E & Hr).
  rewrite Forall_forall in H. specialize (H r Hr). lia.
Qed.

Lemma fresh_order s :
  schema_ok s -> existsb (fun o => ord_id o =? orders_id_seq s) (orders s) = false.
Proof. intros Hs. apply serial_fresh, (orders_serial s Hs). Qed.

Lemma fresh_cart s :
  schema_ok s -> existsb (fun c => cart_id c =? carts_id_seq s) (carts s) = false.
Proof. intros Hs. apply serial_fresh, (carts_serial s Hs). Qed.

Lemma insert_order_run d h :
  existsb (fun o => ord_id o =? orders_id_seq d) (orders d) = false ->
  insert_order (mk_conn d h) =
  (inr (orders_id_seq d),
   mk_conn (set_orders (orders d ++ [mk_order (orders_id_seq d) CUSTOMER])
              (set_orders_id_seq (orders_id_seq d + 1) d)) h).
Proof.
  intros H. unfold insert_order, bind, query, write, ret. cbn [db held].
  cbn [orders set_orders_id_seq]. rewrite H. reflexivity.
Qed.

(** With the sequence behind an id in use, the insert hits [orders_pkey]. *)
Lemma insert_order_clash d h :
  existsb (fun o => ord_id o =? orders_id_seq d) (orders d) = true ->
  insert_order (mk_conn d h) =
  (inl UniqueViolation, mk_conn (set_orders_id_seq (orders_id_seq d + 1) d) h).
Proof.
  intros H. unfold insert_order, bind, query, write, ret. cbn [db held].
  cbn [orders set_orders_id_seq]. rewrite H. reflexivity.
Qed.

(** ** A step-wise invariant rule *)

Lemma keeps_ret {A} P (a : A) : keeps P (ret a).
Proof. intros c H; exact H. Qed.

Lemma keeps_throw {A} P e : keeps P (@throw A e).
Proof. intros c H; exact H. Qed.

Lemma keeps_query {A} P (f : DB -> A) : keeps P (query f).
Proof. intros c H; exact H. Qed.

Lemma keeps_lock_row P id : keeps P (lock_row id).
Proof. intros c H; exact H. Qed.

Lemma keeps_write (P : DB -> Prop) f :
  (forall d, P d -> P (f d)) -> keeps P (write f).
Proof. intros Hf c H; simpl; auto. Qed.

Lemma keeps_bind {A B} P (m : Tx A) (k : A -> Tx B) :
  keeps P m -> (forall a, keeps P (k a)) -> keeps P (bind m k).
Proof.
  intros Hm Hk c H. unfold bind.
  specialize (Hm c H). destruct (m c) as [[e|a] c']; simpl in *.
  - exact Hm.
  - apply Hk, Hm.
Qed.

Ltac split_if :=
  cbv zeta;
  match goal with |- context [if ?b then _ else _] => destruct b end.

Lemma keeps_integer P v : keeps P (integer v).
Proof. intros c H. unfold integer. destruct (int4 v); exact H. Qed.

Ltac keeps_step :=
  first [ apply keeps_ret | apply keeps_throw | apply keeps_query
        | apply keeps_lock_row | apply keeps_integer
        | apply keeps_bind; [ | intros ? ] ].

(** For statements that write nothing [P] looks at. *)
Ltac keeps_all :=
  repeat first
    [ keeps_step
    | apply keeps_write; intros ? ?; assumption
    | progress cbv zeta
    | match goal with
      | |- keeps _ (if ?b then _ else _) => destruct b
      | |- keeps _ (match ?x with _ => _ end) => destruct x
      end ].

(** A transaction started in [P] ends in [P] when its body keeps [P] and
    [P] does not look at the sequences. *)
Lemma transaction_keeps {A} (P : DB -> Prop) (body : Tx A) s :
  (forall a b, P a -> P (rollback a b)) ->
  keeps P body -> P s -> P (after (transaction body s)).
Proof.
  intros Hseq Hb Hs. unfold transaction.
  specialize (Hb (mk_conn s []) Hs).
  destruct (body (mk_conn s [])) as [[e|a] c]; simpl in *; auto.
Qed.

(** ** The stock floor *)

Lemma update_stock_keeps_floor qty productId :
  keeps stock_floor (update_stock qty productId).
Proof.
  intros c H. unfold update_stock, bind, query, write, throw.
  destruct (forallb _ _) eqn:E; simpl; [|exact H].
  unfold stock_floor in *; simpl. rewrite Forall_forall in H |- *.
  intros p' Hin. apply in_map_iff in Hin. destruct Hin as (p & <- & Hin).
  unfold decrement. destruct (prod_id p =? productId) eqn:Eid; simpl.
  - rewrite forallb_forall in E. apply Z.leb_le, E.
    apply filter_In. split; assumption.
  - exact (H p Hin).
Qed.

Lemma insert_order_keeps_floor : keeps stock_floor insert_order.
Proof. unfold insert_order. keeps_all. Qed.

Lemma insert_order_item_keeps_floor o p q pr :
  keeps stock_floor (insert_order_item o p q pr).
Proof.
  unfold insert_order_item. split_if; [|keeps_step].
  keeps_step; [keeps_step|]. destruct a; [keeps_step|].
  apply keeps_write; intros d H; exact H.
Qed.

Lemma insert_cart_keeps_floor : keeps stock_floor insert_cart.
Proof. unfold insert_cart. keeps_all. Qed.

Lemma upsert_cart_item_keeps_floor c p q pr :
  keeps stock_floor (upsert_cart_item c p q pr).
Proof.
  unfold upsert_cart_item. split_if; [|keeps_step].
  keeps_step; [keeps_step|]. destruct (upsert _ _); [|keeps_step].
  apply keeps_write; intros d H; exact H.
Qed.

Lemma select_stock_for_update_keeps P productId :
  keeps P (select_stock_for_update productId).
Proof.
  unfold select_stock_for_update. keeps_step; [keeps_step|].
  destruct a; repeat keeps_step.
Qed.

Lemma select_product_for_update_keeps P productId :
  keeps P (select_product_for_update productId).
Proof.
  unfold select_product_for_update. keeps_step; [keeps_step|].
  apply select_stock_for_update_keeps.
Qed.

Lemma select_product_keeps P productId : keeps P (select_product productId).
Proof. unfold select_product. repeat keeps_step. Qed.

Lemma lock_and_check_keeps P items : keeps P (lock_and_check items).
Proof.
  induction items as [|it rest IH]; simpl; [keeps_step|].
  keeps_step; [apply select_stock_for_update_keeps|].
  split_if; [keeps_step | exact IH].
Qed.

Lemma place_lines_keeps_floor orderId items :
  keeps stock_floor (place_lines orderId items).
Proof.
  induction items as [|it rest IH]; simpl; [keeps_step|].
  keeps_step; [apply insert_order_item_keeps_floor|].
  keeps_step; [apply update_stock_keeps_floor | exact IH].
Qed.

Lemma floor_rollback a b : stock_floor a -> stock_floor (rollback a b).
Proof. intros H; exact H. Qed.

Lemma create_order_keeps_floor productId quantity s :
  stock_floor s -> stock_floor (after (create_order productId quantity s)).
Proof.
  apply transaction_keeps; [exact floor_rollback|].
  keeps_step; [apply select_product_for_update_keeps|].
  destruct a; [keeps_step|]. split_if; [keeps_step|].
  keeps_step; [apply insert_order_keeps_floor|].
  keeps_step; [apply insert_order_item_keeps_floor|].
  keeps_step; [apply update_stock_keeps_floor | keeps_step].
Qed.

Lemma cart_add_item_keeps_floor productId quantity s :
  stock_floor s -> stock_floor (after (cart_add_item productId quantity s)).
Proof.
  apply transaction_keeps; [exact floor_rollback|].
  keeps_step; [keeps_step|].
  keeps_step; [destruct a; [apply insert_cart_keeps_floor | keeps_step]|].
  keeps_step; [apply select_product_keeps|].
  destruct a1; [keeps_step|].
  keeps_step; [keeps_step|]. split_if; [keeps_step|].
  keeps_step; [apply upsert_cart_item_keeps_floor | keeps_step].
Qed.

Lemma cart_checkout_keeps_floor s :
  stock_floor s -> stock_floor (after (cart_checkout s)).
Proof.
  apply transaction_keeps; [exact floor_rollback|].
  keeps_step; [keeps_step|].
  destruct a; [keeps_step|].
  keeps_step; [keeps_step|].
  destruct a0 as [|it rest] eqn:E; [keeps_step|]. rewrite <- E. clear E.
  keeps_step; [apply lock_and_check_keeps|].
  keeps_step; [apply insert_order_keeps_floor|].
  keeps_step; [apply place_lines_keeps_floor|].
  keeps_step; [apply keeps_write; intros d H; exact H | keeps_step].
Qed.

(** C2. Starting from non-negative stock, every product's stock is
    non-negative after each call of any sequence of [cart.add_item],
    [cart.checkout] and [create.order] calls. *)
Theorem stock_never_negative (cs : list call) (s : DB) :
  stock_floor s -> Forall stock_floor (history cs s).
Proof.
  revert s. induction cs as [|c cs IH]; intros s H; simpl; constructor.
  - destruct c; simpl.
    + apply cart_add_item_keeps_floor, H.
    + apply cart_checkout_keeps_floor, H.
    + apply create_order_keeps_floor, H.
  - apply IH. destruct c; simpl.
    + apply cart_add_item_keeps_floor, H.
    + apply cart_checkout_keeps_floor, H.
    + apply create_order_keeps_floor, H.
Qed.

Lemma stock_never_negative_witness :
  stock_floor shop /\
  Forall stock_floor
    (history [AddItem 1 2; AddItem 2 1; Checkout; DirectPurchase 1 9] shop).
Proof.
  assert (H : stock_floor shop).
  { unfold stock_floor, shop; simpl. repeat constructor; discriminate. }
  split; [exact H | apply (stock_never_negative _ shop H)].
Defined.

(** ** The lock-and-check loop of checkout *)

Lemma product_row_exists productId d :
  In productId (map prod_id (products d)) -> product_rows productId d <> [].
Proof.
  unfold product_rows. induction (products d) as [|p ps IH]; simpl; [tauto|].
  intros [H|H].
  - rewrite H, Z.eqb_refl. discriminate.
  - destruct (prod_id p =? productId); [discriminate | auto].
Qed.

Lemma lock_and_check_pass items d h :
  Forall (fun it => product_rows (ci_product_id it) d <> [] /\
                    ci_quantity it <= stock_of (ci_product_id it) d) items ->
  lock_and_check items (mk_conn d h) =
  (inr tt, mk_conn d (h ++ map ci_product_id items)).
Proof.
  revert h. induction items as [|it rest IH]; intros h H; simpl.
  - rewrite app_nil_r. reflexivity.
  - inversion H as [|? ? [Hrow Hq] Hrest]; subst.
    unfold bind at 1. rewrite select_stock_for_update_run.
    unfold stock_of in Hq.
    destruct (product_rows (ci_product_id it) d) as [|r rs]; [congruence|].
    destruct (Z.ltb_spec (prod_stock r) (ci_quantity it)); [lia|].
    rewrite IH by assumption. rewrite <- app_assoc. reflexivity.
Qed.

Lemma lock_and_check_short items d h :
  Exists (fun it => stock_of (ci_product_id it) d < ci_quantity it) items ->
  exists h', lock_and_check items (mk_conn d h) = (inl OutOfStock, mk_conn d h').
Proof.
  revert h. induction items as [|it rest IH]; intros h H; simpl.
  - inversion H.
  - unfold bind at 1. rewrite select_stock_for_update_run.
    fold (stock_of (ci_product_id it) d).
    destruct (Z.ltb_spec (stock_of (ci_product_id it) d) (ci_quantity it)) as [Hlt|Hge].
    + eexists. reflexivity.
    + apply IH. inversion H; subst; [lia | assumption].
Qed.

Lemma lock_and_check_prefix items d h :
  Forall (fun it => product_rows (ci_product_id it) d <> []) items ->
  exists n, held (snd (lock_and_check items (mk_conn d h))) =
            h ++ firstn n (map ci_product_id items).
Proof.
  revert h. induction items as [|it rest IH]; intros h H; simpl.
  - exists O. rewrite app_nil_r. reflexivity.
  - inversion H as [|? ? Hrow Hrest]; subst.
    unfold bind at 1. rewrite select_stock_for_update_run.
    destruct (product_rows (ci_product_id it) d) as [|r rs]; [congruence|].
    destruct (prod_stock r <? ci_quantity it).
    + exists 1%nat. reflexivity.
    + destruct (IH (h ++ [ci_product_id it]) Hrest) as [n Hn].
      exists (S n). rewrite Hn, <- app_assoc. reflexivity.
Qed.

(** The shape of a checkout that found its cart and at least one line. *)
Lemma cart_checkout_unfold s cartId :
  active_cart s = Some cartId -> lines_of cartId s <> [] ->
  cart_checkout s =
  transaction
    (lock_and_check (lines_of cartId s) ;;;
     orderId <- insert_order ;;
     place_lines orderId (lines_of cartId s) ;;;
     update_cart_checked_out cartId ;;;
     ret orderId) s.
Proof.
  intros Hc Hl. unfold cart_checkout, transaction.
  unfold bind at 1. rewrite select_active_cart_run. cbn [db]. rewrite Hc.
  unfold bind at 1. unfold select_cart_items, query. cbn [db].
  fold (lines_of cartId s). destruct (lines_of cartId s); [congruence|].
  reflexivity.
Qed.

(** C1. When some line of the active cart asks for more than the stock of
    its product, checkout throws "Out of stock" and the database afterwards
    is the database before: no stock, order, order line, cart or cart line
    has changed. *)
Theorem checkout_all_or_nothing (s : DB) (cartId : Z) (it : cart_item) :
  active_cart s = Some cartId ->
  In it (lines_of cartId s) ->
  stock_of (ci_product_id it) s < ci_quantity it ->
  result (cart_checkout s) = inl OutOfStock /\
  InsufficientStock OutOfStock /\
  after (cart_checkout s) = s.
Proof.
  intros Hc Hin Hlt.
  assert (Hne : lines_of cartId s <> []) by (intros E; rewrite E in Hin; inversion Hin).
  rewrite (cart_checkout_unfold s cartId Hc Hne).
  destruct (lock_and_check_short (lines_of cartId s) s []) as [h' Hrun].
  { apply Exists_exists. exists it. split; assumption. }
  assert (E : transaction
                (lock_and_check (lines_of cartId s) ;;;
                 orderId <- insert_order ;;
                 place_lines orderId (lines_of cartId s) ;;;
                 update_cart_checked_out cartId ;;;
                 ret orderId) s = mk_outcome (inl OutOfStock) s h').
  { unfold transaction, bind at 1. rewrite Hrun. simpl.
    rewrite rollback_same. reflexivity. }
  rewrite E. simpl. repeat split. left; reflexivity.
Qed.

(** ** Statements that take no lock *)

Lemma no_lock_ret {A} (a : A) : no_lock (ret a).
Proof. intros c; reflexivity. Qed.

Lemma no_lock_throw {A} e : no_lock (@throw A e).
Proof. intros c; reflexivity. Qed.

Lemma no_lock_query {A} (f : DB -> A) : no_lock (query f).
Proof. intros c; reflexivity. Qed.

Lemma no_lock_write f : no_lock (write f).
Proof. intros c; reflexivity. Qed.

Lemma no_lock_bind {A B} (m : Tx A) (k : A -> Tx B) :
  no_lock m -> (forall a, no_lock (k a)) -> no_lock (bind m k).
Proof.
  intros Hm Hk c. unfold bind. specialize (Hm c).
  destruct (m c) as [[e|a] c']; simpl in *; [exact Hm|].
  rewrite Hk. exact Hm.
Qed.

Ltac no_lock_step :=
  first [ apply no_lock_ret | apply no_lock_throw | apply no_lock_query
        | apply no_lock_write
        | apply no_lock_bind; [ | intros ? ] ].

Lemma insert_order_no_lock : no_lock insert_order.
Proof.
  unfold insert_order.
  repeat first [ no_lock_step
               | match goal with |- no_lock (if ?b then _ else _) => destruct b end ].
Qed.

Lemma insert_order_item_no_lock o p q pr : no_lock (insert_order_item o p q pr).
Proof.
  unfold insert_order_item. split_if; [|no_lock_step].
  no_lock_step; [no_lock_step|]. destruct a; no_lock_step.
Qed.

Lemma update_stock_no_lock q p : no_lock (update_stock q p).
Proof.
  unfold update_stock. no_lock_step; [no_lock_step|]. split_if; no_lock_step.
Qed.

Lemma place_lines_no_lock orderId items : no_lock (place_lines orderId items).
Proof.
  induction items as [|it rest IH]; simpl; [no_lock_step|].
  no_lock_step; [apply insert_order_item_no_lock|].
  no_lock_step; [apply update_stock_no_lock | exact IH].
Qed.

Lemma commit_no_lock cartId items :
  no_lock (orderId <- insert_order ;;
           place_lines orderId items ;;;
           update_cart_checked_out cartId ;;;
           ret orderId).
Proof.
  no_lock_step; [apply insert_order_no_lock|].
  no_lock_step; [apply place_lines_no_lock|].
  intros c; reflexivity.
Qed.

Lemma lock_and_check_run items d h :
  Forall (fun it => product_rows (ci_product_id it) d <> []) items ->
  exists r n,
    lock_and_check items (mk_conn d h) =
      (r, mk_conn d (h ++ firstn n (map ci_product_id items))) /\
    (forall u, r = inr u ->
       firstn n (map ci_product_id items) = map ci_product_id items).
Proof.
  revert h. induction items as [|it rest IH]; intros h H; simpl.
  - exists (inr tt), O. rewrite app_nil_r. split; reflexivity.
  - inversion H as [|? ? Hrow Hrest]; subst.
    unfold bind at 1. rewrite select_stock_for_update_run.
    destruct (product_rows (ci_product_id it) d) as [|p ps]; [congruence|].
    destruct (prod_stock p <? ci_quantity it).
    + exists (inl OutOfStock), 1%nat. split; [reflexivity | discriminate].
    + destruct (IH (h ++ [ci_product_id it]) Hrest) as (r & n & Hrun & Hall).
      exists r, (S n). rewrite Hrun, <- app_assoc. split; [reflexivity|].
      intros u Hu. simpl. f_equal. exact (Hall u Hu).
Qed.

Lemma lines_have_products s cartId :
  schema_ok s ->
  Forall (fun it => product_rows (ci_product_id it) s <> []) (lines_of cartId s).
Proof.
  intros Hs. apply Forall_forall. intros it Hin.
  apply product_row_exists.
  apply filter_In in Hin. destruct Hin as [Hin _].
  pose proof (cart_items_product_fkey s Hs) as Hfk.
  rewrite Forall_forall in Hfk. exact (Hfk it Hin).
Qed.

Lemma Sorted_firstn {A} (R : A -> A -> Prop) (l : list A) :
  Sorted R l -> forall n, Sorted R (firstn n l).
Proof.
  induction 1 as [|a l Hs IH Hhd]; intros [|n]; simpl; try constructor.
  - apply IH.
  - destruct Hhd; destruct n; simpl; constructor; assumption.
Qed.

(** The locks of a checkout are those of its first loop, taken line by
    line in row order up to the line where it stops. *)
Lemma checkout_lock_trace (s : DB) (cartId : Z) :
  schema_ok s ->
  active_cart s = Some cartId ->
  (exists n, lock_trace (cart_checkout s) =
             firstn n (map ci_product_id (lines_of cartId s))) /\
  (forall orderId, result (cart_checkout s) = inr orderId ->
     lock_trace (cart_checkout s) = map ci_product_id (lines_of cartId s)).
Proof.
  intros Hs Hc.
  destruct (lines_of cartId s) as [|l0 ls] eqn:El.
  - assert (E : cart_checkout s = mk_outcome (inl CartIsEmpty) s []).
    { unfold cart_checkout, transaction.
      unfold bind at 1. rewrite select_active_cart_run. cbn [db]. rewrite Hc.
      unfold bind at 1. unfold select_cart_items, query. cbn [db].
      fold (lines_of cartId s). rewrite El. simpl. rewrite rollback_same.
      reflexivity. }
    rewrite E. simpl. split; [exists O; reflexivity | discriminate].
  - rewrite <- El.
    assert (Hne : lines_of cartId s <> []) by (rewrite El; discriminate).
    rewrite (cart_checkout_unfold s cartId Hc Hne).
    destruct (lock_and_check_run (lines_of cartId s) s [] (lines_have_products s cartId Hs))
      as (r & n & Hrun & Hall).
    simpl in Hrun.
    assert (E : exists r' d',
               transaction
                 (lock_and_check (lines_of cartId s) ;;;
                  orderId <- insert_order ;;
                  place_lines orderId (lines_of cartId s) ;;;
                  update_cart_checked_out cartId ;;; ret orderId) s =
               mk_outcome r' d' (firstn n (map ci_product_id (lines_of cartId s))) /\
               (forall a, r' = inr a ->
                  firstn n (map ci_product_id (lines_of cartId s)) =
                  map ci_product_id (lines_of cartId s))).
    { unfold transaction, bind at 1. rewrite Hrun.
      destruct r as [e|[]].
      - do 2 eexists. split; [reflexivity | discriminate].
      - pose proof (commit_no_lock cartId (lines_of cartId s)
                      (mk_conn s (firstn n (map ci_product_id (lines_of cartId s))))) as Hk.
        simpl in Hk.
        destruct ((orderId <- insert_order ;;
                   place_lines orderId (lines_of cartId s) ;;;
                   update_cart_checked_out cartId ;;; ret orderId)
                    (mk_conn s (firstn n (map ci_product_id (lines_of cartId s)))))
          as [[e|a] c']; simpl in Hk; rewrite Hk; do 2 eexists;
          (split; [reflexivity | intros _ _; exact (Hall tt eq_refl)]). }
    destruct E as (r' & d' & E & Hfull). rewrite E. simpl.
    split; [exists n; reflexivity | intros a Ha; exact (Hfull a Ha)].
Qed.

(** C5, as the code has it. Checkout locks product rows in the order in
    which the store returns the cart's lines (the query has no ORDER BY and
    the handler does not sort): the locked product ids are an initial part
    of the lines' product ids in row order, and all of them when checkout
    succeeds.  So the locks are ascending when the rows come back in
    ascending product-id order; and a checkout that succeeds on rows that
    come back in another order has taken its locks in that order, not in
    ascending order. *)
Theorem checkout_locks_in_row_order (s : DB) (cartId : Z) :
  schema_ok s ->
  active_cart s = Some cartId ->
  (exists n, lock_trace (cart_checkout s) =
             firstn n (map ci_product_id (lines_of cartId s))) /\
  (forall orderId, result (cart_checkout s) = inr orderId ->
     lock_trace (cart_checkout s) = map ci_product_id (lines_of cartId s)) /\
  (Sorted Z.le (map ci_product_id (lines_of cartId s)) ->
     Sorted Z.le (lock_trace (cart_checkout s))) /\
  (forall orderId, result (cart_checkout s) = inr orderId ->
     ~ Sorted Z.le (map ci_product_id (lines_of cartId s)) ->
     ~ Sorted Z.le (lock_trace (cart_checkout s))).
Proof.
  intros Hs Hc. destruct (checkout_lock_trace s cartId Hs Hc) as [[n Hn] Hall].
  split; [exists n; exact Hn|]. split; [exact Hall|]. split.
  - intros Hsorted. rewrite Hn. apply Sorted_firstn, Hsorted.
  - intros orderId Hr Hnot. rewrite (Hall orderId Hr). exact Hnot.
Qed.

(** ** Concrete databases *)

Ltac concrete_schema :=
  constructor; unfold stock_floor, active_carts; simpl;
  repeat match goal with
         | |- Forall _ _ => constructor
         | |- NoDup _ => constructor
         | |- _ /\ _ => split
         | |- forall customer : Z, (_ <= _)%nat =>
             intros customer;
             repeat match goal with
                    | |- context [if ?b then _ else _] => destruct b
                    end
         end;
  simpl; try lia; auto 10; try (intuition (discriminate || congruence)).

Lemma shop_ok : schema_ok shop.
Proof. concrete_schema. Qed.

Lemma shop_with_cart_ok : schema_ok shop_with_cart.
Proof. concrete_schema. Qed.

Lemma short_cart_ok : schema_ok short_cart.
Proof. concrete_schema. Qed.

Lemma unsorted_cart_ok : schema_ok unsorted_cart.
Proof. concrete_schema. Qed.

Lemma checkout_all_or_nothing_witness :
  active_cart short_cart = Some 1 /\
  result (cart_checkout short_cart) = inl OutOfStock /\
  after (cart_checkout short_cart) = short_cart.
Proof.
  split; [reflexivity|].
  destruct (checkout_all_or_nothing short_cart 1 (mk_cart_item 1 2 3 500))
    as (H1 & _ & H2).
  - reflexivity.
  - simpl. right; left; reflexivity.
  - reflexivity.
  - split; assumption.
Defined.

Lemma checkout_locks_in_row_order_witness :
  lock_trace (cart_checkout shop_with_cart) = [1; 2] /\
  Sorted Z.le (lock_trace (cart_checkout shop_with_cart)) /\
  ~ Sorted Z.le (lock_trace (cart_checkout unsorted_cart)).
Proof.
  destruct (checkout_locks_in_row_order shop_with_cart 1 shop_with_cart_ok eq_refl)
    as (_ & Hall & Hsorted & _).
  destruct (checkout_locks_in_row_order unsorted_cart 1 unsorted_cart_ok eq_refl)
    as (_ & _ & _ & Hnot).
  split; [exact (Hall 1 eq_refl)|]. split.
  - apply Hsorted. repeat constructor. discriminate.
  - apply (Hnot 1 eq_refl). intros H. inversion H as [|a l Hs Hh]; subst.
    inversion Hh as [|b l' Hle]; subst. apply Hle. reflexivity.
Defined.

(** C5, as stated, fails: with P2 put into the cart before P1 (two
    [cart.add_item] calls on the empty shop), checkout locks product 2 and
    then product 1. *)
Lemma checkout_locks_not_ascending :
  after (cart_add_item 1 1 (after (cart_add_item 2 1 shop))) = unsorted_cart /\
  result (cart_checkout unsorted_cart) = inr 1 /\
  lock_trace (cart_checkout unsorted_cart) = [2; 1] /\
  ~ Sorted Z.le (lock_trace (cart_checkout unsorted_cart)).
Proof.
  repeat split. intros H. inversion H as [|a l Hs Hh]; subst.
  inversion Hh as [|b l' Hle]; subst. apply Hle. reflexivity.
Qed.

(** ** The commit loop of checkout *)

Lemma stock_of_row d p :
  NoDup (map prod_id (products d)) -> In p (products d) ->
  stock_of (prod_id p) d = prod_stock p.
Proof.
  unfold stock_of, product_rows.
  induction (products d) as [|p0 ps IH]; simpl; intros Hnd Hin; [tauto|].
  inversion Hnd as [|? ? Hnotin Hnd']; subst.
  destruct Hin as [->|Hin].
  - rewrite Z.eqb_refl. reflexivity.
  - destruct (Z.eqb_spec (prod_id p0) (prod_id p)) as [E|E].
    + exfalso. apply Hnotin. rewrite E. apply in_map, Hin.
    + apply IH; assumption.
Qed.

Lemma decrement_id qty productId p : prod_id (decrement qty productId p) = prod_id p.
Proof. unfold decrement. destruct (prod_id p =? productId); reflexivity. Qed.

Lemma decrement_ids qty productId ps :
  map prod_id (map (decrement qty productId) ps) = map prod_id ps.
Proof.
  rewrite map_map. apply map_ext. intros p. apply decrement_id.
Qed.

Lemma product_rows_decrement_other qty productId other d :
  other <> productId ->
  product_rows other (set_products (map (decrement qty productId) (products d)) d) =
  product_rows other d.
Proof.
  intros Hne. unfold product_rows; simpl.
  induction (products d) as [|p ps IH]; simpl; [reflexivity|].
  rewrite decrement_id. unfold decrement at 1.
  destruct (Z.eqb_spec (prod_id p) productId) as [E|E].
  - destruct (Z.eqb_spec (prod_id p) other) as [E'|E']; [congruence | exact IH].
  - rewrite IH. reflexivity.
Qed.

Lemma update_stock_run qty productId d h :
  NoDup (map prod_id (products d)) ->
  qty <= stock_of productId d ->
  update_stock qty productId (mk_conn d h) =
  (inr tt, mk_conn (set_products (map (decrement qty productId) (products d)) d) h).
Proof.
  intros Hnd Hq. unfold update_stock, bind, query, write. cbn [db held].
  replace (forallb _ _) with true; [reflexivity|].
  symmetry. apply forallb_forall. intros p Hin.
  apply filter_In in Hin. destruct Hin as [Hin Hid]. apply Z.eqb_eq in Hid.
  apply Z.leb_le. subst productId. rewrite (stock_of_row d p Hnd Hin) in Hq. lia.
Qed.

Lemma insert_order_item_run orderId productId qty price d h :
  0 < qty -> 0 <= price ->
  existsb (is_order_line orderId productId) (order_items d) = false ->
  insert_order_item orderId productId qty price (mk_conn d h) =
  (inr tt,
   mk_conn (set_order_items
              (order_items d ++ [mk_order_item orderId productId qty price]) d) h).
Proof.
  intros Hq Hp Hfree. unfold insert_order_item.
  destruct (Z.ltb_spec 0 qty); [|lia].
  destruct (Z.leb_spec 0 price); [|lia].
  simpl. unfold bind, query, write. cbn [db held]. rewrite Hfree. reflexivity.
Qed.

Lemma consume_nil p : consume [] p = p.
Proof.
  unfold consume, line_quantity; simpl. rewrite Z.sub_0_r. destruct p; reflexivity.
Qed.

Lemma line_quantity_absent items productId :
  ~ In productId (map ci_product_id items) -> line_quantity items productId = 0.
Proof.
  unfold line_quantity. induction items as [|it rest IH]; simpl; [reflexivity|].
  intros Hn. destruct (Z.eqb_spec (ci_product_id it) productId) as [E|E].
  - exfalso. apply Hn. left. exact E.
  - apply IH. intros H. apply Hn. right. exact H.
Qed.

Lemma consume_cons it rest p :
  ~ In (ci_product_id it) (map ci_product_id rest) ->
  consume rest (decrement (ci_quantity it) (ci_product_id it) p) = consume (it :: rest) p.
Proof.
  intros Hn. unfold consume, decrement, line_quantity. simpl.
  rewrite (Z.eqb_sym (ci_product_id it) (prod_id p)).
  destruct (Z.eqb_spec (prod_id p) (ci_product_id it)) as [E|E]; simpl.
  - rewrite E. fold (line_quantity rest (ci_product_id it)).
    rewrite (line_quantity_absent rest _ Hn), Z.sub_0_r. reflexivity.
  - reflexivity.
Qed.

(** What the second loop of checkout leaves: the order lines appended in
    row order, and every product's stock lowered by its line. *)
Lemma place_lines_run orderId items : forall d h,
  NoDup (map prod_id (products d)) ->
  NoDup (map ci_product_id items) ->
  Forall (fun it => (0 < ci_quantity it /\ 0 <= ci_price_cents it) /\
                    ci_quantity it <= stock_of (ci_product_id it) d /\
                    existsb (is_order_line orderId (ci_product_id it)) (order_items d) = false)
         items ->
  place_lines orderId items (mk_conn d h) =
  (inr tt,
   mk_conn (set_order_items (order_items d ++ map (order_line_of orderId) items)
              (set_products (map (consume items) (products d)) d)) h).
Proof.
  induction items as [|it rest IH]; intros d h Hpk Hnd Hall; simpl.
  - unfold ret. rewrite app_nil_r. f_equal. f_equal.
    rewrite (map_ext _ (fun p => p) consume_nil), map_id. destruct d; reflexivity.
  - inversion Hnd as [|? ? Hnotin Hnd']; subst.
    inversion Hall as [|? ? Hit Hrest]; subst.
    destruct Hit as ((Hq & Hp) & Hs & Hfree).
    unfold bind at 1. rewrite (insert_order_item_run _ _ _ _ d h Hq Hp Hfree).
    unfold bind at 1. rewrite update_stock_run; [|exact Hpk|exact Hs].
    set (d1 := set_products _ _).
    rewrite IH.
    + subst d1. unfold set_order_items, set_products. simpl.
      rewrite <- app_assoc, map_map. simpl.
      rewrite (map_ext _ (consume (it :: rest))
                 (fun p => consume_cons it rest p Hnotin)).
      reflexivity.
    + subst d1. simpl. rewrite decrement_ids. exact Hpk.
    + exact Hnd'.
    + rewrite Forall_forall in Hrest |- *. intros it' Hin.
      destruct (Hrest it' Hin) as (Hc' & Hs' & Hfree').
      assert (Hne : ci_product_id it' <> ci_product_id it).
      { intros E. apply Hnotin. rewrite <- E. apply in_map, Hin. }
      split; [exact Hc'|]. split.
      * subst d1. unfold stock_of.
        rewrite (product_rows_decrement_other _ _ _
                   (set_order_items _ d) Hne).
        exact Hs'.
      * subst d1. simpl. rewrite existsb_app, Hfree'. simpl.
        unfold is_order_line; simpl.
        destruct (Z.eqb_spec (ci_product_id it) (ci_product_id it')); [congruence|].
        rewrite andb_false_r. reflexivity.
Qed.

Lemma lines_distinct s cartId :
  schema_ok s -> NoDup (map ci_product_id (lines_of cartId s)).
Proof.
  intros Hs. pose proof (cart_items_pkey s Hs) as Hpk. unfold lines_of.
  induction (cart_items s) as [|a l IH]; simpl in *; [constructor|].
  inversion Hpk as [|? ? Hnotin Hpk']; subst.
  destruct (Z.eqb_spec (ci_cart_id a) cartId) as [E|E]; [|auto].
  simpl. constructor; [|auto].
  intros Hin. apply in_map_iff in Hin. destruct Hin as (b & Hpid & Hb).
  apply filter_In in Hb. destruct Hb as [Hb Hcid].
  apply Z.eqb_eq in Hcid. apply Hnotin.
  apply in_map_iff. exists b. split; [|exact Hb]. congruence.
Qed.

Lemma fresh_order_id s productId :
  schema_ok s ->
  existsb (is_order_line (orders_id_seq s) productId) (order_items s) = false.
Proof.
  intros Hs. destruct (existsb _ _) eqn:E; [|reflexivity]. exfalso.
  apply existsb_exists in E. destruct E as (oi & Hin & Hline).
  unfold is_order_line in Hline. apply andb_prop in Hline. destruct Hline as [Hid _].
  apply Z.eqb_eq in Hid.
  pose proof (order_items_order_fkey s Hs) as Hfk. rewrite Forall_forall in Hfk.
  specialize (Hfk oi Hin). apply in_map_iff in Hfk. destruct Hfk as (o & Ho & Hino).
  pose proof (orders_serial s Hs) as Hser. rewrite Forall_forall in Hser.
  specialize (Hser o Hino). simpl in Hser. lia.
Qed.

Lemma lines_checked s cartId :
  schema_ok s ->
  Forall (fun it => 0 < ci_quantity it /\ 0 <= ci_price_cents it) (lines_of cartId s).
Proof.
  intros Hs. pose proof (cart_items_checks s Hs) as H.
  rewrite Forall_forall in H |- *. intros it Hin.
  apply filter_In in Hin. apply H, Hin.
Qed.

(** A checkout whose every line is covered by stock, in full. *)
Lemma cart_checkout_run s cartId :
  schema_ok s ->
  active_cart s = Some cartId -> lines_of cartId s <> [] ->
  Forall (fun it => ci_quantity it <= stock_of (ci_product_id it) s) (lines_of cartId s) ->
  cart_checkout s =
  mk_outcome (inr (orders_id_seq s))
    (mk_DB (map (consume (lines_of cartId s)) (products s))
           (map (check_out cartId) (carts s))
           (cart_items s)
           (orders s ++ [mk_order (orders_id_seq s) CUSTOMER])
           (order_items s ++ map (order_line_of (orders_id_seq s)) (lines_of cartId s))
           (carts_id_seq s)
           (orders_id_seq s + 1))
    (map ci_product_id (lines_of cartId s)).
Proof.
  intros Hs Hc Hne Hcover.
  rewrite (cart_checkout_unfold s cartId Hc Hne).
  unfold transaction, bind at 1.
  rewrite lock_and_check_pass.
  2:{ pose proof (lines_have_products s cartId Hs) as Hrows.
      rewrite Forall_forall in Hrows, Hcover |- *. intros it Hin.
      split; [apply Hrows | apply Hcover]; exact Hin. }
  unfold bind at 1. rewrite (insert_order_run s _ (fresh_order s Hs)).
  unfold bind at 1. rewrite place_lines_run.
  - reflexivity.
  - exact (products_pkey s Hs).
  - exact (lines_distinct s cartId Hs).
  - pose proof (lines_checked s cartId Hs) as Hchk.
    rewrite Forall_forall in Hchk, Hcover |- *. intros it Hin.
    split; [exact (Hchk it Hin)|]. split; [exact (Hcover it Hin)|].
    exact (fresh_order_id s (ci_product_id it) Hs).
Qed.

(** C3. Checkout throws "No active cart" without an active cart and "Cart
    is empty" when the active cart has no line.  Otherwise, when every
    line's quantity is within its product's stock, it returns the id of a
    new order, appends that order and one order line per cart line with the
    line's own price, lowers each product's stock by the quantity of its
    line, and marks the cart checked_out; the cart lines stay. *)
Theorem checkout_spec (s : DB) :
  schema_ok s ->
  (active_cart s = None -> result (cart_checkout s) = inl NoActiveCart) /\
  (forall cartId, active_cart s = Some cartId -> lines_of cartId s = [] ->
     result (cart_checkout s) = inl CartIsEmpty) /\
  (forall cartId, active_cart s = Some cartId -> lines_of cartId s <> [] ->
     Forall (fun it => ci_quantity it <= stock_of (ci_product_id it) s)
            (lines_of cartId s) ->
     let orderId := orders_id_seq s in
     let s' := after (cart_checkout s) in
     result (cart_checkout s) = inr orderId /\
     orders s' = orders s ++ [mk_order orderId CUSTOMER] /\
     order_items s' = order_items s ++ map (order_line_of orderId) (lines_of cartId s) /\
     products s' = map (consume (lines_of cartId s)) (products s) /\
     carts s' = map (check_out cartId) (carts s) /\
     cart_items s' = cart_items s).
Proof.
  intros Hs. split; [|split].
  - intros Hc. unfold cart_checkout, transaction.
    unfold bind at 1. rewrite select_active_cart_run. cbn [db]. rewrite Hc.
    reflexivity.
  - intros cartId Hc El. unfold cart_checkout, transaction.
    unfold bind at 1. rewrite select_active_cart_run. cbn [db]. rewrite Hc.
    unfold bind at 1. unfold select_cart_items, query. cbn [db].
    fold (lines_of cartId s). rewrite El. reflexivity.
  - intros cartId Hc Hne Hcover orderId s'. subst orderId s'.
    rewrite (cart_checkout_run s cartId Hs Hc Hne Hcover). simpl.
    repeat split.
Qed.

Lemma checkout_spec_witness :
  result (cart_checkout shop_with_cart) = inr 1 /\
  products (after (cart_checkout shop_with_cart)) =
    [mk_product 1 "P1" 100 8; mk_product 2 "P2" 500 0] /\
  order_items (after (cart_checkout shop_with_cart)) =
    [mk_order_item 1 1 2 100; mk_order_item 1 2 1 500] /\
  carts (after (cart_checkout shop_with_cart)) = [mk_cart 1 1 checked_out].
Proof.
  destruct (checkout_spec shop_with_cart shop_with_cart_ok) as (_ & _ & H).
  destruct (H 1) as (H1 & _ & H3 & H4 & H5 & _).
  - reflexivity.
  - discriminate.
  - repeat constructor; simpl; discriminate.
  - repeat split; assumption.
Defined.

(** ** Adding to the cart *)

Lemma bind_ret_run {A B} (a : A) (k : A -> Tx B) c : bind (ret a) k c = k a c.
Proof. reflexivity. Qed.

Lemma bind_query_run {A B} (f : DB -> A) (k : A -> Tx B) c :
  bind (query f) k c = k (f (db c)) c.
Proof. reflexivity. Qed.

Lemma bind_write_run {B} f (k : unit -> Tx B) c :
  bind (write f) k c = k tt (mk_conn (f (db c)) (held c)).
Proof. reflexivity. Qed.

Lemma bind_throw_run {A B} e (k : A -> Tx B) c : bind (throw e) k c = (inl e, c).
Proof. reflexivity. Qed.

(** The INSERT into [carts]: rejected when the id drawn is in use or the
    customer has an active cart; the sequence has advanced either way. *)
Lemma insert_cart_cases d h :
  insert_cart (mk_conn d h) =
  if existsb (fun c => cart_id c =? carts_id_seq d) (carts d) ||
     match active_cart d with Some _ => true | None => false end
  then (inl UniqueViolation, mk_conn (set_carts_id_seq (carts_id_seq d + 1) d) h)
  else (inr (carts_id_seq d), mk_conn (with_new_cart d) h).
Proof.
  unfold insert_cart.
  rewrite bind_query_run, bind_write_run, !bind_query_run. cbn [db held].
  change (carts (set_carts_id_seq (carts_id_seq d + 1) d)) with (carts d).
  rewrite active_cart_taken.
  destruct (_ || _); reflexivity.
Qed.

Lemma insert_cart_run d h :
  existsb (fun c => cart_id c =? carts_id_seq d) (carts d) = false ->
  active_cart d = None ->
  insert_cart (mk_conn d h) = (inr (carts_id_seq d), mk_conn (with_new_cart d) h).
Proof. intros Hf Hc. rewrite insert_cart_cases, Hf, Hc. reflexivity. Qed.

Lemma insert_cart_conflict d h id :
  active_cart d = Some id ->
  insert_cart (mk_conn d h) =
  (inl UniqueViolation, mk_conn (set_carts_id_seq (carts_id_seq d + 1) d) h).
Proof. intros Hc. rewrite insert_cart_cases, Hc, orb_true_r. reflexivity. Qed.

(** The first two statements of [cart.add_item], the id the sequence
    hands out being free. *)
Lemma cart_for_run {B} (k : Z -> Tx B) s h :
  (active_cart s = None ->
   existsb (fun c => cart_id c =? carts_id_seq s) (carts s) = false) ->
  bind select_active_cart
       (fun cart => bind (match cart with id :: _ => ret id | [] => insert_cart end) k)
       (mk_conn s h) =
  k (fst (cart_for s)) (mk_conn (snd (cart_for s)) h).
Proof.
  intros Hf.
  unfold bind at 1. rewrite select_active_cart_run. cbn [db]. unfold cart_for.
  destruct (active_cart s) as [id|] eqn:Hc.
  - reflexivity.
  - unfold bind at 1. rewrite (insert_cart_run s h (Hf eq_refl) Hc). reflexivity.
Qed.

Lemma select_product_run productId c :
  INT_MIN <= productId <= INT_MAX ->
  select_product productId c = (inr (product_rows productId (db c)), c).
Proof.
  intros H. unfold select_product, bind. rewrite (integer_run _ _ H). reflexivity.
Qed.

Lemma cart_for_products s : products (snd (cart_for s)) = products s.
Proof. unfold cart_for. destruct (active_cart s); reflexivity. Qed.

Lemma cart_for_cart_items s : cart_items (snd (cart_for s)) = cart_items s.
Proof. unfold cart_for. destruct (active_cart s); reflexivity. Qed.

Lemma find_product_rows productId d p :
  find_product productId d = Some p ->
  exists rest, product_rows productId d = p :: rest.
Proof.
  unfold find_product. destruct (product_rows productId d) as [|r rest]; simpl.
  - discriminate.
  - intros E. injection E as ->. exists rest. reflexivity.
Qed.

Lemma upsert_total new rows :
  0 <= match filter (is_line (ci_cart_id new) (ci_product_id new)) rows with
       | ci :: _ => ci_quantity ci | [] => 0 end ->
  0 < ci_quantity new ->
  exists rows', upsert new rows = Some rows'.
Proof.
  intros Hex Hq. induction rows as [|r rest IH]; simpl in *.
  - eexists. reflexivity.
  - destruct (is_line (ci_cart_id new) (ci_product_id new) r).
    + destruct (Z.ltb_spec 0 (ci_quantity r + ci_quantity new)); [|lia].
      eexists. reflexivity.
    + destruct (IH Hex) as [rows' ->]. eexists. reflexivity.
Qed.

(** The shape of [cart.add_item] once the product is found: the stock
    guard, then the upsert. *)
Lemma cart_add_item_unfold s productId quantity p :
  (active_cart s = None ->
   existsb (fun c => cart_id c =? carts_id_seq s) (carts s) = false) ->
  INT_MIN <= productId <= INT_MAX ->
  find_product productId s = Some p ->
  cart_add_item productId quantity s =
  transaction
    (fun c =>
       let cartId := fst (cart_for s) in
       if prod_stock p <? quantity_in cartId productId s + quantity
       then (inl NotEnoughStock, mk_conn (snd (cart_for s)) [])
       else bind (upsert_cart_item cartId productId quantity (prod_price_cents p))
                 (fun _ => ret cartId) (mk_conn (snd (cart_for s)) [])) s.
Proof.
  intros Hf Hi Hp. unfold cart_add_item, transaction. rewrite (cart_for_run _ _ _ Hf).
  unfold bind at 1. rewrite (select_product_run _ _ Hi). cbn [db].
  destruct (find_product_rows productId s p Hp) as [rest Hrows].
  unfold product_rows in *. rewrite cart_for_products, Hrows.
  unfold select_line_quantity. rewrite bind_query_run. cbn [db].
  rewrite cart_for_cart_items. unfold quantity_in.
  destruct (filter (is_line (fst (cart_for s)) productId) (cart_items s));
    cbn [map]; cbv iota;
    match goal with |- context [?a <? ?b] => destruct (a <? b) end; reflexivity.
Qed.

Lemma cart_add_item_short s productId quantity p :
  (active_cart s = None ->
   existsb (fun c => cart_id c =? carts_id_seq s) (carts s) = false) ->
  INT_MIN <= productId <= INT_MAX ->
  find_product productId s = Some p ->
  prod_stock p < quantity_in (fst (cart_for s)) productId s + quantity ->
  result (cart_add_item productId quantity s) = inl NotEnoughStock /\
  same_tables (after (cart_add_item productId quantity s)) s.
Proof.
  intros Hf Hi Hp Hlt. rewrite (cart_add_item_unfold s productId quantity p Hf Hi Hp).
  unfold transaction. cbv zeta.
  destruct (Z.ltb_spec (prod_stock p) (quantity_in (fst (cart_for s)) productId s + quantity));
    [|lia].
  simpl. unfold same_tables. repeat split.
Qed.

Lemma cart_add_item_run s productId quantity p :
  (active_cart s = None ->
   existsb (fun c => cart_id c =? carts_id_seq s) (carts s) = false) ->
  INT_MIN <= productId <= INT_MAX ->
  0 < quantity ->
  find_product productId s = Some p ->
  0 <= prod_price_cents p ->
  0 <= quantity_in (fst (cart_for s)) productId s ->
  quantity_in (fst (cart_for s)) productId s + quantity <= prod_stock p ->
  exists rows',
    upsert (mk_cart_item (fst (cart_for s)) productId quantity (prod_price_cents p))
           (cart_items s) = Some rows' /\
    cart_add_item productId quantity s =
    mk_outcome (inr (fst (cart_for s))) (set_cart_items rows' (snd (cart_for s))) [].
Proof.
  intros Hf Hi Hq Hp Hprice Hex Hle.
  destruct (upsert_total
              (mk_cart_item (fst (cart_for s)) productId quantity (prod_price_cents p))
              (cart_items s) Hex Hq) as [rows' Hup].
  exists rows'. split; [exact Hup|].
  rewrite (cart_add_item_unfold s productId quantity p Hf Hi Hp).
  unfold transaction. cbv zeta.
  destruct (Z.ltb_spec (prod_stock p) (quantity_in (fst (cart_for s)) productId s + quantity));
    [lia|].
  unfold upsert_cart_item.
  destruct (Z.ltb_spec 0 quantity); [|lia].
  destruct (Z.leb_spec 0 (prod_price_cents p)); [|lia].
  simpl andb. cbv iota.
  unfold bind at 1. rewrite bind_query_run. cbn [db].
  rewrite cart_for_cart_items, Hup. reflexivity.
Qed.

Lemma filter_none {A} (f : A -> bool) l :
  (forall x, In x l -> f x = false) -> filter f l = [].
Proof.
  induction l as [|a l IH]; simpl; intros H; [reflexivity|].
  rewrite (H a (or_introl eq_refl)). apply IH. intros x Hx. apply H. right. exact Hx.
Qed.

Lemma fresh_cart_id s productId :
  schema_ok s -> filter (is_line (carts_id_seq s) productId) (cart_items s) = [].
Proof.
  intros Hs. apply filter_none. intros ci Hin.
  pose proof (cart_items_cart_fkey s Hs) as Hfk. rewrite Forall_forall in Hfk.
  specialize (Hfk ci Hin). apply in_map_iff in Hfk. destruct Hfk as (c & Hc & Hinc).
  pose proof (carts_serial s Hs) as Hser. rewrite Forall_forall in Hser.
  specialize (Hser c Hinc). simpl in Hser.
  unfold is_line. destruct (Z.eqb_spec (ci_cart_id ci) (carts_id_seq s)); [lia|].
  reflexivity.
Qed.

Lemma quantity_in_existing s productId :
  schema_ok s ->
  quantity_in (fst (cart_for s)) productId s = existing_quantity productId s.
Proof.
  intros Hs. unfold quantity_in, existing_quantity, cart_for.
  destruct (active_cart s); simpl; [reflexivity|].
  rewrite (fresh_cart_id s productId Hs). reflexivity.
Qed.

Lemma quantity_in_nonneg s cartId productId :
  schema_ok s -> 0 <= quantity_in cartId productId s.
Proof.
  intros Hs. unfold quantity_in.
  destruct (filter (is_line cartId productId) (cart_items s)) as [|ci l] eqn:E; [lia|].
  assert (Hin : In ci (filter (is_line cartId productId) (cart_items s)))
    by (rewrite E; left; reflexivity).
  apply filter_In in Hin. destruct Hin as [Hin _].
  pose proof (cart_items_checks s Hs) as H. rewrite Forall_forall in H.
  destruct (H ci Hin). lia.
Qed.

Lemma find_product_in productId d p :
  find_product productId d = Some p -> In p (products d) /\ prod_id p = productId.
Proof.
  intros H. destruct (find_product_rows productId d p H) as [rest Hrows].
  assert (Hin : In p (product_rows productId d)) by (rewrite Hrows; left; reflexivity).
  apply filter_In in Hin. destruct Hin as [Hin Hid].
  split; [exact Hin | apply Z.eqb_eq, Hid].
Qed.

Lemma product_id_integer s productId p :
  schema_ok s -> find_product productId s = Some p -> INT_MIN <= productId <= INT_MAX.
Proof.
  intros Hs Hp. destruct (find_product_in productId s p Hp) as [Hin <-].
  pose proof (products_id_integer s Hs) as H. rewrite Forall_forall in H.
  exact (H p Hin).
Qed.

Lemma fresh_cart_if s :
  schema_ok s -> active_cart s = None ->
  existsb (fun c => cart_id c =? carts_id_seq s) (carts s) = false.
Proof. intros Hs _. exact (fresh_cart s Hs). Qed.

Lemma price_nonneg s productId p :
  schema_ok s -> find_product productId s = Some p -> 0 <= prod_price_cents p.
Proof.
  intros Hs Hp. destruct (find_product_in productId s p Hp) as [Hin _].
  pose proof (products_price_check s Hs) as H. rewrite Forall_forall in H.
  exact (H p Hin).
Qed.

(** C4. For a positive quantity of a product in the catalog:
    [cart.add_item] throws "Not enough stock" and leaves every table as it
    was (no cart, no line, no quantity changed; a cart inserted before the
    guard is rolled back, only its id stays drawn from the sequence) when
    the quantity already in the active cart (0 without a line or a cart)
    plus the requested quantity exceeds the stock; otherwise it succeeds. *)
Theorem add_item_guard (s : DB) (productId quantity : Z) (p : product) :
  schema_ok s ->
  0 < quantity ->
  find_product productId s = Some p ->
  (prod_stock p < existing_quantity productId s + quantity ->
     result (cart_add_item productId quantity s) = inl NotEnoughStock /\
     InsufficientStock NotEnoughStock /\
     same_tables (after (cart_add_item productId quantity s)) s) /\
  (existing_quantity productId s + quantity <= prod_stock p ->
     exists cartId, result (cart_add_item productId quantity s) = inr cartId).
Proof.
  intros Hs Hq Hp. rewrite <- (quantity_in_existing s productId Hs). split.
  - intros Hlt.
    destruct (cart_add_item_short s productId quantity p (fresh_cart_if s Hs)
                (product_id_integer s productId p Hs Hp) Hp Hlt) as [Hr Hsame].
    split; [exact Hr|]. split; [right; reflexivity | exact Hsame].
  - intros Hle.
    destruct (cart_add_item_run s productId quantity p (fresh_cart_if s Hs)
                (product_id_integer s productId p Hs Hp) Hq Hp
                (price_nonneg s productId p Hs Hp)
                (quantity_in_nonneg s _ productId Hs) Hle) as (rows' & _ & Hrun).
    exists (fst (cart_for s)). rewrite Hrun. reflexivity.
Qed.

Lemma add_item_guard_witness :
  result (cart_add_item 2 1 shop_with_cart) = inl NotEnoughStock /\
  same_tables (after (cart_add_item 2 1 shop_with_cart)) shop_with_cart /\
  exists cartId, result (cart_add_item 1 8 shop_with_cart) = inr cartId.
Proof.
  destruct (add_item_guard shop_with_cart 2 1 (mk_product 2 "P2" 500 1)
              shop_with_cart_ok eq_refl eq_refl) as [Hshort _].
  destruct (add_item_guard shop_with_cart 1 8 (mk_product 1 "P1" 100 10)
              shop_with_cart_ok eq_refl eq_refl) as [_ Hfit].
  destruct (Hshort eq_refl) as (H1 & _ & H2).
  split; [exact H1|]. split; [exact H2|].
  apply Hfit. discriminate.
Defined.

(** ** Merging on repeated adds *)

Lemma filter_nil_inv {A} (f : A -> bool) a l :
  filter f (a :: l) = [] -> f a = false /\ filter f l = [].
Proof. simpl. destruct (f a); [discriminate | auto]. Qed.

Lemma upsert_absent new rows :
  filter (is_line (ci_cart_id new) (ci_product_id new)) rows = [] ->
  upsert new rows = Some (rows ++ [new]).
Proof.
  induction rows as [|r rest IH]; intros H; simpl; [reflexivity|].
  apply filter_nil_inv in H. destruct H as [Hr Hrest].
  rewrite Hr, (IH Hrest). reflexivity.
Qed.

Lemma upsert_last new rows r :
  filter (is_line (ci_cart_id new) (ci_product_id new)) rows = [] ->
  is_line (ci_cart_id new) (ci_product_id new) r = true ->
  0 < ci_quantity r + ci_quantity new ->
  upsert new (rows ++ [r]) =
  Some (rows ++ [mk_cart_item (ci_cart_id r) (ci_product_id r)
                   (ci_quantity r + ci_quantity new) (ci_price_cents r)]).
Proof.
  intros H Hr Hq. induction rows as [|r0 rest IH]; simpl.
  - rewrite Hr. destruct (Z.ltb_spec 0 (ci_quantity r + ci_quantity new)); [|lia].
    reflexivity.
  - apply filter_nil_inv in H. destruct H as [Hr0 Hrest].
    rewrite Hr0, (IH Hrest). reflexivity.
Qed.

Lemma active_cart_for s : active_cart (snd (cart_for s)) = Some (fst (cart_for s)).
Proof.
  unfold cart_for. destruct (active_cart s) as [id|] eqn:Hc; simpl; [exact Hc|].
  unfold active_cart in *. simpl. rewrite filter_app, map_app.
  destruct (filter (is_active_cart_of CUSTOMER) (carts s)); [reflexivity | discriminate].
Qed.

Lemma cart_for_active s id : active_cart s = Some id -> cart_for s = (id, s).
Proof. intros H. unfold cart_for. rewrite H. reflexivity. Qed.

Lemma find_product_reprice productId price d p :
  find_product productId d = Some p ->
  find_product productId (reprice productId price d) =
  Some (mk_product (prod_id p) (prod_name p) price (prod_stock p)).
Proof.
  unfold find_product, product_rows, reprice; simpl.
  induction (products d) as [|p0 ps IH]; simpl; [discriminate|].
  destruct (prod_id p0 =? productId) eqn:E; simpl; rewrite E; simpl.
  - intros H. injection H as ->. reflexivity.
  - exact IH.
Qed.

(** C7. With no line for the product in the active cart and stock for
    five, [cart.add_item(p, 2)] followed by [cart.add_item(p, 3)] leaves
    exactly one line for the product in the cart, with quantity 5 and the
    price the product had at the first call, also when the product got
    another price between the two calls. *)
Theorem add_item_merges (s : DB) (productId newPrice : Z) (p : product) :
  schema_ok s ->
  find_product productId s = Some p ->
  5 <= prod_stock p ->
  (forall cartId, active_cart s = Some cartId ->
     filter (is_line cartId productId) (cart_items s) = []) ->
  0 <= newPrice ->
  let first := cart_add_item productId 2 s in
  let second := cart_add_item productId 3 (reprice productId newPrice (after first)) in
  exists cartId,
    result first = inr cartId /\
    result second = inr cartId /\
    filter (is_line cartId productId) (cart_items (after second)) =
      [mk_cart_item cartId productId 5 (prod_price_cents p)].
Proof.
  intros Hs Hp Hstock Habsent Hnew first second.
  set (cartId := fst (cart_for s)).
  assert (Hnone : filter (is_line cartId productId) (cart_items s) = []).
  { subst cartId. unfold cart_for. destruct (active_cart s) as [id|] eqn:Hc; simpl.
    - exact (Habsent id eq_refl).
    - exact (fresh_cart_id s productId Hs). }
  assert (Hq0 : quantity_in cartId productId s = 0).
  { unfold quantity_in. rewrite Hnone. reflexivity. }
  (* the first call appends the line *)
  pose proof (product_id_integer s productId p Hs Hp) as Hint.
  destruct (cart_add_item_run s productId 2 p) as (rows1 & Hup1 & Hrun1);
    [exact (fresh_cart_if s Hs) | exact Hint
    | lia | exact Hp | exact (price_nonneg s productId p Hs Hp)
    | fold cartId; lia | fold cartId; lia |].
  fold cartId in Hup1, Hrun1.
  rewrite upsert_absent in Hup1 by exact Hnone. injection Hup1 as <-.
  set (line := mk_cart_item cartId productId 2 (prod_price_cents p)) in *.
  set (s1 := reprice productId newPrice (after first)).
  assert (Hitems1 : cart_items s1 = cart_items s ++ [line]).
  { subst s1 first. rewrite Hrun1. reflexivity. }
  assert (Hactive1 : active_cart s1 = Some cartId).
  { subst s1 first. rewrite Hrun1. exact (active_cart_for s). }
  pose proof (cart_for_active s1 cartId Hactive1) as Hfor1.
  assert (Hp1 : find_product productId s1 =
                Some (mk_product (prod_id p) (prod_name p) newPrice (prod_stock p))).
  { subst s1 first. apply find_product_reprice. rewrite Hrun1. simpl.
    unfold find_product, product_rows in *. simpl. rewrite cart_for_products.
    exact Hp. }
  assert (Hq1 : quantity_in cartId productId s1 = 2).
  { unfold quantity_in. rewrite Hitems1, filter_app, Hnone. simpl.
    unfold is_line, line; simpl. rewrite !Z.eqb_refl. reflexivity. }
  (* the second call adds to it *)
  assert (Hact1 : active_cart s1 = None ->
            existsb (fun c => cart_id c =? carts_id_seq s1) (carts s1) = false).
  { intros Hn. rewrite Hactive1 in Hn. discriminate. }
  destruct (cart_add_item_run s1 productId 3 _ Hact1 Hint ltac:(lia) Hp1)
    as (rows2 & Hup2 & Hrun2);
    [exact Hnew | rewrite Hfor1; simpl; lia | rewrite Hfor1; simpl; rewrite Hq1; lia |].
  rewrite Hfor1 in Hup2, Hrun2. simpl fst in Hup2, Hrun2. simpl snd in Hrun2.
  rewrite Hitems1 in Hup2.
  rewrite (upsert_last _ (cart_items s) line) in Hup2;
    [ | exact Hnone | unfold is_line, line; simpl; rewrite !Z.eqb_refl; reflexivity
      | simpl; lia ].
  injection Hup2 as <-.
  exists cartId. subst second. fold s1. rewrite Hrun2. subst first. rewrite Hrun1.
  split; [reflexivity|]. split; [reflexivity|].
  simpl. rewrite filter_app, Hnone. simpl.
  unfold is_line; simpl. rewrite !Z.eqb_refl. reflexivity.
Qed.

Lemma add_item_merges_witness :
  exists cartId,
    result (cart_add_item 1 2 shop) = inr cartId /\
    filter (is_line cartId 1)
      (cart_items (after (cart_add_item 1 3
                            (reprice 1 250 (after (cart_add_item 1 2 shop)))))) =
    [mk_cart_item cartId 1 5 100].
Proof.
  destruct (add_item_merges shop 1 250 (mk_product 1 "P1" 100 10) shop_ok eq_refl)
    as (cartId & H1 & _ & H3).
  - discriminate.
  - intros cartId H. discriminate H.
  - discriminate.
  - exists cartId. split; assumption.
Defined.

(** ** Buying directly *)

Lemma create_order_keeps_carts productId quantity s :
  cart_frame s (after (create_order productId quantity s)).
Proof.
  apply (transaction_keeps (cart_frame s)).
  - intros a b H; exact H.
  - keeps_step; [apply select_product_for_update_keeps|].
    unfold insert_order, insert_order_item, update_stock. keeps_all.
  - split; reflexivity.
Qed.

Lemma cart_blind_ret {A} (a : A) : cart_blind (ret a).
Proof. intros cs cis c. reflexivity. Qed.

Lemma cart_blind_throw {A} e : cart_blind (@throw A e).
Proof. intros cs cis c. reflexivity. Qed.

Lemma cart_blind_lock_row id : cart_blind (lock_row id).
Proof. intros cs cis c. reflexivity. Qed.

Lemma cart_blind_query {A} (f : DB -> A) :
  (forall cs cis d, f (with_carts cs cis d) = f d) -> cart_blind (query f).
Proof. intros Hf cs cis c. unfold query. cbn [db held fst snd]. rewrite Hf. reflexivity. Qed.

Lemma cart_blind_write f :
  (forall cs cis d, f (with_carts cs cis d) = with_carts cs cis (f d)) ->
  cart_blind (write f).
Proof. intros Hf cs cis c. unfold write. cbn [db held fst snd]. rewrite Hf. reflexivity. Qed.

Lemma cart_blind_bind {A B} (m : Tx A) (k : A -> Tx B) :
  cart_blind m -> (forall a, cart_blind (k a)) -> cart_blind (bind m k).
Proof.
  intros Hm Hk cs cis c. unfold bind. rewrite Hm.
  destruct (m c) as [[e|a] c']; cbn [fst snd]; [reflexivity|].
  apply Hk.
Qed.

Lemma cart_blind_integer v : cart_blind (integer v).
Proof.
  intros cs cis c. unfold integer. destruct (int4 v); reflexivity.
Qed.

Ltac blind_step :=
  first [ apply cart_blind_ret | apply cart_blind_throw | apply cart_blind_lock_row
        | apply cart_blind_integer
        | apply cart_blind_query; intros; reflexivity
        | apply cart_blind_write; intros; reflexivity
        | apply cart_blind_bind; [ | intros ? ] ].

Ltac blind_all :=
  repeat first
    [ blind_step
    | progress cbv zeta
    | match goal with
      | |- cart_blind (if ?b then _ else _) => destruct b
      | |- cart_blind (match ?x with _ => _ end) => destruct x
      end ].

Lemma create_order_blind productId quantity :
  cart_blind
    (prod <- select_product_for_update productId ;;
     match prod with
     | [] => throw ProductNotFound
     | p :: _ =>
         if prod_stock p <? quantity then throw OutOfStock
         else
           orderId <- insert_order ;;
           insert_order_item orderId productId quantity (prod_price_cents p) ;;;
           update_stock quantity productId ;;;
           ret orderId
     end).
Proof.
  unfold select_product_for_update, select_stock_for_update, insert_order,
    insert_order_item, update_stock.
  blind_all.
Qed.

(** [create.order] replies the same whatever the carts hold. *)
Lemma create_order_ignores_carts s productId quantity cs cis :
  result (create_order productId quantity (with_carts cs cis s)) =
  result (create_order productId quantity s).
Proof.
  unfold create_order, transaction. cbv zeta.
  pose proof (create_order_blind productId quantity cs cis (mk_conn s [])) as H.
  cbn [db held] in H. rewrite H.
  match goal with |- context [fst ?x] => destruct x as [[e|a] c] end; reflexivity.
Qed.

Lemma stock_after_decrement productId k d pr (d' : DB) :
  find_product productId d = Some pr ->
  products d' = map (decrement k productId) (products d) ->
  stock_of productId d' = prod_stock pr - k.
Proof.
  unfold find_product, stock_of, product_rows. intros Hp ->.
  induction (products d) as [|p0 ps IH]; simpl in *; [discriminate|].
  rewrite decrement_id. unfold decrement at 1.
  destruct (prod_id p0 =? productId) eqn:E; simpl in *.
  - injection Hp as ->. reflexivity.
  - apply IH, Hp.
Qed.

Lemma stock_other_decrement productId other k d (d' : DB) :
  other <> productId ->
  products d' = map (decrement k productId) (products d) ->
  stock_of other d' = stock_of other d.
Proof.
  intros Hne E. unfold stock_of, product_rows. rewrite E. clear E.
  induction (products d) as [|p0 ps IH]; simpl; [reflexivity|].
  rewrite decrement_id. unfold decrement at 1.
  destruct (prod_id p0 =? other) eqn:Eo; simpl.
  - apply Z.eqb_eq in Eo. destruct (Z.eqb_spec (prod_id p0) productId); [lia|].
    reflexivity.
  - exact IH.
Qed.

(** A direct purchase that is covered by stock, in full. *)
Lemma create_order_run s productId quantity p :
  schema_ok s -> 0 < quantity ->
  find_product productId s = Some p -> quantity <= prod_stock p ->
  create_order productId quantity s =
  mk_outcome (inr (orders_id_seq s))
    (mk_DB (map (decrement quantity productId) (products s))
           (carts s) (cart_items s)
           (orders s ++ [mk_order (orders_id_seq s) CUSTOMER])
           (order_items s ++
              [mk_order_item (orders_id_seq s) productId quantity (prod_price_cents p)])
           (carts_id_seq s) (orders_id_seq s + 1))
    [productId].
Proof.
  intros Hs Hq Hp Hle.
  destruct (find_product_rows productId s p Hp) as [rest Hrows].
  destruct (find_product_in productId s p Hp) as [Hin Hid].
  unfold create_order, transaction. cbv zeta.
  unfold bind at 1.
  rewrite (select_product_for_update_run _ _ _ (product_id_integer s productId p Hs Hp)),
    Hrows.
  destruct (Z.ltb_spec (prod_stock p) quantity); [lia|].
  unfold bind at 1. rewrite (insert_order_run _ _ (fresh_order s Hs)).
  unfold bind at 1. rewrite insert_order_item_run;
    [ | exact Hq | exact (price_nonneg s productId p Hs Hp)
      | exact (fresh_order_id s productId Hs) ].
  unfold bind at 1. rewrite update_stock_run.
  - reflexivity.
  - exact (products_pkey s Hs).
  - change (quantity <= stock_of productId s). subst productId.
    rewrite (stock_of_row s p (products_pkey s Hs) Hin). exact Hle.
Qed.

(** C8. [create.order] never changes a cart or a cart line, and replies
    the same whatever carts and cart lines the database holds.  It fails
    and changes nothing when the quantity exceeds the product's stock,
    and it then throws "Out of stock" (the product's id being an INTEGER,
    as the id of a stored product is).  When it succeeds, it has appended
    one order and one order line for the product at the product's current
    price, and the products are as before except that the stock of the
    product bought is lower by the quantity: the stock read for that
    product afterwards is the stock before minus the quantity, and the
    stock read for any other product is as before.  It does succeed for a
    positive quantity within the stock, the new order then having exactly
    that one line. *)
Theorem create_order_spec (s : DB) (productId quantity : Z) :
  let o := create_order productId quantity s in
  (carts (after o) = carts s /\ cart_items (after o) = cart_items s) /\
  (forall cs cis, result (create_order productId quantity (with_carts cs cis s)) = result o) /\
  (forall p, find_product productId s = Some p -> prod_stock p < quantity ->
     (exists e, result o = inl e) /\ after o = s /\
     (INT_MIN <= productId <= INT_MAX -> result o = inl OutOfStock)) /\
  (forall orderId, result o = inr orderId ->
     exists p, find_product productId s = Some p /\ quantity <= prod_stock p /\
       orderId = orders_id_seq s /\
       orders (after o) = orders s ++ [mk_order orderId CUSTOMER] /\
       order_items (after o) =
         order_items s ++ [mk_order_item orderId productId quantity (prod_price_cents p)] /\
       products (after o) =
         map (fun r => if prod_id r =? productId
                       then mk_product (prod_id r) (prod_name r) (prod_price_cents r)
                                       (prod_stock r - quantity)
                       else r) (products s) /\
       stock_of productId (after o) = prod_stock p - quantity /\
       (forall other, other <> productId ->
          stock_of other (after o) = stock_of other s)) /\
  (schema_ok s -> 0 < quantity ->
   forall p, find_product productId s = Some p -> quantity <= prod_stock p ->
     result o = inr (orders_id_seq s) /\
     lines_of_order (orders_id_seq s) (after o) =
       [mk_order_item (orders_id_seq s) productId quantity (prod_price_cents p)] /\
     stock_of productId (after o) = prod_stock p - quantity).
Proof.
  intros o. split; [exact (create_order_keeps_carts productId quantity s)|].
  split; [intros cs cis; apply create_order_ignores_carts|].
  split; [|split].
  - intros p Hp Hlt. remember (create_order productId quantity s) as o' eqn:Eo.
    subst o. destruct (find_product_rows productId s p Hp) as [rest Hrows].
    unfold create_order, transaction in Eo. cbv zeta in Eo.
    unfold bind at 1 in Eo.
    destruct (in_range_dec productId) as [Hi|Hi].
    + rewrite (select_product_for_update_run _ _ _ Hi), Hrows in Eo.
      destruct (Z.ltb_spec (prod_stock p) quantity); [|lia].
      simpl in Eo. rewrite rollback_same in Eo. subst o'.
      split; [eexists; reflexivity|]. split; reflexivity.
    + rewrite (select_product_for_update_rejects _ _ Hi) in Eo.
      simpl in Eo. rewrite rollback_same in Eo. subst o'.
      split; [eexists; reflexivity|]. split; [reflexivity|]. intros Hi'. contradiction.
  - intros orderId. remember (create_order productId quantity s) as o' eqn:Eo.
    subst o. unfold create_order, transaction in Eo. cbv zeta in Eo.
    unfold bind at 1 in Eo.
    destruct (in_range_dec productId) as [Hi|Hi].
    2:{ rewrite (select_product_for_update_rejects productId _ Hi) in Eo.
        subst o'. discriminate. }
    rewrite (select_product_for_update_run _ _ _ Hi) in Eo.
    destruct (find_product productId s) as [p|] eqn:Hp.
    2:{ unfold find_product in Hp.
        destruct (product_rows productId s); [subst o'|]; discriminate. }
    destruct (find_product_rows productId s p Hp) as [rest Hrows].
    rewrite Hrows in Eo.
    destruct (Z.ltb_spec (prod_stock p) quantity); [subst o'; discriminate|].
    unfold bind at 1 in Eo.
    destruct (existsb (fun o => ord_id o =? orders_id_seq s) (orders s)) eqn:Ef.
    { rewrite (insert_order_clash _ _ Ef) in Eo. subst o'. discriminate. }
    rewrite (insert_order_run _ _ Ef) in Eo.
    unfold bind at 1 in Eo. unfold insert_order_item in Eo.
    destruct ((0 <? quantity) && (0 <=? prod_price_cents p)); [|subst o'; discriminate].
    rewrite bind_query_run in Eo. cbn [db held] in Eo.
    destruct (existsb _ _); [subst o'; discriminate|].
    unfold write at 1 in Eo.
    unfold bind at 1 in Eo. unfold update_stock in Eo.
    rewrite bind_query_run in Eo. cbn [db held] in Eo.
    destruct (forallb _ _); [|subst o'; discriminate].
    subst o'. simpl. intros E. injection E as <-.
    exists p. split; [reflexivity|]. split; [assumption|].
    do 4 (split; [reflexivity|]). split.
    + eapply stock_after_decrement; [exact Hp | reflexivity].
    + intros other Hne.
      eapply stock_other_decrement; [exact Hne | reflexivity].
  - intros Hs Hq p Hp Hle. subst o.
    rewrite (create_order_run s productId quantity p Hs Hq Hp Hle). simpl.
    split; [reflexivity|]. split.
    2:{ eapply stock_after_decrement; [exact Hp | reflexivity]. }
    unfold lines_of_order. simpl.
    rewrite filter_app. simpl. rewrite Z.eqb_refl.
    rewrite filter_none; [reflexivity|].
    intros oi Hin.
    pose proof (order_items_order_fkey s Hs) as Hfk. rewrite Forall_forall in Hfk.
    specialize (Hfk oi Hin). apply in_map_iff in Hfk. destruct Hfk as (ord & Ho & Hino).
    pose proof (orders_serial s Hs) as Hser. rewrite Forall_forall in Hser.
    specialize (Hser ord Hino). simpl in Hser.
    destruct (Z.eqb_spec (oi_order_id oi) (orders_id_seq s)); [lia | reflexivity].
Qed.

Lemma create_order_spec_witness :
  result (create_order 2 5 shop_with_cart) = inl OutOfStock /\
  result (create_order 1 3 shop_with_cart) = inr 1 /\
  lines_of_order 1 (after (create_order 1 3 shop_with_cart)) =
    [mk_order_item 1 1 3 100] /\
  stock_of 1 (after (create_order 1 3 shop_with_cart)) = 7 /\
  stock_of 2 (after (create_order 1 3 shop_with_cart)) = 1 /\
  cart_items (after (create_order 1 3 shop_with_cart)) = cart_items shop_with_cart.
Proof.
  destruct (create_order_spec shop_with_cart 2 5) as (_ & _ & Hshort & _ & _).
  destruct (create_order_spec shop_with_cart 1 3) as ((_ & Hframe) & _ & _ & Hdone & Hfit).
  destruct (Hshort (mk_product 2 "P2" 500 1) eq_refl eq_refl) as (_ & _ & H1).
  specialize (H1 ltac:(unfold INT_MIN, INT_MAX; lia)).
  destruct (Hfit shop_with_cart_ok eq_refl (mk_product 1 "P1" 100 10) eq_refl)
    as (H2 & H3 & H4); [discriminate|].
  destruct (Hdone 1 H2) as (p & Hp & _ & _ & _ & _ & _ & _ & Hother).
  split; [exact H1|]. split; [exact H2|]. split; [exact H3|]. split; [exact H4|].
  split; [exact (Hother 2 ltac:(discriminate)) | exact Hframe].
Defined.

(** ** Ensuring the active cart *)

Lemma active_cart_none s : active_cart s = None -> active_carts s = [].
Proof.
  unfold active_cart, active_carts.
  destruct (filter (is_active_cart_of CUSTOMER) (carts s)); [reflexivity | discriminate].
Qed.

(** [cart.ensure] by cases on what its two statements find. *)
Lemma cart_ensure_amid_cases others s :
  cart_ensure_amid others s =
  match active_cart s with
  | Some id => mk_outcome (inr id) (others s) []
  | None =>
      if existsb (fun c => cart_id c =? carts_id_seq (others s)) (carts (others s)) ||
         match active_cart (others s) with Some _ => true | None => false end
      then mk_outcome (inl UniqueViolation)
             (set_carts_id_seq (carts_id_seq (others s) + 1) (others s)) []
      else mk_outcome (inr (carts_id_seq (others s))) (with_new_cart (others s)) []
  end.
Proof.
  unfold cart_ensure_amid, autocommit.
  unfold bind at 1. rewrite select_active_cart_run. cbn [db].
  rewrite bind_write_run. cbn [db held].
  destruct (active_cart s) as [id|]; [reflexivity|].
  rewrite insert_cart_cases. destruct (_ || _); reflexivity.
Qed.

Lemma cart_ensure_alone s : cart_ensure s = cart_ensure_amid (fun d => d) s.
Proof.
  rewrite cart_ensure_amid_cases. unfold cart_ensure, autocommit.
  unfold bind at 1. rewrite select_active_cart_run. cbn [db].
  destruct (active_cart s) as [id|] eqn:Hc; [reflexivity|].
  rewrite insert_cart_cases, Hc. destruct (_ || _); reflexivity.
Qed.

Lemma new_cart_alone s :
  active_cart s = None ->
  active_carts (with_new_cart s) = [mk_cart (carts_id_seq s) CUSTOMER active].
Proof.
  intros Hc. unfold active_carts, with_new_cart. simpl.
  rewrite filter_app. fold (active_carts s). rewrite (active_cart_none s Hc).
  reflexivity.
Qed.

(** Whether an id is the id of a cart, as the primary key sees it. *)
Lemma cart_id_in_use id cs :
  existsb (fun c => cart_id c =? id) cs = true <-> In id (map cart_id cs).
Proof.
  rewrite existsb_exists, in_map_iff. split; intros (c & H1 & H2).
  - exists c. split; [apply Z.eqb_eq, H2 | exact H1].
  - exists c. split; [exact H2 | apply Z.eqb_eq, H1].
Qed.

Lemma cart_id_free id cs :
  ~ In id (map cart_id cs) -> existsb (fun c => cart_id c =? id) cs = false.
Proof.
  intros H. destruct (existsb _ cs) eqn:E; [|reflexivity].
  exfalso. apply H, cart_id_in_use, E.
Qed.

(** C6, as the code has it. [cart.ensure] returns the id of the active
    cart and changes nothing when there is one.  Without one it inserts a
    cart under the id the sequence hands out: when no cart has that id, it
    appends exactly one new active cart and returns its id; when a cart
    has it, the INSERT hits the primary key, the call throws the store's
    error and no table changes.  When another session creates the active
    cart between the SELECT and the INSERT, the INSERT hits the unique
    index: the call throws the store's error instead of re-reading, and no
    table changes.  In every case the customer has at most one active cart
    afterwards.  On a database that satisfies the schema the id the
    sequence hands out is free. *)
Theorem cart_ensure_spec (s : DB) :
  (forall id, active_cart s = Some id -> cart_ensure s = mk_outcome (inr id) s []) /\
  (active_cart s = None -> ~ In (carts_id_seq s) (map cart_id (carts s)) ->
     cart_ensure s = mk_outcome (inr (carts_id_seq s)) (with_new_cart s) [] /\
     carts (with_new_cart s) = carts s ++ [mk_cart (carts_id_seq s) CUSTOMER active] /\
     active_carts (with_new_cart s) = [mk_cart (carts_id_seq s) CUSTOMER active]) /\
  (active_cart s = None -> In (carts_id_seq s) (map cart_id (carts s)) ->
     result (cart_ensure s) = inl UniqueViolation /\
     same_tables (after (cart_ensure s)) s) /\
  (forall others id, active_cart s = None -> active_cart (others s) = Some id ->
     result (cart_ensure_amid others s) = inl UniqueViolation /\
     same_tables (after (cart_ensure_amid others s)) (others s)) /\
  (forall others, (List.length (active_carts (others s)) <= 1)%nat ->
     (List.length (active_carts (after (cart_ensure_amid others s))) <= 1)%nat) /\
  (schema_ok s -> ~ In (carts_id_seq s) (map cart_id (carts s))).
Proof.
  split; [|split; [|split; [|split; [|split]]]].
  6:{ intros Hs. exact (serial_not_in cart_id _ _ (carts_serial s Hs)). }
  - intros id Hc. rewrite cart_ensure_alone, cart_ensure_amid_cases, Hc. reflexivity.
  - intros Hc Hfree. rewrite cart_ensure_alone, cart_ensure_amid_cases. cbv beta.
    rewrite (cart_id_free _ _ Hfree), Hc.
    split; [reflexivity|]. split; [reflexivity | exact (new_cart_alone s Hc)].
  - intros Hc Hused. rewrite cart_ensure_alone, cart_ensure_amid_cases. cbv beta.
    rewrite (proj2 (cart_id_in_use _ _) Hused), Hc. simpl.
    split; [reflexivity|]. unfold same_tables. repeat split.
  - intros others id Hc Ho. rewrite cart_ensure_amid_cases, Hc, Ho, orb_true_r. simpl.
    split; [reflexivity|]. unfold same_tables. repeat split.
  - intros others Hone. rewrite cart_ensure_amid_cases.
    destruct (active_cart s) as [id|]; [exact Hone|].
    destruct (active_cart (others s)) as [id|] eqn:Ho;
      [rewrite orb_true_r; exact Hone|].
    destruct (existsb _ _); [exact Hone|].
    simpl. rewrite (new_cart_alone (others s) Ho). simpl. lia.
Qed.

Lemma cart_ensure_spec_witness :
  cart_ensure shop_with_cart = mk_outcome (inr 1) shop_with_cart [] /\
  result (cart_ensure shop) = inr 1 /\
  result (cart_ensure stale_carts) = inl UniqueViolation /\
  result (cart_ensure_amid (fun d => after (cart_ensure d)) shop) = inl UniqueViolation.
Proof.
  destruct (cart_ensure_spec shop_with_cart) as (Hhave & _).
  destruct (cart_ensure_spec shop) as (_ & Hnew & _ & Hrace & _ & Hfree).
  destruct (cart_ensure_spec stale_carts) as (_ & _ & Hstale & _).
  split; [exact (Hhave 1 eq_refl)|].
  destruct (Hnew eq_refl (Hfree shop_ok)) as (Hrun & _). rewrite Hrun.
  split; [reflexivity|].
  split; [exact (proj1 (Hstale eq_refl ltac:(left; reflexivity)))|].
  exact (proj1 (Hrace (fun d => after (cart_ensure d)) 1 eq_refl eq_refl)).
Defined.

(** C6, as stated, fails: on the shop without carts, let another session
    run [cart.ensure] between this call's SELECT and INSERT.  The active
    cart 1 then exists, and this call throws instead of returning it. *)
Lemma cart_ensure_conflict_throws :
  active_cart shop = None /\
  active_cart (after (cart_ensure shop)) = Some 1 /\
  result (cart_ensure_amid (fun d => after (cart_ensure d)) shop) = inl UniqueViolation /\
  result (cart_ensure_amid (fun d => after (cart_ensure d)) shop) <> inr 1.
Proof. repeat split. discriminate. Qed.

(** ** Removing a line *)

Lemma row_count_positive {A} (f : A -> bool) l :
  (0 <? Z.of_nat (List.length (filter f l))) = existsb f l.
Proof.
  induction l as [|a l IH]; simpl; [reflexivity|].
  destruct (f a); simpl; [|exact IH].
  destruct (Z.ltb_spec 0 (Z.pos (Pos.of_succ_nat (List.length (filter f l))))); [reflexivity|lia].
Qed.

Lemma delete_line_run cartId productId d h :
  INT_MIN <= productId <= INT_MAX ->
  delete_line cartId productId (mk_conn d h) =
  (inr (Z.of_nat (List.length (filter (is_line cartId productId) (cart_items d)))),
   mk_conn (set_cart_items
              (filter (fun ci => negb (is_line cartId productId ci)) (cart_items d)) d) h).
Proof.
  intros H. unfold delete_line, bind at 1. rewrite (integer_run _ _ H). reflexivity.
Qed.

Lemma cart_remove_item_cases productId s :
  INT_MIN <= productId <= INT_MAX ->
  cart_remove_item productId s =
  match active_cart s with
  | None => mk_outcome (inr false) s []
  | Some cartId =>
      mk_outcome (inr (existsb (is_line cartId productId) (cart_items s)))
        (set_cart_items
           (filter (fun ci => negb (is_line cartId productId ci)) (cart_items s)) s)
        []
  end.
Proof.
  intros Hi. unfold cart_remove_item, transaction.
  unfold bind at 1. rewrite select_active_cart_run. cbn [db].
  destruct (active_cart s) as [cartId|]; [|reflexivity].
  unfold bind at 1. rewrite (delete_line_run _ _ _ _ Hi).
  unfold ret. cbv iota beta. cbn [db held].
  rewrite row_count_positive. reflexivity.
Qed.

(** Without an active cart the product id never reaches the store. *)
Lemma cart_remove_item_no_cart productId s :
  active_cart s = None -> cart_remove_item productId s = mk_outcome (inr false) s [].
Proof.
  intros Hc. unfold cart_remove_item, transaction.
  unfold bind at 1. rewrite select_active_cart_run. cbn [db]. rewrite Hc. reflexivity.
Qed.

(** With one, the store rejects a product id that is no INTEGER. *)
Lemma cart_remove_item_rejected productId s cartId :
  ~ INT_MIN <= productId <= INT_MAX -> active_cart s = Some cartId ->
  cart_remove_item productId s = mk_outcome (inl (rejection productId)) s [].
Proof.
  intros Hi Hc. unfold cart_remove_item, transaction.
  unfold bind at 1. rewrite select_active_cart_run. cbn [db]. rewrite Hc.
  unfold bind at 1. unfold delete_line, bind at 1.
  rewrite (integer_rejects productId _ Hi). cbn [db held].
  rewrite rollback_same. reflexivity.
Qed.

Lemma filter_all {A} (f : A -> bool) l :
  existsb f l = false -> filter (fun x => negb (f x)) l = l.
Proof.
  induction l as [|a l IH]; simpl; [reflexivity|].
  destruct (f a); simpl; [discriminate|]. intros H. rewrite (IH H). reflexivity.
Qed.

Lemma filter_out {A} (f : A -> bool) l :
  existsb f (filter (fun x => negb (f x)) l) = false.
Proof.
  induction l as [|a l IH]; simpl; [reflexivity|].
  destruct (f a) eqn:E; simpl; [exact IH|]. rewrite E, IH. reflexivity.
Qed.

(** C10, as the code has it. [cart.remove_item] touches nothing but cart
    lines.  Without an active cart it replies removed = false and changes
    nothing.  With one and a product id within the store's INTEGER range,
    it deletes the whole line of the product whatever its quantity,
    replies whether there was one, and changes nothing when there was
    none; a second identical call replies removed = false.  With an
    active cart and a product id beyond that range the store rejects the
    DELETE: the call throws the store's error ("out of range" up to
    10^21, "invalid input syntax" from there on) and changes nothing. *)
Theorem remove_item_spec (s : DB) (productId : Z) :
  let o := cart_remove_item productId s in
  (products (after o) = products s /\ carts (after o) = carts s /\
   orders (after o) = orders s /\ order_items (after o) = order_items s) /\
  (active_cart s = None -> result o = inr false /\ after o = s) /\
  (INT_MIN <= productId <= INT_MAX ->
   (forall cartId, active_cart s = Some cartId ->
      result o = inr (existsb (is_line cartId productId) (cart_items s)) /\
      cart_items (after o) =
        filter (fun ci => negb (is_line cartId productId ci)) (cart_items s) /\
      (existsb (is_line cartId productId) (cart_items s) = false -> after o = s)) /\
   result (cart_remove_item productId (after o)) = inr false) /\
  (~ INT_MIN <= productId <= INT_MAX ->
   forall cartId, active_cart s = Some cartId ->
     (Z.abs productId < 10 ^ 21 -> result o = inl IntegerOutOfRange) /\
     (10 ^ 21 <= Z.abs productId -> result o = inl InvalidTextRepresentation) /\
     after o = s).
Proof.
  intros o. subst o. split; [|split; [|split]].
  - destruct (active_cart s) as [cartId|] eqn:Hc.
    + destruct (in_range_dec productId) as [Hi|Hi].
      * rewrite (cart_remove_item_cases productId s Hi), Hc. repeat split.
      * rewrite (cart_remove_item_rejected productId s cartId Hi Hc). repeat split.
    + rewrite (cart_remove_item_no_cart productId s Hc). repeat split.
  - intros Hc. rewrite (cart_remove_item_no_cart productId s Hc). split; reflexivity.
  - intros Hi. rewrite (cart_remove_item_cases productId s Hi). split.
    + intros cartId Hc. rewrite Hc. simpl.
      split; [reflexivity|]. split; [reflexivity|].
      intros Habsent. rewrite (filter_all _ _ Habsent). destruct s; reflexivity.
    + rewrite (cart_remove_item_cases productId _ Hi).
      destruct (active_cart s) as [cartId|] eqn:Hc; simpl.
      * change (active_cart (set_cart_items
                  (filter (fun ci => negb (is_line cartId productId ci)) (cart_items s)) s))
          with (active_cart s).
        rewrite Hc. simpl. rewrite filter_out. reflexivity.
      * rewrite Hc. reflexivity.
  - intros Hi cartId Hc.
    rewrite (cart_remove_item_rejected productId s cartId Hi Hc). simpl.
    split; [intros H; rewrite (rejection_digits _ H); reflexivity|].
    split; [intros H; rewrite (rejection_exponent _ H); reflexivity | reflexivity].
Qed.

Lemma remove_item_spec_witness :
  result (cart_remove_item 2 shop_with_cart) = inr true /\
  cart_items (after (cart_remove_item 2 shop_with_cart)) = [mk_cart_item 1 1 2 100] /\
  result (cart_remove_item 2 shop) = inr false /\
  after (cart_remove_item 2 shop) = shop /\
  after (cart_remove_item 2147483648 shop_with_cart) = shop_with_cart.
Proof.
  destruct (remove_item_spec shop_with_cart 2) as (_ & _ & Hcart & _).
  destruct (remove_item_spec shop 2) as (_ & Hnone & _).
  destruct (remove_item_spec shop_with_cart 2147483648) as (_ & _ & _ & Hbig).
  destruct Hcart as [Hcart _]; [unfold INT_MIN, INT_MAX; lia|].
  destruct (Hcart 1 eq_refl) as (H1 & H2 & _).
  destruct (Hnone eq_refl) as (H3 & H4).
  destruct (Hbig ltac:(unfold INT_MIN, INT_MAX; lia) 1 eq_refl) as (_ & _ & H5).
  split; [exact H1|]. split; [exact H2|]. split; [exact H3|].
  split; [exact H4 | exact H5].
Defined.

(** C10, as stated, fails: the input schema of the tool accepts any
    positive whole number as product id.  With the id 2147483648, one
    beyond INTEGER, and an active cart, the cart has no such line, yet the
    DELETE is rejected by the store and the call throws instead of
    replying removed = false. *)
Lemma remove_item_rejects_large_id :
  active_cart shop_with_cart = Some 1 /\
  existsb (is_line 1 2147483648) (cart_items shop_with_cart) = false /\
  result (cart_remove_item 2147483648 shop_with_cart) = inl IntegerOutOfRange /\
  result (cart_remove_item 2147483648 shop_with_cart) <> inr false.
Proof. repeat split. discriminate. Qed.

(** ** Viewing the cart *)

Lemma cart_view_cases s :
  cart_view_tool s =
  mk_outcome
    (match active_cart s with
     | None => inr (mk_cart_view None [] 0)
     | Some cartId =>
         match project_all (joined cartId s) with
         | Some vs =>
             inr (mk_cart_view (Some cartId) (order_by_name vs)
                               (total_of (order_by_name vs)))
         | None => inl IntegerOutOfRange
         end
     end) s [].
Proof.
  unfold cart_view_tool, autocommit.
  unfold bind at 1. rewrite select_active_cart_run. cbn [db].
  destruct (active_cart s) as [cartId|]; [|reflexivity].
  unfold select_view. unfold bind at 1. rewrite bind_query_run. cbn [db].
  destruct (project_all (joined cartId s)); reflexivity.
Qed.

Lemma project_all_in_range rs :
  Forall (fun r => INT_MIN <= ci_quantity (fst r) * ci_price_cents (fst r) <= INT_MAX) rs ->
  project_all rs = Some (map row_of rs).
Proof.
  induction rs as [|[ci p] rest IH]; intros H; simpl; [reflexivity|].
  inversion H as [|? ? Hr Hrest]; subst. simpl in Hr.
  rewrite (int4_in_range _ Hr), (IH Hrest). reflexivity.
Qed.

Lemma insert_by_name_perm v vs : Permutation (insert_by_name v vs) (v :: vs).
Proof.
  induction vs as [|w rest IH]; simpl; [reflexivity|].
  destruct (String.leb (vr_name v) (vr_name w)); [reflexivity|].
  rewrite IH. apply perm_swap.
Qed.

Lemma order_by_name_perm vs : Permutation (order_by_name vs) vs.
Proof.
  induction vs as [|v rest IH]; simpl; [reflexivity|].
  rewrite insert_by_name_perm. apply perm_skip, IH.
Qed.

Lemma total_of_sum items :
  total_of items = fold_right Z.add 0 (map vr_line_total items).
Proof.
  unfold total_of.
  assert (H : forall a, fold_left (fun s r => s + vr_line_total r) items a =
                        a + fold_right Z.add 0 (map vr_line_total items)).
  { induction items as [|v rest IH]; intros a; simpl; [lia|]. rewrite IH. lia. }
  rewrite H. lia.
Qed.

Lemma product_rows_single productId d :
  NoDup (map prod_id (products d)) -> In productId (map prod_id (products d)) ->
  exists p, product_rows productId d = [p].
Proof.
  unfold product_rows. induction (products d) as [|p0 ps IH]; simpl; [tauto|].
  intros Hnd Hin. inversion Hnd as [|? ? Hnotin Hnd']; subst.
  destruct (Z.eqb_spec (prod_id p0) productId) as [E|E].
  - exists p0. f_equal. apply filter_none. intros q Hq.
    destruct (Z.eqb_spec (prod_id q) productId) as [E'|]; [|reflexivity].
    exfalso. apply Hnotin. rewrite E, <- E'. apply in_map, Hq.
  - destruct Hin as [Hin|Hin]; [contradiction|]. apply IH; assumption.
Qed.

Lemma joined_lines s cartId :
  schema_ok s -> map fst (joined cartId s) = lines_of cartId s.
Proof.
  intros Hs. unfold joined. fold (lines_of cartId s).
  assert (H : Forall (fun ci => In (ci_product_id ci) (map prod_id (products s)))
                     (lines_of cartId s)).
  { pose proof (cart_items_product_fkey s Hs) as Hfk.
    rewrite Forall_forall in Hfk |- *. intros ci Hin.
    apply filter_In in Hin. apply Hfk, Hin. }
  induction (lines_of cartId s) as [|ci rest IH]; simpl; [reflexivity|].
  inversion H as [|? ? Hci Hrest]; subst.
  destruct (product_rows_single (ci_product_id ci) s (products_pkey s Hs) Hci) as [p ->].
  simpl. rewrite (IH Hrest). reflexivity.
Qed.

Lemma joined_in_range s cartId :
  Forall (fun ci => INT_MIN <= ci_quantity ci * ci_price_cents ci <= INT_MAX)
         (lines_of cartId s) ->
  Forall (fun r => INT_MIN <= ci_quantity (fst r) * ci_price_cents (fst r) <= INT_MAX)
         (joined cartId s).
Proof.
  intros H. rewrite Forall_forall in H |- *. intros [ci p] Hin.
  unfold joined in Hin. apply in_flat_map in Hin. destruct Hin as (ci' & Hci & Hp).
  apply in_map_iff in Hp. destruct Hp as (p' & E & _). injection E as <- <-.
  simpl. apply H, Hci.
Qed.

Lemma lines_rebuilt s cartId :
  map (fun ci => mk_cart_item cartId (ci_product_id ci) (ci_quantity ci) (ci_price_cents ci))
      (lines_of cartId s) = lines_of cartId s.
Proof.
  unfold lines_of. induction (cart_items s) as [|ci rest IH]; simpl; [reflexivity|].
  destruct (Z.eqb_spec (ci_cart_id ci) cartId) as [E|E]; [|exact IH].
  simpl. rewrite IH, <- E. destruct ci; reflexivity.
Qed.

(** C9, as the code has it. [cart.view] changes nothing.  Without an
    active cart it replies with no cart, no items and total 0.  With one,
    and every line's quantity times unit price within the store's INTEGER
    range, it replies with one row per cart line, carrying the line's
    quantity and snapshot price and line_total = quantity * price, and with
    the total of the line totals. *)
Theorem cart_view_spec (s : DB) :
  after (cart_view_tool s) = s /\
  (active_cart s = None ->
     result (cart_view_tool s) = inr (mk_cart_view None [] 0)) /\
  (forall cartId, active_cart s = Some cartId ->
     Forall (fun ci => INT_MIN <= ci_quantity ci * ci_price_cents ci <= INT_MAX)
            (lines_of cartId s) ->
     exists items,
       result (cart_view_tool s) =
         inr (mk_cart_view (Some cartId) items
                (fold_right Z.add 0 (map vr_line_total items))) /\
       Forall (fun v => vr_line_total v = vr_quantity v * vr_price_cents v) items /\
       (schema_ok s ->
        Permutation (map (line_of_row cartId) items) (lines_of cartId s))).
Proof.
  rewrite cart_view_cases. simpl. split; [reflexivity|]. split.
  - intros ->. reflexivity.
  - intros cartId -> Hrange.
    rewrite (project_all_in_range _ (joined_in_range s cartId Hrange)).
    exists (order_by_name (map row_of (joined cartId s))).
    split; [rewrite total_of_sum; reflexivity|]. split.
    + apply (Permutation_Forall (Permutation_sym (order_by_name_perm _))).
      apply Forall_forall. intros v Hin. apply in_map_iff in Hin.
      destruct Hin as (r & <- & _). reflexivity.
    + intros Hs. rewrite (order_by_name_perm (map row_of (joined cartId s))).
      rewrite map_map. unfold line_of_row, row_of; simpl.
      rewrite <- (lines_rebuilt s cartId).
      rewrite <- (joined_lines s cartId Hs), map_map. reflexivity.
Qed.

Lemma bulk_cart_ok : schema_ok bulk_cart.
Proof. concrete_schema. Qed.

Lemma cart_view_spec_witness :
  exists items,
    result (cart_view_tool shop_with_cart) =
      inr (mk_cart_view (Some 1) items (fold_right Z.add 0 (map vr_line_total items))) /\
    Permutation (map (line_of_row 1) items) (lines_of 1 shop_with_cart).
Proof.
  destruct (cart_view_spec shop_with_cart) as (_ & _ & H).
  destruct (H 1 eq_refl) as (items & Hr & _ & Hperm).
  - repeat constructor; simpl; discriminate.
  - exists items. split; [exact Hr | exact (Hperm shop_with_cart_ok)].
Defined.

(** C9, as stated, fails: fifty thousand units at 50000 cents each go into
    the cart through [cart.add_item], and the line total the view's query
    then computes does not fit an INTEGER; [cart.view] throws. *)
Lemma cart_view_overflows :
  after (cart_add_item 1 50000 bulk_shop) = bulk_cart /\
  active_cart bulk_cart = Some 1 /\
  result (cart_view_tool bulk_cart) = inl IntegerOutOfRange.
Proof. repeat split. Qed.

(** ** The schema is an invariant of the engine *)

Ltac schema_fields Hs :=
  destruct Hs as [Hppk Hfloor Hprice Hcser Hone Hcipk Hcichk Hcifk Hcipfk Hoser Hoifk
                  Hpint Hcpk Hopk Hoipk Hoichk Hoipfk];
  constructor; cbn; try assumption.

Lemma NoDup_snoc {A} (l : list A) (x : A) : NoDup l -> ~ In x l -> NoDup (l ++ [x]).
Proof.
  intros Hl Hx. apply (Permutation_NoDup (l := x :: l)).
  - apply Permutation_cons_append.
  - constructor; assumption.
Qed.

Lemma schema_rollback s d :
  schema_ok s -> carts_id_seq s <= carts_id_seq d -> orders_id_seq s <= orders_id_seq d ->
  schema_ok (rollback s d).
Proof.
  intros Hs Hc Ho. schema_fields Hs.
  - eapply Forall_impl; [|exact Hcser]. simpl. intros c Hlt. lia.
  - eapply Forall_impl; [|exact Hoser]. simpl. intros o Hlt. lia.
Qed.

Lemma schema_carts_seq d n :
  schema_ok d -> carts_id_seq d <= n -> schema_ok (set_carts_id_seq n d).
Proof.
  intros Hs Hn. schema_fields Hs.
  eapply Forall_impl; [|exact Hcser]. simpl. intros c Hlt. lia.
Qed.

Lemma schema_new_cart d :
  schema_ok d -> active_cart d = None -> schema_ok (with_new_cart d).
Proof.
  intros Hs Hc. pose proof (new_cart_alone d Hc) as Hnew.
  schema_fields Hs.
  - apply Forall_app. split.
    + eapply Forall_impl; [|exact Hcser]. simpl. intros c Hlt. lia.
    + constructor; [simpl; lia | constructor].
  - intros customer. rewrite filter_app, length_app. cbn [filter].
    unfold is_active_cart_of at 2. cbn [cart_customer_id cart_status_of status_eqb].
    rewrite andb_true_r.
    destruct (Z.eqb_spec CUSTOMER customer) as [<-|Hne]; cbn [List.length].
    + fold (active_carts d). rewrite (active_cart_none d Hc). simpl. lia.
    + specialize (Hone customer). lia.
  - eapply Forall_impl; [|exact Hcifk]. simpl. intros ci Hin.
    rewrite map_app. apply in_or_app. left. exact Hin.
  - rewrite map_app. apply NoDup_snoc; [exact Hcpk|].
    exact (serial_not_in cart_id _ _ Hcser).
Qed.

Lemma upsert_keys new rows rows' :
  upsert new rows = Some rows' ->
  (filter (is_line (ci_cart_id new) (ci_product_id new)) rows = [] /\ rows' = rows ++ [new]) \/
  (map (fun ci => (ci_cart_id ci, ci_product_id ci)) rows' =
   map (fun ci => (ci_cart_id ci, ci_product_id ci)) rows /\
   forall P : cart_item -> Prop,
     (forall r, In r rows -> P r ->
        0 < ci_quantity r + ci_quantity new ->
        P (mk_cart_item (ci_cart_id r) (ci_product_id r)
             (ci_quantity r + ci_quantity new) (ci_price_cents r))) ->
     Forall P rows -> Forall P rows').
Proof.
  revert rows'. induction rows as [|r rest IH]; simpl; intros rows' H.
  - injection H as <-. left. split; reflexivity.
  - destruct (is_line (ci_cart_id new) (ci_product_id new) r) eqn:Er.
    + destruct (Z.ltb_spec 0 (ci_quantity r + ci_quantity new)); [|discriminate].
      injection H as <-. right. split; [reflexivity|].
      intros P HP Hall. inversion Hall; subst. constructor; [|assumption].
      apply HP; [left; reflexivity | assumption | assumption].
    + destruct (upsert new rest) as [rest'|] eqn:Eu; [|discriminate].
      injection H as <-.
      destruct (IH rest' eq_refl) as [[Hnone ->]|[Hkeys Hall]].
      * left. split; [exact Hnone | reflexivity].
      * right. split; [simpl; rewrite Hkeys; reflexivity|].
        intros P HP HF. inversion HF; subst. constructor; [assumption|].
        apply Hall; [|assumption]. intros r0 Hin. apply HP. right. exact Hin.
Qed.

Lemma key_absent cartId productId rows :
  filter (is_line cartId productId) rows = [] ->
  ~ In (cartId, productId) (map (fun ci => (ci_cart_id ci, ci_product_id ci)) rows).
Proof.
  induction rows as [|r rest IH]; simpl; intros H; [tauto|].
  apply filter_nil_inv in H. destruct H as [Hr Hrest].
  intros [E|Hin]; [|exact (IH Hrest Hin)].
  injection E as E1 E2. unfold is_line in Hr. rewrite E1, E2, !Z.eqb_refl in Hr.
  discriminate.
Qed.

Lemma schema_upsert d cartId productId qty price rows' :
  schema_ok d ->
  In cartId (map cart_id (carts d)) -> In productId (map prod_id (products d)) ->
  0 < qty -> 0 <= price ->
  upsert (mk_cart_item cartId productId qty price) (cart_items d) = Some rows' ->
  schema_ok (set_cart_items rows' d).
Proof.
  intros Hs Hc Hp Hq Hpr Hup. apply upsert_keys in Hup. simpl in Hup.
  schema_fields Hs; destruct Hup as [[Hnone ->]|[Hkeys Hall]].
  - rewrite map_app. simpl.
    apply (Permutation_NoDup (l := (cartId, productId) ::
             map (fun ci => (ci_cart_id ci, ci_product_id ci)) (cart_items d))).
    + apply Permutation_cons_append.
    + constructor; [exact (key_absent _ _ _ Hnone) | exact Hcipk].
  - rewrite Hkeys. exact Hcipk.
  - apply Forall_app. split; [exact Hcichk|]. constructor; [simpl; lia | constructor].
  - apply Hall; [|exact Hcichk]. simpl. intros r _ [_ Hr] Hpos. lia.
  - apply Forall_app. split; [exact Hcifk|]. constructor; [exact Hc | constructor].
  - apply Hall; [|exact Hcifk]. simpl. intros r _ Hr _. exact Hr.
  - apply Forall_app. split; [exact Hcipfk|]. constructor; [exact Hp | constructor].
  - apply Hall; [|exact Hcipfk]. simpl. intros r _ Hr _. exact Hr.
Qed.

Lemma schema_new_order d :
  schema_ok d ->
  schema_ok (set_orders (orders d ++ [mk_order (orders_id_seq d) CUSTOMER])
               (set_orders_id_seq (orders_id_seq d + 1) d)).
Proof.
  intros Hs. schema_fields Hs.
  - apply Forall_app. split.
    + eapply Forall_impl; [|exact Hoser]. simpl. intros o Hlt. lia.
    + constructor; [simpl; lia | constructor].
  - eapply Forall_impl; [|exact Hoifk]. simpl. intros oi Hin.
    rewrite map_app. apply in_or_app. left. exact Hin.
  - rewrite map_app. apply NoDup_snoc; [exact Hopk|].
    exact (serial_not_in ord_id _ _ Hoser).
Qed.

Lemma order_key_absent orderId productId rows :
  existsb (is_order_line orderId productId) rows = false ->
  ~ In (orderId, productId) (map (fun oi => (oi_order_id oi, oi_product_id oi)) rows).
Proof.
  intros H Hin. apply in_map_iff in Hin. destruct Hin as (oi & E & Hoi).
  injection E as E1 E2.
  assert (Ht : existsb (is_order_line orderId productId) rows = true).
  { apply existsb_exists. exists oi. split; [exact Hoi|].
    unfold is_order_line. rewrite E1, E2, !Z.eqb_refl. reflexivity. }
  rewrite H in Ht. discriminate.
Qed.

(** An order line that passes the checks, the key and the references. *)
Lemma schema_order_item d orderId productId qty price :
  schema_ok d ->
  In orderId (map ord_id (orders d)) -> In productId (map prod_id (products d)) ->
  0 < qty -> 0 <= price ->
  existsb (is_order_line orderId productId) (order_items d) = false ->
  schema_ok (set_order_items
               (order_items d ++ [mk_order_item orderId productId qty price]) d).
Proof.
  intros Hs Ho Hp Hq Hpr Hkey. schema_fields Hs.
  - apply Forall_app. split; [exact Hoifk|]. constructor; [exact Ho | constructor].
  - rewrite map_app. apply NoDup_snoc; [exact Hoipk|].
    exact (order_key_absent _ _ _ Hkey).
  - apply Forall_app. split; [exact Hoichk|]. constructor; [simpl; lia | constructor].
  - apply Forall_app. split; [exact Hoipfk|]. constructor; [exact Hp | constructor].
Qed.

Lemma decrement_prices qty productId ps :
  Forall (fun p => 0 <= prod_price_cents p) ps ->
  Forall (fun p => 0 <= prod_price_cents p) (map (decrement qty productId) ps).
Proof.
  intros H. rewrite Forall_forall in H |- *. intros p' Hin.
  apply in_map_iff in Hin. destruct Hin as (p & <- & Hin).
  unfold decrement. destruct (prod_id p =? productId); simpl; exact (H p Hin).
Qed.

Lemma schema_checked_out d cartId :
  schema_ok d -> schema_ok (set_carts (map (check_out cartId) (carts d)) d).
Proof.
  intros Hs.
  assert (Hids : map cart_id (map (check_out cartId) (carts d)) = map cart_id (carts d)).
  { rewrite map_map. apply map_ext. intros c. unfold check_out.
    destruct (cart_id c =? cartId); reflexivity. }
  schema_fields Hs.
  - rewrite Forall_forall in Hcser |- *. intros c' Hin.
    apply in_map_iff in Hin. destruct Hin as (c & <- & Hin).
    unfold check_out. destruct (cart_id c =? cartId); simpl; exact (Hcser c Hin).
  - intros customer.
    eapply Nat.le_trans; [|exact (Hone customer)]. clear.
    induction (carts d) as [|c cs IH]; simpl; [lia|].
    unfold check_out at 1. destruct (cart_id c =? cartId).
    + unfold is_active_cart_of at 1. simpl. rewrite andb_false_r.
      destruct (is_active_cart_of customer c); simpl; lia.
    + destruct (is_active_cart_of customer c); simpl; lia.
  - rewrite Hids. exact Hcifk.
  - rewrite Hids. exact Hcpk.
Qed.

Lemma NoDup_map_filter {A B} (g : A -> B) (f : A -> bool) l :
  NoDup (map g l) -> NoDup (map g (filter f l)).
Proof.
  induction l as [|a l IH]; simpl; intros H; [constructor|].
  inversion H as [|? ? Hnotin Hnd]; subst.
  destruct (f a); simpl; [|auto]. constructor; [|auto].
  intros Hin. apply Hnotin. apply in_map_iff in Hin.
  destruct Hin as (x & E & Hx). apply filter_In in Hx.
  apply in_map_iff. exists x. split; [exact E | apply Hx].
Qed.

Lemma Forall_filter {A} (P : A -> Prop) (f : A -> bool) l :
  Forall P l -> Forall P (filter f l).
Proof.
  intros H. rewrite Forall_forall in H |- *. intros x Hx.
  apply filter_In in Hx. apply H, Hx.
Qed.

Lemma schema_delete d (f : cart_item -> bool) :
  schema_ok d -> schema_ok (set_cart_items (filter f (cart_items d)) d).
Proof.
  intros Hs. schema_fields Hs.
  - apply NoDup_map_filter, Hcipk.
  - apply Forall_filter, Hcichk.
  - apply Forall_filter, Hcifk.
  - apply Forall_filter, Hcipfk.
Qed.

Lemma transaction_schema {A} (body : Tx A) s :
  schema_ok s -> keeps (grown s) body -> schema_ok (after (transaction body s)).
Proof.
  intros Hs Hb. unfold transaction.
  assert (H0 : grown s s) by (split; [exact Hs | split; [lia | split; [lia | reflexivity]]]).
  specialize (Hb (mk_conn s []) H0).
  destruct (body (mk_conn s [])) as [[e|a] c]; simpl in *;
    destruct Hb as (Hd & Hc & Ho & _).
  - apply schema_rollback; assumption.
  - exact Hd.
Qed.

(** A continuation may use what a query found in the state it ran in. *)
Lemma keeps_bind_query {A B} (P : DB -> Prop) (f : DB -> A) (k : A -> Tx B) :
  (forall d, P d -> keeps P (k (f d))) -> keeps P (bind (query f) k).
Proof. intros H c Hc. unfold bind, query. exact (H (db c) Hc c Hc). Qed.

Lemma product_row_in productId d :
  product_rows productId d <> [] -> In productId (map prod_id (products d)).
Proof.
  destruct (product_rows productId d) as [|p rest] eqn:E; [congruence|]. intros _.
  assert (Hin : In p (product_rows productId d)) by (rewrite E; left; reflexivity).
  apply filter_In in Hin. destruct Hin as [Hin Hid]. apply Z.eqb_eq in Hid.
  rewrite <- Hid. apply in_map, Hin.
Qed.

(** What follows [create.order]'s SELECT may rely on the product being
    there when a row came back. *)
Lemma select_product_for_update_then_keeps {B} s productId (k : list product -> Tx B) :
  (forall rows, (rows <> [] -> In productId (map prod_id (products s))) ->
     keeps (grown s) (k rows)) ->
  keeps (grown s) (bind (select_product_for_update productId) k).
Proof.
  intros Hk [d h] Hg. unfold bind.
  destruct (in_range_dec productId) as [Hi|Hi].
  - rewrite (select_product_for_update_run _ _ _ Hi). apply Hk; [|exact Hg].
    intros Hne. destruct Hg as (_ & _ & _ & <-). exact (product_row_in _ _ Hne).
  - rewrite (select_product_for_update_rejects productId _ Hi). exact Hg.
Qed.

Lemma decrement_integer qty productId ps :
  Forall (fun p => INT_MIN <= prod_id p <= INT_MAX) ps ->
  Forall (fun p => INT_MIN <= prod_id p <= INT_MAX) (map (decrement qty productId) ps).
Proof.
  intros H. rewrite Forall_forall in H |- *. intros p' Hin.
  apply in_map_iff in Hin. destruct Hin as (p & <- & Hin).
  rewrite decrement_id. exact (H p Hin).
Qed.

Lemma update_stock_keeps_grown s qty productId :
  keeps (grown s) (update_stock qty productId).
Proof.
  intros c H.
  pose proof (update_stock_keeps_floor qty productId c) as Hfl.
  unfold update_stock, bind, query, write, throw in *.
  destruct (forallb _ _); simpl in *; [|exact H].
  destruct H as (Hs & Hc & Ho & Hp).
  split; [|split; [exact Hc | split; [exact Ho | cbn; rewrite decrement_ids; exact Hp]]].
  specialize (Hfl (products_stock_check _ Hs)).
  schema_fields Hs.
  - rewrite decrement_ids. exact Hppk.
  - apply decrement_prices, Hprice.
  - rewrite decrement_ids. exact Hcipfk.
  - apply decrement_integer, Hpint.
  - rewrite decrement_ids. exact Hoipfk.
Qed.

Lemma insert_order_item_keeps_ordering s orderId productId qty price :
  In productId (map prod_id (products s)) ->
  keeps (ordering s orderId) (insert_order_item orderId productId qty price).
Proof.
  intros Hprod. unfold insert_order_item.
  destruct (Z.ltb_spec 0 qty) as [Hq|Hq]; [|keeps_step].
  destruct (Z.leb_spec 0 price) as [Hpr|Hpr]; [|keeps_step]. cbn [andb].
  intros c Hd. unfold bind, query, write, throw.
  destruct (existsb _ (order_items (db c))) eqn:Hkey; [exact Hd|]. cbn [snd db].
  destruct Hd as ((Hs & Hc & Ho & Hp) & Hin).
  split; [split; [|split; [exact Hc | split; [exact Ho | exact Hp]]]|exact Hin].
  apply schema_order_item; try assumption. rewrite Hp. exact Hprod.
Qed.

Lemma update_stock_keeps_ordering s orderId qty productId :
  keeps (ordering s orderId) (update_stock qty productId).
Proof.
  intros c [Hg Hin]. split.
  - apply update_stock_keeps_grown, Hg.
  - unfold update_stock, bind, query, write, throw.
    destruct (forallb _ _); simpl; exact Hin.
Qed.

Lemma place_lines_keeps_ordering s orderId items :
  Forall (fun it => In (ci_product_id it) (map prod_id (products s))) items ->
  keeps (ordering s orderId) (place_lines orderId items).
Proof.
  induction 1 as [|it rest Hit _ IH]; simpl; [keeps_step|].
  keeps_step; [apply insert_order_item_keeps_ordering, Hit|].
  keeps_step; [apply update_stock_keeps_ordering | exact IH].
Qed.

Lemma insert_order_then_keeps {B} s (k : Z -> Tx B) :
  (forall orderId, keeps (ordering s orderId) (k orderId)) ->
  keeps (grown s) (bind insert_order k).
Proof.
  intros Hk [d h] (Hs & Hc & Ho & Hp). unfold bind.
  rewrite (insert_order_run _ _ (fresh_order d Hs)).
  apply (Hk (orders_id_seq d)). cbn [db] in *. split; [split; [|split; [|split]]|].
  - apply schema_new_order, Hs.
  - exact Hc.
  - simpl. lia.
  - exact Hp.
  - simpl. rewrite map_app. apply in_or_app. right. left. reflexivity.
Qed.

Lemma create_order_schema productId quantity s :
  schema_ok s -> schema_ok (after (create_order productId quantity s)).
Proof.
  intros Hs. apply transaction_schema; [exact Hs|]. cbv zeta.
  apply select_product_for_update_then_keeps. intros rows Hfound.
  destruct rows as [|p rest]; [keeps_step|]. split_if; [keeps_step|].
  assert (Hprod : In productId (map prod_id (products s)))
    by (apply Hfound; discriminate).
  apply insert_order_then_keeps. intros orderId.
  keeps_step; [apply insert_order_item_keeps_ordering, Hprod|].
  keeps_step; [apply update_stock_keeps_ordering | keeps_step].
Qed.

(** The lines of a cart refer to products, which stay the same products
    throughout a transaction. *)
Lemma lines_refer_to_products s d cartId :
  grown s d ->
  Forall (fun it => In (ci_product_id it) (map prod_id (products s)))
         (filter (fun ci => ci_cart_id ci =? cartId) (cart_items d)).
Proof.
  intros (Hd & _ & _ & Hp). apply Forall_filter. rewrite <- Hp.
  exact (cart_items_product_fkey d Hd).
Qed.

Lemma cart_checkout_schema s :
  schema_ok s -> schema_ok (after (cart_checkout s)).
Proof.
  intros Hs. apply transaction_schema; [exact Hs|].
  keeps_step; [keeps_step|].
  destruct a as [|cartId ?]; [keeps_step|].
  unfold select_cart_items. apply keeps_bind_query. intros d Hd.
  pose proof (lines_refer_to_products s d cartId Hd) as Hlines.
  destruct (filter _ (cart_items d)) as [|it rest] eqn:E; [keeps_step|].
  keeps_step; [apply lock_and_check_keeps|].
  apply insert_order_then_keeps. intros orderId.
  keeps_step; [apply place_lines_keeps_ordering, Hlines|].
  keeps_step; [|keeps_step].
  apply keeps_write. intros d' ((Hd' & Hc & Ho & Hp) & Hin).
  split; [split; [|split; [exact Hc | split; [exact Ho | exact Hp]]]|exact Hin].
  apply schema_checked_out, Hd'.
Qed.

Lemma cart_for_grown s :
  schema_ok s ->
  grown s (snd (cart_for s)) /\
  In (fst (cart_for s)) (map cart_id (carts (snd (cart_for s)))).
Proof.
  intros Hs. pose proof (active_cart_for s) as Hact.
  split.
  - unfold cart_for. destruct (active_cart s) eqn:Hc; simpl.
    + split; [exact Hs | split; [lia | split; [lia | reflexivity]]].
    + split; [exact (schema_new_cart s Hs Hc) | simpl; split; [lia | split; [lia | reflexivity]]].
  - unfold active_cart in Hact.
    destruct (filter (is_active_cart_of CUSTOMER) (carts (snd (cart_for s))))
      as [|c cs] eqn:E; [discriminate|].
    simpl in Hact. injection Hact as <-. apply in_map.
    assert (Hin : In c (filter (is_active_cart_of CUSTOMER) (carts (snd (cart_for s)))))
      by (rewrite E; left; reflexivity).
    apply filter_In in Hin. apply Hin.
Qed.

Lemma cart_add_item_schema productId quantity s :
  schema_ok s -> schema_ok (after (cart_add_item productId quantity s)).
Proof.
  intros Hs. destruct (cart_for_grown s Hs) as ((Hd & Hc & Ho & _) & Hcart).
  unfold cart_add_item, transaction. rewrite (cart_for_run _ _ _ (fresh_cart_if s Hs)).
  unfold bind at 1.
  destruct (in_range_dec productId) as [Hi|Hi].
  2:{ rewrite (select_product_rejects productId _ Hi). simpl.
      apply schema_rollback; assumption. }
  rewrite (select_product_run _ _ Hi). cbn [db].
  destruct (product_rows productId (snd (cart_for s))) as [|p rest] eqn:Hrows.
  { simpl. apply schema_rollback; assumption. }
  assert (Hp : In productId (map prod_id (products (snd (cart_for s))))).
  { apply product_row_in. rewrite Hrows. discriminate. }
  unfold select_line_quantity. rewrite bind_query_run. cbn [db]. cbv zeta.
  match goal with |- context [?a <? ?b] => destruct (a <? b) end.
  { simpl. apply schema_rollback; assumption. }
  unfold upsert_cart_item.
  destruct (Z.ltb_spec 0 quantity) as [Hq|Hq]; simpl andb; cbv iota;
    [|simpl; apply schema_rollback; assumption].
  destruct (Z.leb_spec 0 (prod_price_cents p)) as [Hpr|Hpr]; cbv iota;
    [|simpl; apply schema_rollback; assumption].
  unfold bind at 1. rewrite bind_query_run. cbn [db].
  destruct (upsert _ _) as [rows'|] eqn:Hup;
    [|simpl; apply schema_rollback; assumption].
  simpl. exact (schema_upsert _ _ _ _ _ rows' Hd Hcart Hp Hq Hpr Hup).
Qed.

Lemma cart_ensure_schema s : schema_ok s -> schema_ok (after (cart_ensure s)).
Proof.
  intros Hs. rewrite cart_ensure_alone, cart_ensure_amid_cases.
  cbv beta. destruct (active_cart s) eqn:Hc; simpl; [exact Hs|].
  rewrite (fresh_cart s Hs). simpl.
  exact (schema_new_cart s Hs Hc).
Qed.

Lemma cart_remove_item_schema productId s :
  schema_ok s -> schema_ok (after (cart_remove_item productId s)).
Proof.
  intros Hs. destruct (in_range_dec productId) as [Hi|Hi].
  - rewrite (cart_remove_item_cases _ _ Hi).
    destruct (active_cart s); simpl; [apply schema_delete, Hs | exact Hs].
  - destruct (active_cart s) as [cartId|] eqn:Hc.
    + rewrite (cart_remove_item_rejected productId s cartId Hi Hc). exact Hs.
    + rewrite (cart_remove_item_no_cart _ _ Hc). exact Hs.
Qed.

(** Every tool of the engine takes a database that satisfies the schema
    to one that does. *)
Theorem schema_invariant (r : request) (s : DB) :
  schema_ok s -> schema_ok (serve r s).
Proof.
  intros Hs. destruct r; simpl.
  - apply create_order_schema, Hs.
  - apply cart_ensure_schema, Hs.
  - apply cart_add_item_schema, Hs.
  - rewrite cart_view_cases. exact Hs.
  - apply cart_checkout_schema, Hs.
  - apply cart_remove_item_schema, Hs.
Qed.

(** ** The references to customers *)

Lemma autocommit_keeps {A} (P : DB -> Prop) (body : Tx A) s :
  keeps P body -> P s -> P (after (autocommit body s)).
Proof.
  intros Hb Hs. unfold autocommit. specialize (Hb (mk_conn s []) Hs).
  destruct (body (mk_conn s [])) as [r c]. exact Hb.
Qed.

Section Customers.

Variable customers : list Z.
Hypothesis customer_exists : In CUSTOMER customers.

Lemma customers_rollback a b :
  customers_fkeys customers a -> customers_fkeys customers (rollback a b).
Proof. intros H; exact H. Qed.

Lemma insert_cart_keeps_customers : keeps (customers_fkeys customers) insert_cart.
Proof.
  unfold insert_cart. keeps_all.
  apply keeps_write. intros d [Hc Ho]. split; [|exact Ho]. cbn.
  apply Forall_app. split; [exact Hc|]. constructor; [exact customer_exists | constructor].
Qed.

Lemma insert_order_keeps_customers : keeps (customers_fkeys customers) insert_order.
Proof.
  unfold insert_order. keeps_all.
  apply keeps_write. intros d [Hc Ho]. split; [exact Hc|]. cbn.
  apply Forall_app. split; [exact Ho|]. constructor; [exact customer_exists | constructor].
Qed.

Lemma checked_out_keeps_customers cartId :
  keeps (customers_fkeys customers) (update_cart_checked_out cartId).
Proof.
  apply keeps_write. intros d [Hc Ho]. split; [|exact Ho]. cbn.
  rewrite Forall_forall in Hc |- *. intros c' Hin.
  apply in_map_iff in Hin. destruct Hin as (c & <- & Hin).
  unfold check_out. destruct (cart_id c =? cartId); simpl; exact (Hc c Hin).
Qed.

Lemma place_lines_keeps_customers orderId items :
  keeps (customers_fkeys customers) (place_lines orderId items).
Proof.
  induction items as [|it rest IH]; simpl; [keeps_step|].
  keeps_step; [unfold insert_order_item; keeps_all|].
  keeps_step; [unfold update_stock; keeps_all | exact IH].
Qed.

(** No tool stores a cart or an order for a customer that does not
    exist. *)
Lemma serve_keeps_customers r s :
  customers_fkeys customers s -> customers_fkeys customers (serve r s).
Proof.
  intros Hs. destruct r; cbn [serve].
  - apply (transaction_keeps (customers_fkeys customers)); [exact customers_rollback | | exact Hs]. cbv zeta.
    keeps_step; [apply select_product_for_update_keeps|].
    destruct a; [keeps_step|]. split_if; [keeps_step|].
    keeps_step; [apply insert_order_keeps_customers|].
    unfold insert_order_item, update_stock. keeps_all.
  - apply (autocommit_keeps (customers_fkeys customers)); [|exact Hs].
    keeps_step; [keeps_step|].
    destruct a; [apply insert_cart_keeps_customers | keeps_step].
  - apply (transaction_keeps (customers_fkeys customers)); [exact customers_rollback | | exact Hs].
    keeps_step; [keeps_step|].
    keeps_step; [destruct a; [apply insert_cart_keeps_customers | keeps_step]|].
    keeps_step; [apply select_product_keeps|].
    unfold select_line_quantity, upsert_cart_item. keeps_all.
  - rewrite cart_view_cases. exact Hs.
  - apply (transaction_keeps (customers_fkeys customers)); [exact customers_rollback | | exact Hs].
    keeps_step; [keeps_step|].
    destruct a; [keeps_step|].
    keeps_step; [keeps_step|].
    destruct a0 as [|it rest] eqn:E; [keeps_step|]. rewrite <- E. clear E.
    keeps_step; [apply lock_and_check_keeps|].
    keeps_step; [apply insert_order_keeps_customers|].
    keeps_step; [apply place_lines_keeps_customers|].
    keeps_step; [apply checked_out_keeps_customers | keeps_step].
  - apply (transaction_keeps (customers_fkeys customers)); [exact customers_rollback | | exact Hs].
    keeps_step; [keeps_step|].
    destruct a; [keeps_step|]. unfold delete_line. keeps_all.
Qed.

End Customers.

(** ** The catalog *)

Lemma decrement_names qty productId ps :
  map prod_name (map (decrement qty productId) ps) = map prod_name ps.
Proof.
  rewrite map_map. apply map_ext. intros p. unfold decrement.
  destruct (prod_id p =? productId); reflexivity.
Qed.

Lemma update_stock_keeps_names s qty productId :
  keeps (same_names s) (update_stock qty productId).
Proof.
  unfold update_stock. keeps_all.
  apply keeps_write. intros d H. unfold same_names in *. cbn.
  rewrite decrement_names. exact H.
Qed.

Lemma place_lines_keeps_names s orderId items :
  keeps (same_names s) (place_lines orderId items).
Proof.
  induction items as [|it rest IH]; simpl; [keeps_step|].
  keeps_step; [unfold insert_order_item; keeps_all|].
  keeps_step; [apply update_stock_keeps_names | exact IH].
Qed.

(** No tool renames a product, adds one or drops one. *)
Lemma serve_keeps_names r s : same_names s (serve r s).
Proof.
  assert (Hs : same_names s s) by reflexivity.
  assert (Hroll : forall a b, same_names s a -> same_names s (rollback a b))
    by (intros a b H; exact H).
  destruct r; cbn [serve].
  - apply (transaction_keeps (same_names s)); [exact Hroll | | exact Hs]. cbv zeta.
    keeps_step; [apply select_product_for_update_keeps|].
    destruct a; [keeps_step|]. split_if; [keeps_step|].
    keeps_step; [unfold insert_order; keeps_all|].
    keeps_step; [unfold insert_order_item; keeps_all|].
    keeps_step; [apply update_stock_keeps_names | keeps_step].
  - apply (autocommit_keeps (same_names s)); [|exact Hs].
    unfold insert_cart. keeps_all.
  - apply (transaction_keeps (same_names s)); [exact Hroll | | exact Hs].
    unfold insert_cart, select_product, select_line_quantity, upsert_cart_item.
    keeps_all.
  - rewrite cart_view_cases. exact Hs.
  - apply (transaction_keeps (same_names s)); [exact Hroll | | exact Hs].
    keeps_step; [keeps_step|].
    destruct a; [keeps_step|].
    keeps_step; [keeps_step|].
    destruct a0 as [|it rest] eqn:E; [keeps_step|]. rewrite <- E. clear E.
    keeps_step; [apply lock_and_check_keeps|].
    keeps_step; [unfold insert_order; keeps_all|].
    keeps_step; [apply place_lines_keeps_names|].
    keeps_step; [apply keeps_write; intros ? ?; assumption | keeps_step].
  - apply (transaction_keeps (same_names s)); [exact Hroll | | exact Hs].
    unfold delete_line. keeps_all.
Qed.

(** X1. Any sequence of calls to the six cart and order tools takes a
    database that satisfies the constraints of db/init.sql to one that
    does: the primary keys of the five tables, their CHECKs, the unique
    index on active carts, the foreign keys between them (all in
    [schema_ok]) and, for a table of customers that holds customer 1, the
    foreign keys to it.  The sequences stay ahead of the ids in use.  The
    product names, on which db/init.sql puts its one further index (unique
    up to case), stay as they are, row by row. *)
Corollary schema_invariant_run (customers : list Z) (rs : list request) (s : DB) :
  In CUSTOMER customers ->
  schema_ok s -> customers_fkeys customers s ->
  let s' := fold_left (fun d r => serve r d) rs s in
  schema_ok s' /\ customers_fkeys customers s' /\
  map prod_name (products s') = map prod_name (products s).
Proof.
  intros Hk. revert s. induction rs as [|r rs IH]; intros s Hs Hc; simpl; [auto|].
  destruct (IH (serve r s)) as (H1 & H2 & H3);
    [apply schema_invariant, Hs | apply serve_keeps_customers; assumption|].
  split; [exact H1|]. split; [exact H2|].
  cbv zeta in H3. rewrite H3. exact (serve_keeps_names r s).
Qed.

(** * Further properties of the tools *)

(** ** Outcomes by cases *)

Lemma schema_invariant_run_witness :
  schema_ok shop /\
  schema_ok (fold_left (fun d r => serve r d)
               [CartEnsure; CartAddItem 1 2; CartView; CartRemoveItem 1;
                CartAddItem 2 1; CartCheckout; CreateOrder 1 3] shop) /\
  customers_fkeys [1]
    (fold_left (fun d r => serve r d)
       [CartEnsure; CartAddItem 1 2; CartView; CartRemoveItem 1;
        CartAddItem 2 1; CartCheckout; CreateOrder 1 3] shop).
Proof.
  split; [exact shop_ok|].
  destruct (schema_invariant_run [1]
              [CartEnsure; CartAddItem 1 2; CartView; CartRemoveItem 1;
               CartAddItem 2 1; CartCheckout; CreateOrder 1 3] shop) as (H1 & H2 & _).
  - left. reflexivity.
  - exact shop_ok.
  - split; constructor.
  - split; [exact H1 | exact H2].
Defined.

(** The four ways a checkout can end. *)
Lemma cart_checkout_outcome s :
  schema_ok s ->
  (active_cart s = None /\ cart_checkout s = mk_outcome (inl NoActiveCart) s []) \/
  (exists cartId, active_cart s = Some cartId /\ lines_of cartId s = [] /\
     cart_checkout s = mk_outcome (inl CartIsEmpty) s []) \/
  (exists cartId h, active_cart s = Some cartId /\
     Exists (fun it => stock_of (ci_product_id it) s < ci_quantity it) (lines_of cartId s) /\
     cart_checkout s = mk_outcome (inl OutOfStock) s h) \/
  (exists cartId, active_cart s = Some cartId /\ lines_of cartId s <> [] /\
     Forall (fun it => ci_quantity it <= stock_of (ci_product_id it) s) (lines_of cartId s) /\
     cart_checkout s =
     mk_outcome (inr (orders_id_seq s))
       (mk_DB (map (consume (lines_of cartId s)) (products s))
              (map (check_out cartId) (carts s))
              (cart_items s)
              (orders s ++ [mk_order (orders_id_seq s) CUSTOMER])
              (order_items s ++ map (order_line_of (orders_id_seq s)) (lines_of cartId s))
              (carts_id_seq s)
              (orders_id_seq s + 1))
       (map ci_product_id (lines_of cartId s))).
Proof.
  intros Hs. destruct (active_cart s) as [cartId|] eqn:Hc.
  2:{ left. split; [reflexivity|].
      unfold cart_checkout, transaction.
      unfold bind at 1. rewrite select_active_cart_run. cbn [db]. rewrite Hc.
      simpl. rewrite rollback_same. reflexivity. }
  right. destruct (lines_of cartId s) as [|l0 ls] eqn:El.
  { left. exists cartId. split; [reflexivity|]. split; [exact El|].
    unfold cart_checkout, transaction.
    unfold bind at 1. rewrite select_active_cart_run. cbn [db]. rewrite Hc.
    unfold bind at 1. unfold select_cart_items, query. cbn [db].
    fold (lines_of cartId s). rewrite El. simpl. rewrite rollback_same.
    reflexivity. }
  right.
  assert (Hne : lines_of cartId s <> []) by (rewrite El; discriminate).
  clear El.
  destruct (Forall_Exists_dec
              (fun it => ci_quantity it <= stock_of (ci_product_id it) s)
              (fun it => Z_le_dec (ci_quantity it) (stock_of (ci_product_id it) s))
              (lines_of cartId s)) as [Hall|Hex].
  - right. exists cartId. split; [reflexivity|]. split; [exact Hne|].
    split; [exact Hall|]. exact (cart_checkout_run s cartId Hs Hc Hne Hall).
  - left.
    assert (Hshort : Exists (fun it => stock_of (ci_product_id it) s < ci_quantity it)
                            (lines_of cartId s)).
    { eapply Exists_impl; [|exact Hex]. simpl. intros it H. lia. }
    destruct (lock_and_check_short (lines_of cartId s) s [] Hshort) as [h Hrun].
    exists cartId, h. split; [reflexivity|]. split; [exact Hshort|].
    rewrite (cart_checkout_unfold s cartId Hc Hne).
    unfold transaction, bind at 1. rewrite Hrun. simpl.
    rewrite rollback_same. reflexivity.
Qed.

(** X7. On a database that satisfies the schema, [cart.checkout] can only
    throw "No active cart", "Cart is empty" or "Out of stock" (the store
    never rejects one of its statements), and the database, sequences
    included, is then exactly as before. *)
Theorem checkout_errors (s : DB) (e : error) :
  schema_ok s ->
  result (cart_checkout s) = inl e ->
  (e = NoActiveCart \/ e = CartIsEmpty \/ e = OutOfStock) /\
  after (cart_checkout s) = s.
Proof.
  intros Hs He.
  destruct (cart_checkout_outcome s Hs)
    as [[_ E]|[(c & _ & _ & E)|[(c & h & _ & _ & E)|(c & _ & _ & _ & E)]]];
    rewrite E in *; simpl in *.
  - injection He as <-. auto.
  - injection He as <-. auto.
  - injection He as <-. auto.
  - discriminate.
Qed.

Lemma checkout_errors_witness :
  schema_ok short_cart /\
  result (cart_checkout short_cart) = inl OutOfStock /\
  after (cart_checkout short_cart) = short_cart.
Proof.
  split; [exact short_cart_ok|]. split; [reflexivity|].
  exact (proj2 (checkout_errors short_cart OutOfStock short_cart_ok eq_refl)).
Defined.

(** ** After a checkout *)

Lemma checked_out_none s cartId :
  schema_ok s -> active_cart s = Some cartId ->
  filter (is_active_cart_of CUSTOMER) (map (check_out cartId) (carts s)) = [].
Proof.
  intros Hs Hc. pose proof (ux_carts_active_per_customer s Hs CUSTOMER) as Hone.
  unfold active_cart, active_carts in *.
  apply filter_none. intros y' Hin. apply in_map_iff in Hin.
  destruct Hin as (y & <- & Hy).
  unfold check_out. destruct (Z.eqb_spec (cart_id y) cartId) as [E|E].
  - unfold is_active_cart_of. simpl. apply andb_false_r.
  - destruct (is_active_cart_of CUSTOMER y) eqn:Ey; [|reflexivity].
    exfalso. apply E.
    assert (Hyf : In y (filter (is_active_cart_of CUSTOMER) (carts s)))
      by (apply filter_In; split; assumption).
    destruct (filter (is_active_cart_of CUSTOMER) (carts s)) as [|x [|x' rest]];
      simpl in *; [contradiction | | lia].
    injection Hc as Hx. destruct Hyf as [->|[]]. exact Hx.
Qed.

(** X3. After a successful checkout the customer has no active cart: a
    second [cart.checkout] throws "No active cart" and changes nothing, and
    [cart.view] replies with no cart, no items and total 0. *)
Theorem checkout_once (s : DB) (orderId : Z) :
  schema_ok s ->
  result (cart_checkout s) = inr orderId ->
  let s' := after (cart_checkout s) in
  active_cart s' = None /\
  cart_checkout s' = mk_outcome (inl NoActiveCart) s' [] /\
  result (cart_view_tool s') = inr (mk_cart_view None [] 0).
Proof.
  intros Hs Hr s'.
  assert (Hnone : active_cart s' = None).
  { subst s'.
    destruct (cart_checkout_outcome s Hs)
      as [[_ E]|[(c & _ & _ & E)|[(c & h & _ & _ & E)|(c & Hc & _ & _ & E)]]];
      rewrite E in *; simpl in Hr; try discriminate.
    unfold active_cart. simpl. rewrite (checked_out_none s c Hs Hc). reflexivity. }
  split; [exact Hnone|]. split.
  - assert (Hs' : schema_ok s') by (apply cart_checkout_schema, Hs).
    destruct (cart_checkout_outcome s' Hs')
      as [[_ E]|[(c & Hc & _)|[(c & h & Hc & _)|(c & Hc & _)]]];
      [exact E | congruence | congruence | congruence].
  - rewrite cart_view_cases. simpl. rewrite Hnone. reflexivity.
Qed.

Lemma checkout_once_witness :
  schema_ok shop_with_cart /\
  result (cart_checkout (after (cart_checkout shop_with_cart))) = inl NoActiveCart.
Proof.
  split; [exact shop_with_cart_ok|].
  destruct (checkout_once shop_with_cart 1 shop_with_cart_ok eq_refl) as (_ & E & _).
  rewrite E. reflexivity.
Defined.

Lemma sum_perm l l' :
  Permutation l l' -> fold_right Z.add 0 l = fold_right Z.add 0 l'.
Proof. induction 1; simpl; lia. Qed.

Lemma new_order_lines s cartId :
  schema_ok s ->
  lines_of_order (orders_id_seq s)
    (mk_DB (map (consume (lines_of cartId s)) (products s))
           (map (check_out cartId) (carts s))
           (cart_items s)
           (orders s ++ [mk_order (orders_id_seq s) CUSTOMER])
           (order_items s ++ map (order_line_of (orders_id_seq s)) (lines_of cartId s))
           (carts_id_seq s)
           (orders_id_seq s + 1)) =
  map (order_line_of (orders_id_seq s)) (lines_of cartId s).
Proof.
  intros Hs. unfold lines_of_order. simpl. rewrite filter_app.
  rewrite filter_none.
  - simpl. induction (lines_of cartId s) as [|it rest IH]; simpl; [reflexivity|].
    rewrite Z.eqb_refl, IH. reflexivity.
  - intros oi Hin.
    pose proof (order_items_order_fkey s Hs) as Hfk. rewrite Forall_forall in Hfk.
    specialize (Hfk oi Hin). apply in_map_iff in Hfk. destruct Hfk as (o & Ho & Hino).
    pose proof (orders_serial s Hs) as Hser. rewrite Forall_forall in Hser.
    specialize (Hser o Hino). simpl in Hser.
    destruct (Z.eqb_spec (oi_order_id oi) (orders_id_seq s)); [lia | reflexivity].
Qed.

(** X5. A successful checkout charges what the cart showed: the amount of
    the new order's lines (quantity times price, summed) equals the
    total_cents that [cart.view] replied with on the database before the
    checkout, whenever the line totals fit an INTEGER. *)
Theorem order_amount_is_cart_total (s : DB) (orderId : Z) :
  schema_ok s ->
  result (cart_checkout s) = inr orderId ->
  (forall cartId, active_cart s = Some cartId ->
     Forall (fun ci => INT_MIN <= ci_quantity ci * ci_price_cents ci <= INT_MAX)
            (lines_of cartId s)) ->
  exists v,
    result (cart_view_tool s) = inr v /\
    amount_of (lines_of_order orderId (after (cart_checkout s))) = cv_total_cents v.
Proof.
  intros Hs Hr Hrange.
  destruct (cart_checkout_outcome s Hs)
    as [[_ E]|[(c & _ & _ & E)|[(c & h & _ & _ & E)|(c & Hc & _ & _ & E)]]];
    rewrite E in *; simpl in Hr; try discriminate.
  injection Hr as <-. simpl after.
  rewrite (new_order_lines s c Hs).
  rewrite cart_view_cases. simpl result. rewrite Hc.
  rewrite (project_all_in_range _ (joined_in_range s c (Hrange c Hc))).
  eexists. split; [reflexivity|]. simpl cv_total_cents.
  rewrite total_of_sum.
  rewrite (sum_perm _ _ (Permutation_map vr_line_total
                           (order_by_name_perm (map row_of (joined c s))))).
  unfold amount_of. rewrite !map_map. simpl.
  rewrite <- (joined_lines s c Hs), map_map. reflexivity.
Qed.

Lemma order_amount_is_cart_total_witness :
  exists v,
    result (cart_view_tool shop_with_cart) = inr v /\
    amount_of (lines_of_order 1 (after (cart_checkout shop_with_cart))) = cv_total_cents v.
Proof.
  apply (order_amount_is_cart_total shop_with_cart 1 shop_with_cart_ok eq_refl).
  intros cartId H. injection H as <-.
  repeat constructor; simpl; discriminate.
Defined.

Lemma sum_pick (ps : list product) (k a : Z) (g : Z -> Z) :
  NoDup (map prod_id ps) -> In k (map prod_id ps) -> g k = 0 ->
  fold_right Z.add 0 (map (fun p => if k =? prod_id p then a else g (prod_id p)) ps) =
  a + fold_right Z.add 0 (map (fun p => g (prod_id p)) ps).
Proof.
  intros Hnd Hin Hg. induction ps as [|p ps IH]; simpl in *; [tauto|].
  inversion Hnd as [|? ? Hnotin Hnd']; subst.
  destruct (Z.eqb_spec k (prod_id p)) as [E|E].
  - subst k. rewrite Hg.
    assert (Hrest : map (fun q => if prod_id p =? prod_id q then a else g (prod_id q)) ps =
                    map (fun q => g (prod_id q)) ps).
    { apply map_ext_in. intros q Hq.
      destruct (Z.eqb_spec (prod_id p) (prod_id q)) as [E|E]; [|reflexivity].
      exfalso. apply Hnotin. rewrite E. apply in_map, Hq. }
    rewrite Hrest. lia.
  - destruct Hin as [Hin|Hin]; [congruence|].
    rewrite (IH Hnd' Hin). lia.
Qed.

Lemma line_quantity_sum (ps : list product) (items : list cart_item) :
  NoDup (map prod_id ps) -> NoDup (map ci_product_id items) ->
  Forall (fun it => In (ci_product_id it) (map prod_id ps)) items ->
  fold_right Z.add 0 (map (fun p => line_quantity items (prod_id p)) ps) =
  fold_right Z.add 0 (map ci_quantity items).
Proof.
  intros Hps. induction items as [|it rest IH]; intros Hnd Hfk; simpl.
  - clear. induction ps as [|p ps IHp]; simpl; [reflexivity|].
    rewrite IHp. reflexivity.
  - inversion Hnd as [|? ? Hnotin Hnd']; subst.
    inversion Hfk as [|? ? Hin Hfk']; subst.
    rewrite <- (IH Hnd' Hfk').
    rewrite <- (sum_pick ps (ci_product_id it) (ci_quantity it) (line_quantity rest)
                  Hps Hin (line_quantity_absent rest _ Hnotin)).
    f_equal. apply map_ext. intros p. unfold line_quantity. simpl.
    destruct (ci_product_id it =? prod_id p); reflexivity.
Qed.

Lemma consume_sum (ps : list product) (items : list cart_item) :
  fold_right Z.add 0 (map prod_stock (map (consume items) ps)) =
  fold_right Z.add 0 (map prod_stock ps) -
  fold_right Z.add 0 (map (fun p => line_quantity items (prod_id p)) ps).
Proof.
  induction ps as [|p ps IH]; simpl; [reflexivity|]. rewrite IH. lia.
Qed.

(** X6. A successful checkout neither loses nor creates units: the stock
    of all products after it, plus the quantities on the new order's lines,
    is the stock of all products before it. *)
Theorem checkout_conserves_units (s : DB) (orderId : Z) :
  schema_ok s ->
  result (cart_checkout s) = inr orderId ->
  total_stock (after (cart_checkout s)) +
  units_of (lines_of_order orderId (after (cart_checkout s))) = total_stock s.
Proof.
  intros Hs Hr.
  destruct (cart_checkout_outcome s Hs)
    as [[_ E]|[(c & _ & _ & E)|[(c & h & _ & _ & E)|(c & Hc & _ & _ & E)]]];
    rewrite E in *; simpl in Hr; try discriminate.
  injection Hr as <-. simpl after.
  rewrite (new_order_lines s c Hs).
  unfold total_stock, units_of. simpl products.
  rewrite consume_sum, map_map. simpl.
  rewrite (line_quantity_sum (products s) (lines_of c s)
             (products_pkey s Hs) (lines_distinct s c Hs)).
  - change (map (fun x : cart_item => ci_quantity x) (lines_of c s))
      with (map ci_quantity (lines_of c s)). lia.
  - pose proof (cart_items_product_fkey s Hs) as Hfk.
    rewrite Forall_forall in Hfk |- *. intros it Hin.
    apply filter_In in Hin. apply Hfk, Hin.
Qed.

Lemma checkout_conserves_units_witness :
  total_stock (after (cart_checkout shop_with_cart)) +
  units_of (lines_of_order 1 (after (cart_checkout shop_with_cart))) =
  total_stock shop_with_cart.
Proof.
  exact (checkout_conserves_units shop_with_cart 1 shop_with_cart_ok eq_refl).
Defined.

(** ** Buying directly, by cases *)

Lemma create_order_outcome s productId quantity :
  schema_ok s -> 0 < quantity ->
  (~ INT_MIN <= productId <= INT_MAX /\
   create_order productId quantity s = mk_outcome (inl (rejection productId)) s []) \/
  (INT_MIN <= productId <= INT_MAX /\ find_product productId s = None /\
   create_order productId quantity s = mk_outcome (inl ProductNotFound) s []) \/
  (exists p, find_product productId s = Some p /\ prod_stock p < quantity /\
     create_order productId quantity s = mk_outcome (inl OutOfStock) s [productId]) \/
  (exists p, find_product productId s = Some p /\ quantity <= prod_stock p /\
     create_order productId quantity s =
     mk_outcome (inr (orders_id_seq s))
       (mk_DB (map (decrement quantity productId) (products s))
              (carts s) (cart_items s)
              (orders s ++ [mk_order (orders_id_seq s) CUSTOMER])
              (order_items s ++
                 [mk_order_item (orders_id_seq s) productId quantity (prod_price_cents p)])
              (carts_id_seq s) (orders_id_seq s + 1))
       [productId]).
Proof.
  intros Hs Hq. destruct (in_range_dec productId) as [Hi|Hi].
  2:{ left. split; [exact Hi|].
      unfold create_order, transaction. cbv zeta.
      unfold bind at 1. rewrite (select_product_for_update_rejects _ _ Hi).
      simpl. rewrite rollback_same. reflexivity. }
  right. destruct (find_product productId s) as [p|] eqn:Hp.
  - right. destruct (Z.lt_ge_cases (prod_stock p) quantity) as [Hlt|Hge].
    + left. exists p. split; [reflexivity|]. split; [exact Hlt|].
      destruct (find_product_rows productId s p Hp) as [rest Hrows].
      unfold create_order, transaction. cbv zeta.
      unfold bind at 1. rewrite (select_product_for_update_run _ _ _ Hi), Hrows.
      destruct (Z.ltb_spec (prod_stock p) quantity); [|lia].
      simpl. rewrite rollback_same. reflexivity.
    + right. exists p. split; [reflexivity|]. split; [exact Hge|].
      exact (create_order_run s productId quantity p Hs Hq Hp Hge).
  - left. split; [exact Hi|]. split; [reflexivity|].
    unfold find_product in Hp.
    unfold create_order, transaction. cbv zeta.
    unfold bind at 1. rewrite (select_product_for_update_run _ _ _ Hi).
    destruct (product_rows productId s); [|discriminate].
    simpl. rewrite rollback_same. reflexivity.
Qed.

(** X8. On a database that satisfies the schema and for a positive
    quantity, [create.order] can only throw the store's rejection of a
    product id that is no INTEGER ("out of range" up to 10^21, "invalid
    input syntax" from there on), "Product not found" (an INTEGER, and no
    row with that id) or "Out of stock" (the row has fewer units than
    asked for); the store rejects no other statement, and the database is
    then exactly as before. *)
Theorem create_order_errors (s : DB) (productId quantity : Z) (e : error) :
  schema_ok s -> 0 < quantity ->
  result (create_order productId quantity s) = inl e ->
  ((e = IntegerOutOfRange /\ ~ INT_MIN <= productId <= INT_MAX /\
    Z.abs productId < 10 ^ 21) \/
   (e = InvalidTextRepresentation /\ 10 ^ 21 <= Z.abs productId) \/
   (e = ProductNotFound /\ INT_MIN <= productId <= INT_MAX /\
    find_product productId s = None) \/
   (e = OutOfStock /\
    exists p, find_product productId s = Some p /\ prod_stock p < quantity)) /\
  after (create_order productId quantity s) = s.
Proof.
  intros Hs Hq He.
  destruct (create_order_outcome s productId quantity Hs Hq)
    as [[Hi E]|[(Hi & Hp & E)|[(p & Hp & Hlt & E)|(p & Hp & Hle & E)]]].
  - rewrite E in *. cbn [result after] in *. injection He as <-. split; [|reflexivity].
    destruct (Z.lt_ge_cases (Z.abs productId) (10 ^ 21)) as [Hd|Hd].
    + left. rewrite (rejection_digits _ Hd). auto.
    + right. left. rewrite (rejection_exponent _ Hd). auto.
  - rewrite E in *. cbn [result after] in *. injection He as <-.
    split; [|reflexivity]. right. right. left. auto.
  - rewrite E in *. cbn [result after] in *. injection He as <-.
    split; [|reflexivity]. do 3 right. split; [reflexivity|]. exists p. auto.
  - rewrite E in He. discriminate.
Qed.

Lemma create_order_errors_witness :
  after (create_order 7 1 shop) = shop /\ after (create_order 2 5 shop) = shop /\
  after (create_order 2147483648 1 shop) = shop.
Proof.
  split; [|split].
  - exact (proj2 (create_order_errors shop 7 1 ProductNotFound shop_ok eq_refl eq_refl)).
  - exact (proj2 (create_order_errors shop 2 5 OutOfStock shop_ok eq_refl eq_refl)).
  - exact (proj2 (create_order_errors shop 2147483648 1 IntegerOutOfRange
                    shop_ok eq_refl eq_refl)).
Defined.

(** ** Adding to the cart, by cases *)

Lemma cart_add_item_missing s productId quantity :
  schema_ok s -> INT_MIN <= productId <= INT_MAX ->
  find_product productId s = None ->
  cart_add_item productId quantity s =
  mk_outcome (inl ProductNotFound) (rollback s (snd (cart_for s))) [].
Proof.
  intros Hs Hi Hp. unfold find_product in Hp.
  unfold cart_add_item, transaction. rewrite (cart_for_run _ _ _ (fresh_cart_if s Hs)).
  unfold bind at 1. rewrite (select_product_run _ _ Hi). cbn [db].
  unfold product_rows in *. rewrite cart_for_products.
  destruct (filter _ (products s)); [reflexivity | discriminate].
Qed.

Lemma cart_add_item_rejected s productId quantity :
  schema_ok s -> ~ INT_MIN <= productId <= INT_MAX ->
  cart_add_item productId quantity s =
  mk_outcome (inl (rejection productId)) (rollback s (snd (cart_for s))) [].
Proof.
  intros Hs Hi.
  unfold cart_add_item, transaction. rewrite (cart_for_run _ _ _ (fresh_cart_if s Hs)).
  unfold bind at 1. rewrite (select_product_rejects _ _ Hi). reflexivity.
Qed.

(** A successful add was for a product of the catalog. *)
Lemma cart_add_item_found s productId quantity cartId :
  schema_ok s ->
  result (cart_add_item productId quantity s) = inr cartId ->
  INT_MIN <= productId <= INT_MAX /\ exists p, find_product productId s = Some p.
Proof.
  intros Hs Hr. destruct (in_range_dec productId) as [Hi|Hi].
  - split; [exact Hi|]. destruct (find_product productId s) as [p|] eqn:Hp; [eauto|].
    rewrite (cart_add_item_missing s productId quantity Hs Hi Hp) in Hr. discriminate.
  - rewrite (cart_add_item_rejected s productId quantity Hs Hi) in Hr. discriminate.
Qed.

(** X9. On a database that satisfies the schema and for a positive
    quantity, [cart.add_item] can only throw the store's rejection of a
    product id that is no INTEGER ("out of range" up to 10^21, "invalid
    input syntax" from there on), "Product not found" (an INTEGER, and no
    row with that id) or "Not enough stock" (the quantity already in the
    cart plus the one asked for exceeds the stock); the store rejects no
    other statement, and no table has changed. *)
Theorem add_item_errors (s : DB) (productId quantity : Z) (e : error) :
  schema_ok s -> 0 < quantity ->
  result (cart_add_item productId quantity s) = inl e ->
  ((e = IntegerOutOfRange /\ ~ INT_MIN <= productId <= INT_MAX /\
    Z.abs productId < 10 ^ 21) \/
   (e = InvalidTextRepresentation /\ 10 ^ 21 <= Z.abs productId) \/
   (e = ProductNotFound /\ INT_MIN <= productId <= INT_MAX /\
    find_product productId s = None) \/
   (e = NotEnoughStock /\
    exists p, find_product productId s = Some p /\
              prod_stock p < existing_quantity productId s + quantity)) /\
  same_tables (after (cart_add_item productId quantity s)) s.
Proof.
  intros Hs Hq He. destruct (in_range_dec productId) as [Hi|Hi].
  2:{ rewrite (cart_add_item_rejected s productId quantity Hs Hi) in *.
      cbn [result after] in *.
      injection He as <-. split; [|unfold same_tables; repeat split].
      destruct (Z.lt_ge_cases (Z.abs productId) (10 ^ 21)) as [Hd|Hd].
      - left. rewrite (rejection_digits _ Hd). auto.
      - right. left. rewrite (rejection_exponent _ Hd). auto. }
  destruct (find_product productId s) as [p|] eqn:Hp.
  - destruct (Z.lt_ge_cases (prod_stock p) (existing_quantity productId s + quantity))
      as [Hlt|Hge].
    + pose proof Hlt as Hlt'. rewrite <- (quantity_in_existing s productId Hs) in Hlt'.
      destruct (cart_add_item_short s productId quantity p (fresh_cart_if s Hs) Hi Hp Hlt')
        as [Hr Hsame].
      rewrite Hr in He. injection He as <-.
      split; [|exact Hsame]. do 3 right. split; [reflexivity|]. exists p. auto.
    + rewrite <- (quantity_in_existing s productId Hs) in Hge.
      destruct (cart_add_item_run s productId quantity p (fresh_cart_if s Hs) Hi Hq Hp
                  (price_nonneg s productId p Hs Hp)
                  (quantity_in_nonneg s _ productId Hs) Hge) as (rows' & _ & Hrun).
      rewrite Hrun in He. discriminate.
  - rewrite (cart_add_item_missing s productId quantity Hs Hi Hp) in *.
    cbn [result after] in *.
    injection He as <-. split; [right; right; left; auto|].
    unfold same_tables. repeat split.
Qed.

Lemma add_item_errors_witness :
  same_tables (after (cart_add_item 7 1 shop)) shop /\
  same_tables (after (cart_add_item 2 5 shop)) shop /\
  same_tables (after (cart_add_item 2147483648 1 shop)) shop.
Proof.
  split; [|split].
  - exact (proj2 (add_item_errors shop 7 1 ProductNotFound shop_ok eq_refl eq_refl)).
  - exact (proj2 (add_item_errors shop 2 5 NotEnoughStock shop_ok eq_refl eq_refl)).
  - exact (proj2 (add_item_errors shop 2147483648 1 IntegerOutOfRange
                    shop_ok eq_refl eq_refl)).
Defined.

Lemma upsert_quantity new rows rows' :
  upsert new rows = Some rows' ->
  match filter (is_line (ci_cart_id new) (ci_product_id new)) rows' with
  | ci :: _ => ci_quantity ci | [] => 0 end =
  match filter (is_line (ci_cart_id new) (ci_product_id new)) rows with
  | ci :: _ => ci_quantity ci | [] => 0 end + ci_quantity new.
Proof.
  revert rows'. induction rows as [|r rest IH]; simpl; intros rows' H.
  - injection H as <-. simpl. unfold is_line. rewrite !Z.eqb_refl. reflexivity.
  - destruct (is_line (ci_cart_id new) (ci_product_id new) r) eqn:Er.
    + destruct (0 <? ci_quantity r + ci_quantity new); [|discriminate].
      injection H as <-. simpl.
      unfold is_line in *. simpl. rewrite Er. reflexivity.
    + destruct (upsert new rest) as [rest'|]; [|discriminate].
      injection H as <-. simpl. rewrite Er. apply IH. reflexivity.
Qed.

(** X11. When [cart.add_item] succeeds, the line of the product in the
    active cart holds the quantity it held before (0 without a line) plus
    the quantity added, and that is at most the product's stock: no single
    add puts more units into the cart than are in stock. *)
Theorem add_item_within_stock (s : DB) (productId quantity cartId : Z) :
  schema_ok s -> 0 < quantity ->
  result (cart_add_item productId quantity s) = inr cartId ->
  let s' := after (cart_add_item productId quantity s) in
  active_cart s' = Some cartId /\
  quantity_in cartId productId s' = existing_quantity productId s + quantity /\
  quantity_in cartId productId s' <= stock_of productId s'.
Proof.
  intros Hs Hq Hr s'. subst s'.
  destruct (cart_add_item_found s productId quantity cartId Hs Hr) as (Hi & p & Hp).
  destruct (Z.lt_ge_cases (prod_stock p) (existing_quantity productId s + quantity))
    as [Hlt|Hge].
  { rewrite <- (quantity_in_existing s productId Hs) in Hlt.
    destruct (cart_add_item_short s productId quantity p (fresh_cart_if s Hs) Hi Hp Hlt)
      as [Hr' _].
    congruence. }
  pose proof Hge as Hge'. rewrite <- (quantity_in_existing s productId Hs) in Hge'.
  destruct (cart_add_item_run s productId quantity p (fresh_cart_if s Hs) Hi Hq Hp
              (price_nonneg s productId p Hs Hp)
              (quantity_in_nonneg s _ productId Hs) Hge') as (rows' & Hup & Hrun).
  rewrite Hrun in *. simpl in Hr. injection Hr as <-. simpl after.
  split; [exact (active_cart_for s)|].
  assert (Hqty : quantity_in (fst (cart_for s)) productId
                   (set_cart_items rows' (snd (cart_for s))) =
                 existing_quantity productId s + quantity).
  { rewrite <- (quantity_in_existing s productId Hs).
    exact (upsert_quantity _ _ _ Hup). }
  split; [exact Hqty|]. rewrite Hqty.
  destruct (find_product_rows productId s p Hp) as [rest Hrows].
  unfold stock_of, product_rows in *. simpl. rewrite cart_for_products, Hrows.
  exact Hge.
Qed.

Lemma add_item_within_stock_witness :
  quantity_in 1 1 (after (cart_add_item 1 3 shop_with_cart)) = 5 /\
  quantity_in 1 1 (after (cart_add_item 1 3 shop_with_cart)) <=
    stock_of 1 (after (cart_add_item 1 3 shop_with_cart)).
Proof.
  destruct (add_item_within_stock shop_with_cart 1 3 1 shop_with_cart_ok eq_refl eq_refl)
    as (_ & H1 & H2).
  split; [exact H1 | exact H2].
Defined.

Lemma cart_add_item_done s productId quantity cartId :
  schema_ok s -> 0 < quantity ->
  result (cart_add_item productId quantity s) = inr cartId ->
  exists p rows',
    find_product productId s = Some p /\
    existing_quantity productId s + quantity <= prod_stock p /\
    cartId = fst (cart_for s) /\
    upsert (mk_cart_item cartId productId quantity (prod_price_cents p))
           (cart_items s) = Some rows' /\
    cart_add_item productId quantity s =
    mk_outcome (inr cartId) (set_cart_items rows' (snd (cart_for s))) [].
Proof.
  intros Hs Hq Hr.
  destruct (cart_add_item_found s productId quantity cartId Hs Hr) as (Hi & p & Hp).
  destruct (Z.lt_ge_cases (prod_stock p) (existing_quantity productId s + quantity))
    as [Hlt|Hge].
  { rewrite <- (quantity_in_existing s productId Hs) in Hlt.
    destruct (cart_add_item_short s productId quantity p (fresh_cart_if s Hs) Hi Hp Hlt)
      as [Hr' _].
    congruence. }
  pose proof Hge as Hge'. rewrite <- (quantity_in_existing s productId Hs) in Hge'.
  destruct (cart_add_item_run s productId quantity p (fresh_cart_if s Hs) Hi Hq Hp
              (price_nonneg s productId p Hs Hp)
              (quantity_in_nonneg s _ productId Hs) Hge') as (rows' & Hup & Hrun).
  rewrite Hrun in Hr. simpl in Hr. injection Hr as <-.
  exists p, rows'. repeat split; assumption.
Qed.

(** The first two statements of [cart.add_item] in any state: the INSERT
    is rejected, or the handler goes on with its cart. *)
Lemma cart_for_run_any {B} (k : Z -> Tx B) s h :
  bind select_active_cart
       (fun cart => bind (match cart with id :: _ => ret id | [] => insert_cart end) k)
       (mk_conn s h) =
    (inl UniqueViolation, mk_conn (set_carts_id_seq (carts_id_seq s + 1) s) h) \/
  bind select_active_cart
       (fun cart => bind (match cart with id :: _ => ret id | [] => insert_cart end) k)
       (mk_conn s h) =
    k (fst (cart_for s)) (mk_conn (snd (cart_for s)) h).
Proof.
  destruct (active_cart s) as [id|] eqn:Hc.
  - right. apply cart_for_run. intros Hn. rewrite Hc in Hn. discriminate.
  - destruct (existsb (fun c => cart_id c =? carts_id_seq s) (carts s)) eqn:Hf.
    + left. unfold bind at 1. rewrite select_active_cart_run. cbn [db]. rewrite Hc.
      unfold bind at 1. rewrite insert_cart_cases, Hf. reflexivity.
    + right. apply cart_for_run. intros _. exact Hf.
Qed.

(** Whatever [cart.add_item] does, it ends with the tables it found or with
    one upsert on top of its cart. *)
Lemma cart_add_item_after s productId quantity :
  same_tables (after (cart_add_item productId quantity s)) s \/
  exists price rows',
    upsert (mk_cart_item (fst (cart_for s)) productId quantity price) (cart_items s) =
      Some rows' /\
    after (cart_add_item productId quantity s) = set_cart_items rows' (snd (cart_for s)).
Proof.
  assert (Hsame : forall d, same_tables (rollback s d) s)
    by (intros d; unfold same_tables; repeat split).
  remember (cart_add_item productId quantity s) as o eqn:Eo.
  unfold cart_add_item, transaction in Eo.
  match type of Eo with
  | context [bind select_active_cart (fun cart => bind _ ?k)] =>
      destruct (cart_for_run_any k s []) as [E|E]
  end; rewrite E in Eo; clear E; [left; subst o; apply Hsame|].
  unfold bind at 1 in Eo.
  destruct (in_range_dec productId) as [Hi|Hi].
  2:{ rewrite (select_product_rejects _ _ Hi) in Eo. left; subst o; apply Hsame. }
  rewrite (select_product_run _ _ Hi) in Eo. cbn [db] in Eo.
  destruct (product_rows productId (snd (cart_for s))) as [|p rest];
    [left; subst o; apply Hsame|].
  unfold select_line_quantity in Eo. rewrite bind_query_run in Eo.
  cbn [db] in Eo. cbv zeta in Eo.
  match type of Eo with context [?a <? ?b] => destruct (a <? b) end;
    [left; subst o; apply Hsame|].
  unfold upsert_cart_item in Eo.
  destruct ((0 <? quantity) && (0 <=? prod_price_cents p)); cbv iota in Eo;
    [|left; subst o; apply Hsame].
  unfold bind at 1 in Eo. rewrite bind_query_run in Eo. cbn [db] in Eo.
  rewrite cart_for_cart_items in Eo.
  destruct (upsert _ (cart_items s)) as [rows'|] eqn:Hup;
    [|left; subst o; apply Hsame].
  right. exists (prod_price_cents p), rows'. split; [exact Hup | subst o; reflexivity].
Qed.

Lemma upsert_others new rows rows' :
  upsert new rows = Some rows' ->
  filter (fun ci => negb (ci_product_id ci =? ci_product_id new)) rows' =
  filter (fun ci => negb (ci_product_id ci =? ci_product_id new)) rows.
Proof.
  revert rows'. induction rows as [|r rest IH]; simpl; intros rows' H.
  - injection H as <-. simpl. rewrite Z.eqb_refl. reflexivity.
  - destruct (is_line (ci_cart_id new) (ci_product_id new) r) eqn:Er.
    + destruct (0 <? ci_quantity r + ci_quantity new); [|discriminate].
      injection H as <-. simpl.
      unfold is_line in Er. apply andb_prop in Er. destruct Er as [_ Er].
      rewrite Er. reflexivity.
    + destruct (upsert new rest) as [rest'|]; [|discriminate].
      injection H as <-. simpl. rewrite (IH rest' eq_refl). reflexivity.
Qed.

(** X10. [cart.add_item] reserves nothing and disturbs nothing else:
    whatever its arguments and however it ends, products (stock and
    prices), orders and order lines are as before, every cart line of
    another product is as before, and the carts are as before except for
    the one active cart it may have created. *)
Theorem add_item_frame (s : DB) (productId quantity : Z) :
  let s' := after (cart_add_item productId quantity s) in
  products s' = products s /\
  orders s' = orders s /\
  order_items s' = order_items s /\
  filter (fun ci => negb (ci_product_id ci =? productId)) (cart_items s') =
    filter (fun ci => negb (ci_product_id ci =? productId)) (cart_items s) /\
  (carts s' = carts s \/
   (active_cart s = None /\
    carts s' = carts s ++ [mk_cart (carts_id_seq s) CUSTOMER active])).
Proof.
  intros s'. subst s'.
  destruct (cart_add_item_after s productId quantity)
    as [(H1 & H2 & H3 & H4 & H5)|(price & rows' & Hup & E)].
  - rewrite H1, H2, H3, H4, H5. auto 6.
  - rewrite E. simpl. apply upsert_others in Hup. simpl in Hup.
    unfold cart_for. destruct (active_cart s); simpl; auto 8.
Qed.

(** X4. Adding a product the active cart has no line for and removing it
    again gives the cart lines back as they were: the add succeeds, the
    removal replies removed = true, and the cart_items table after both is
    the table before. *)
Theorem add_then_remove (s : DB) (productId quantity : Z) (p : product) :
  schema_ok s -> 0 < quantity ->
  find_product productId s = Some p ->
  quantity <= prod_stock p ->
  (forall cartId, active_cart s = Some cartId ->
     filter (is_line cartId productId) (cart_items s) = []) ->
  let s1 := after (cart_add_item productId quantity s) in
  (exists cartId, result (cart_add_item productId quantity s) = inr cartId) /\
  result (cart_remove_item productId s1) = inr true /\
  cart_items (after (cart_remove_item productId s1)) = cart_items s.
Proof.
  intros Hs Hq Hp Hle Habsent s1.
  set (cartId := fst (cart_for s)).
  assert (Hnone : filter (is_line cartId productId) (cart_items s) = []).
  { subst cartId. unfold cart_for. destruct (active_cart s) as [id|] eqn:Hc; simpl.
    - exact (Habsent id eq_refl).
    - exact (fresh_cart_id s productId Hs). }
  assert (Hq0 : quantity_in cartId productId s = 0).
  { unfold quantity_in. rewrite Hnone. reflexivity. }
  pose proof (product_id_integer s productId p Hs Hp) as Hi.
  destruct (cart_add_item_run s productId quantity p (fresh_cart_if s Hs) Hi Hq Hp
              (price_nonneg s productId p Hs Hp)) as (rows' & Hup & Hrun);
    [fold cartId; lia | fold cartId; lia |].
  fold cartId in Hup, Hrun.
  rewrite upsert_absent in Hup by exact Hnone. injection Hup as <-.
  subst s1. rewrite Hrun. simpl after.
  split; [exists cartId; reflexivity|].
  rewrite (cart_remove_item_cases _ _ Hi).
  change (active_cart (set_cart_items
            (cart_items s ++ [mk_cart_item cartId productId quantity (prod_price_cents p)])
            (snd (cart_for s))))
    with (active_cart (snd (cart_for s))).
  rewrite (active_cart_for s). fold cartId. simpl.
  assert (Hex : existsb (is_line cartId productId) (cart_items s) = false).
  { destruct (existsb (is_line cartId productId) (cart_items s)) eqn:E; [|reflexivity].
    apply existsb_exists in E. destruct E as (ci & Hin & Hci).
    assert (Hf : In ci (filter (is_line cartId productId) (cart_items s)))
      by (apply filter_In; split; assumption).
    rewrite Hnone in Hf. contradiction. }
  assert (Hl : is_line cartId productId
                 (mk_cart_item cartId productId quantity (prod_price_cents p)) = true).
  { unfold is_line. simpl. rewrite !Z.eqb_refl. reflexivity. }
  rewrite existsb_app, filter_app, (filter_all _ _ Hex), Hex. simpl.
  rewrite Hl. simpl. rewrite app_nil_r. split; reflexivity.
Qed.

Lemma add_then_remove_witness :
  result (cart_remove_item 2 (after (cart_add_item 2 1 shop))) = inr true /\
  cart_items (after (cart_remove_item 2 (after (cart_add_item 2 1 shop)))) =
    cart_items shop.
Proof.
  destruct (add_then_remove shop 2 1 (mk_product 2 "P2" 500 1) shop_ok eq_refl eq_refl)
    as (_ & H1 & H2).
  - discriminate.
  - intros cartId H. discriminate H.
  - split; assumption.
Defined.

(** X2. [cart.ensure], with no other session in between, is idempotent:
    whenever it returns a cart id, calling it again returns the same id,
    changes nothing and takes no lock.  On a database that satisfies the
    schema (its carts sequence then being ahead of the ids in use) it
    does return a cart id. *)
Theorem cart_ensure_twice (s : DB) :
  (forall cartId, result (cart_ensure s) = inr cartId ->
     cart_ensure (after (cart_ensure s)) =
     mk_outcome (inr cartId) (after (cart_ensure s)) []) /\
  (schema_ok s -> exists cartId, result (cart_ensure s) = inr cartId).
Proof.
  assert (Hrun : forall d id, active_cart d = Some id ->
                   cart_ensure d = mk_outcome (inr id) d []).
  { intros d id Hd. rewrite cart_ensure_alone, cart_ensure_amid_cases. cbv beta.
    rewrite Hd. reflexivity. }
  assert (Hnew : forall d, active_cart d = None ->
                 existsb (fun c => cart_id c =? carts_id_seq d) (carts d) = false ->
                 cart_ensure d = mk_outcome (inr (carts_id_seq d)) (with_new_cart d) []).
  { intros d Hc Hf. rewrite cart_ensure_alone, cart_ensure_amid_cases. cbv beta.
    rewrite Hc, Hf. reflexivity. }
  split.
  - intros cartId Hr. destruct (active_cart s) as [id|] eqn:Hc.
    + rewrite (Hrun s id Hc) in *. cbn [result after] in *. injection Hr as <-.
      exact (Hrun s id Hc).
    + destruct (existsb (fun c => cart_id c =? carts_id_seq s) (carts s)) eqn:Hf.
      * rewrite cart_ensure_alone, cart_ensure_amid_cases in Hr. cbv beta in Hr.
        rewrite Hc, Hf in Hr. discriminate.
      * rewrite (Hnew s Hc Hf) in *. cbn [result after] in *. injection Hr as <-.
        apply Hrun.
        pose proof (active_cart_for s) as H. unfold cart_for in H. rewrite Hc in H.
        exact H.
  - intros Hs. destruct (active_cart s) as [id|] eqn:Hc.
    + exists id. rewrite (Hrun s id Hc). reflexivity.
    + exists (carts_id_seq s). rewrite (Hnew s Hc (fresh_cart s Hs)). reflexivity.
Qed.

Lemma cart_ensure_twice_witness :
  cart_ensure (after (cart_ensure shop)) =
  mk_outcome (inr 1) (after (cart_ensure shop)) [].
Proof.
  destruct (cart_ensure_twice shop) as [Htwice Hid].
  destruct (Hid shop_ok) as [cartId Hr].
  pose proof (Htwice cartId Hr) as H.
  assert (E : cartId = 1) by (simpl in Hr; injection Hr as <-; reflexivity).
  rewrite E in H. exact H.
Defined.

(** ** A cart line is no reservation *)

(** X12. A cart line reserves no stock.  After [cart.add_item] has put a
    product into the cart, [create.order] can still buy units of it; when
    it leaves fewer than the cart line asks for, the following
    [cart.checkout] throws "Out of stock" and changes nothing. *)
Theorem cart_reserves_nothing (s : DB) (productId quantity bought cartId : Z)
    (p : product) :
  schema_ok s -> 0 < quantity -> 0 < bought ->
  find_product productId s = Some p ->
  result (cart_add_item productId quantity s) = inr cartId ->
  bought <= prod_stock p ->
  prod_stock p - bought < existing_quantity productId s + quantity ->
  let s1 := after (cart_add_item productId quantity s) in
  let s2 := after (create_order productId bought s1) in
  result (create_order productId bought s1) = inr (orders_id_seq s1) /\
  result (cart_checkout s2) = inl OutOfStock /\
  after (cart_checkout s2) = s2.
Proof.
  intros Hs Hq Hb Hp Hr Hble Hshort s1 s2.
  assert (Hs1 : schema_ok s1) by (apply cart_add_item_schema, Hs).
  destruct (cart_add_item_done s productId quantity cartId Hs Hq Hr)
    as (p' & rows' & Hp' & Hle & Hcart & Hup & Hrun).
  rewrite Hp in Hp'. injection Hp' as <-.
  assert (E1 : s1 = set_cart_items rows' (snd (cart_for s)))
    by (subst s1; rewrite Hrun; reflexivity).
  assert (Hp1 : find_product productId s1 = Some p).
  { rewrite E1. unfold find_product, product_rows in *. simpl.
    rewrite cart_for_products. exact Hp. }
  assert (Hact1 : active_cart s1 = Some cartId).
  { rewrite E1, Hcart. exact (active_cart_for s). }
  assert (Hline : exists ci, In ci (lines_of cartId s1) /\ ci_product_id ci = productId /\
                             ci_quantity ci = existing_quantity productId s + quantity).
  { pose proof (upsert_quantity _ _ _ Hup) as Hqty. simpl in Hqty.
    rewrite Hcart in Hqty at 2. fold (quantity_in (fst (cart_for s)) productId s) in Hqty.
    rewrite (quantity_in_existing s productId Hs) in Hqty.
    pose proof (quantity_in_nonneg s (fst (cart_for s)) productId Hs) as Hnn.
    rewrite (quantity_in_existing s productId Hs) in Hnn.
    destruct (filter (is_line cartId productId) rows') as [|ci l] eqn:Ef; [lia|].
    exists ci.
    assert (Hin : In ci (filter (is_line cartId productId) rows'))
      by (rewrite Ef; left; reflexivity).
    apply filter_In in Hin. destruct Hin as [Hin Hci].
    unfold is_line in Hci. apply andb_prop in Hci. destruct Hci as [Hc1 Hc2].
    split; [|split; [apply Z.eqb_eq, Hc2 | exact Hqty]].
    rewrite E1. unfold lines_of. simpl. apply filter_In. split; assumption. }
  pose proof (create_order_run s1 productId bought p Hs1 Hb Hp1 Hble) as Hbuy.
  assert (Hs2 : schema_ok s2) by (apply create_order_schema, Hs1).
  assert (Hprod2 : products s2 = map (decrement bought productId) (products s1))
    by (subst s2; rewrite Hbuy; reflexivity).
  assert (Hcarts2 : carts s2 = carts s1) by (subst s2; rewrite Hbuy; reflexivity).
  assert (Hitems2 : cart_items s2 = cart_items s1) by (subst s2; rewrite Hbuy; reflexivity).
  assert (Hact2 : active_cart s2 = Some cartId).
  { unfold active_cart in *. rewrite Hcarts2. exact Hact1. }
  assert (Hlines2 : lines_of cartId s2 = lines_of cartId s1).
  { unfold lines_of. rewrite Hitems2. reflexivity. }
  split; [rewrite Hbuy; reflexivity|].
  destruct Hline as (ci & Hin & Hpid & Hqty).
  destruct (cart_checkout_outcome s2 Hs2)
    as [[Hn _]|[(c & Hc & El & _)|[(c & h & _ & _ & E)|(c & Hc & _ & Hall & _)]]].
  - congruence.
  - rewrite Hact2 in Hc. injection Hc as <-. rewrite Hlines2 in El.
    rewrite El in Hin. contradiction.
  - rewrite E. split; reflexivity.
  - exfalso. rewrite Hact2 in Hc. injection Hc as <-. rewrite Hlines2 in Hall.
    rewrite Forall_forall in Hall. specialize (Hall ci Hin).
    rewrite Hpid, (stock_after_decrement productId bought s1 p s2 Hp1 Hprod2) in Hall.
    lia.
Qed.

Lemma cart_reserves_nothing_witness :
  result (cart_checkout (after (create_order 2 1 (after (cart_add_item 2 1 shop))))) =
  inl OutOfStock.
Proof.
  destruct (cart_reserves_nothing shop 2 1 1 1 (mk_product 2 "P2" 500 1)
              shop_ok eq_refl eq_refl eq_refl eq_refl) as (_ & H & _).
  - discriminate.
  - reflexivity.
  - exact H.
Defined.

(** ** Listing orders *)

Lemma insert_by_id_desc_perm o os : Permutation (insert_by_id_desc o os) (o :: os).
Proof.
  induction os as [|x rest IH]; simpl; [reflexivity|].
  destruct (ord_id x <=? ord_id o); [reflexivity|].
  rewrite IH. apply perm_swap.
Qed.

Lemma order_by_id_desc_perm os : Permutation (order_by_id_desc os) os.
Proof.
  induction os as [|o rest IH]; simpl; [reflexivity|].
  rewrite insert_by_id_desc_perm. apply perm_skip, IH.
Qed.

Lemma insert_by_id_desc_sorted o os :
  StronglySorted (fun a b => ord_id b <= ord_id a) os ->
  StronglySorted (fun a b => ord_id b <= ord_id a) (insert_by_id_desc o os).
Proof.
  induction 1 as [|x rest Hs IH Hx]; simpl.
  - constructor; constructor.
  - destruct (Z.leb_spec (ord_id x) (ord_id o)) as [Hle|Hgt].
    + constructor; [constructor; assumption|].
      constructor; [exact Hle|].
      rewrite Forall_forall in Hx |- *. intros y Hy. specialize (Hx y Hy). lia.
    + constructor; [exact IH|].
      apply (Permutation_Forall (Permutation_sym (insert_by_id_desc_perm o rest))).
      constructor; [lia | exact Hx].
Qed.

Lemma order_by_id_desc_sorted os :
  StronglySorted (fun a b => ord_id b <= ord_id a) (order_by_id_desc os).
Proof.
  induction os as [|o rest IH]; simpl; [constructor|].
  apply insert_by_id_desc_sorted, IH.
Qed.

Lemma firstn_incl {A} n (l : list A) x : In x (firstn n l) -> In x l.
Proof.
  intros H. rewrite <- (firstn_skipn n l). apply in_or_app. left. exact H.
Qed.

Lemma sorted_firstn {A} (R : A -> A -> Prop) n l :
  StronglySorted R l -> StronglySorted R (firstn n l).
Proof.
  revert n. induction l as [|a l IH]; intros [|n] H; simpl; try constructor.
  - apply IH. inversion H; assumption.
  - inversion H as [|? ? _ Ha]; subst.
    rewrite Forall_forall in Ha |- *. intros x Hx.
    apply Ha. exact (firstn_incl _ _ _ Hx).
Qed.

Lemma sorted_split {A} (R : A -> A -> Prop) l1 l2 :
  StronglySorted R (l1 ++ l2) -> forall a b, In a l1 -> In b l2 -> R a b.
Proof.
  induction l1 as [|x l1 IH]; simpl; intros H a b Ha Hb; [contradiction|].
  inversion H as [|? ? Hs Hx]; subst. destruct Ha as [->|Ha].
  - rewrite Forall_forall in Hx. apply Hx. apply in_or_app. right. exact Hb.
  - exact (IH Hs a b Ha Hb).
Qed.

(** X13. [list.orders] changes nothing and, for a limit from 1 to 100,
    replies with at most [limit] rows of the orders table, highest id
    first; every order it leaves out has an id no higher than any it
    lists, and with at most [limit] orders in the table it lists them
    all. *)
Theorem list_orders_spec (s : DB) (limit : Z) :
  1 <= limit <= 100 ->
  after (list_orders limit s) = s /\
  exists rows,
    result (list_orders limit s) = inr rows /\
    Z.of_nat (List.length rows) <= limit /\
    StronglySorted (fun a b => ord_id b <= ord_id a) rows /\
    incl rows (orders s) /\
    (forall o r, In o (orders s) -> ~ In o rows -> In r rows -> ord_id o <= ord_id r) /\
    (Z.of_nat (List.length (orders s)) <= limit -> Permutation rows (orders s)).
Proof.
  intros Hlim. split; [reflexivity|].
  exists (firstn (Z.to_nat limit) (order_by_id_desc (orders s))).
  split; [reflexivity|].
  pose proof (order_by_id_desc_perm (orders s)) as Hperm.
  pose proof (order_by_id_desc_sorted (orders s)) as Hsorted.
  split; [|split; [|split; [|split]]].
  - pose proof (firstn_le_length (Z.to_nat limit) (order_by_id_desc (orders s))). lia.
  - apply sorted_firstn, Hsorted.
  - intros o Ho. apply (Permutation_in _ Hperm). exact (firstn_incl _ _ _ Ho).
  - intros o r Ho Hnot Hr.
    rewrite <- (firstn_skipn (Z.to_nat limit) (order_by_id_desc (orders s))) in Hsorted.
    apply (sorted_split _ _ _ Hsorted r o Hr).
    apply (Permutation_in _ (Permutation_sym Hperm)) in Ho.
    rewrite <- (firstn_skipn (Z.to_nat limit) (order_by_id_desc (orders s))) in Ho.
    apply in_app_or in Ho. destruct Ho as [Ho|Ho]; [contradiction | exact Ho].
  - intros Hall. rewrite firstn_all2; [exact Hperm|].
    rewrite (Permutation_length Hperm). lia.
Qed.

Lemma list_orders_spec_witness :
  exists rows,
    result (list_orders 1 (after (create_order 1 1 (after (create_order 2 1 shop))))) =
      inr rows /\
    Z.of_nat (List.length rows) <= 1.
Proof.
  destruct (list_orders_spec (after (create_order 1 1 (after (create_order 2 1 shop)))) 1)
    as (_ & rows & Hr & Hlen & _).
  - split; discriminate.
  - exists rows. split; assumption.
Defined.

Lemma newest_sorts_first o os :
  Forall (fun x => ord_id x < ord_id o) os ->
  order_by_id_desc (os ++ [o]) = o :: order_by_id_desc os.
Proof.
  unfold order_by_id_desc. rewrite fold_right_app. simpl.
  induction 1 as [|a t Ha _ IH]; simpl; [reflexivity|].
  rewrite IH. simpl.
  destruct (Z.leb_spec (ord_id o) (ord_id a)); [lia | reflexivity].
Qed.

Lemma list_orders_newest s limit os o :
  1 <= limit -> orders s = os ++ [o] ->
  Forall (fun x => ord_id x < ord_id o) os ->
  exists rest, result (list_orders limit s) = inr (o :: rest).
Proof.
  intros Hlim Hos Hmax.
  unfold list_orders, autocommit, select_recent_orders, query. simpl.
  rewrite Hos, (newest_sorts_first o os Hmax).
  destruct (Z.to_nat limit) as [|n] eqn:En; [lia|].
  simpl. eexists. reflexivity.
Qed.

(** X14. The order a successful purchase creates is the first row
    [list.orders] shows afterwards, for [create.order] and for
    [cart.checkout] alike. *)
Theorem newest_order_listed_first (s : DB) (limit : Z) :
  schema_ok s -> 1 <= limit ->
  (forall productId quantity orderId, 0 < quantity ->
     result (create_order productId quantity s) = inr orderId ->
     exists rest,
       result (list_orders limit (after (create_order productId quantity s))) =
       inr (mk_order orderId CUSTOMER :: rest)) /\
  (forall orderId,
     result (cart_checkout s) = inr orderId ->
     exists rest,
       result (list_orders limit (after (cart_checkout s))) =
       inr (mk_order orderId CUSTOMER :: rest)).
Proof.
  intros Hs Hlim. pose proof (orders_serial s Hs) as Hser. split.
  - intros productId quantity orderId Hq Hr.
    destruct (create_order_outcome s productId quantity Hs Hq)
      as [[_ E]|[(_ & _ & E)|[(p & _ & _ & E)|(p & _ & _ & E)]]];
      rewrite E in *; simpl in Hr; try discriminate.
    injection Hr as <-. simpl after.
    apply (list_orders_newest _ limit (orders s)); [exact Hlim | reflexivity | exact Hser].
  - intros orderId Hr.
    destruct (cart_checkout_outcome s Hs)
      as [[_ E]|[(c & _ & _ & E)|[(c & h & _ & _ & E)|(c & _ & _ & _ & E)]]];
      rewrite E in *; simpl in Hr; try discriminate.
    injection Hr as <-. simpl after.
    apply (list_orders_newest _ limit (orders s)); [exact Hlim | reflexivity | exact Hser].
Qed.

Lemma newest_order_listed_first_witness :
  exists rest,
    result (list_orders 10 (after (cart_checkout shop_with_cart))) =
    inr (mk_order 1 CUSTOMER :: rest).
Proof.
  destruct (newest_order_listed_first shop_with_cart 10 shop_with_cart_ok) as [_ H].
  - discriminate.
  - exact (H 1 eq_refl).
Defined.

(** ** The statement of the product search *)


Lemma append_assoc (a b c : string) : ((a ++ b) ++ c = a ++ (b ++ c))%string.
Proof. induction a as [|x a IH]; simpl; [reflexivity|]. rewrite IH. reflexivity. Qed.

Lemma append_empty (a : string) : (a ++ EmptyString)%string = a.
Proof. induction a as [|x a IH]; simpl; [reflexivity|]. rewrite IH. reflexivity. Qed.

Lemma scans_plain f : plain f = true -> scans f [].
Proof.
  intros Hp rest _. induction f as [|c f IH]; simpl in *; [reflexivity|].
  apply andb_prop in Hp. destruct Hp as [Hc Hf].
  destruct (is_dollar c); [discriminate|]. apply IH, Hf.
Qed.

Lemma digits_of_uint d : forall cur rest,
  references_from (Some cur) (NilEmpty.string_of_uint d ++ rest)%string =
  references_from (Some (cur ++ NilEmpty.string_of_uint d)%string) rest.
Proof.
  induction d; intros cur rest; simpl;
    try (rewrite IHd, append_assoc; reflexivity).
  rewrite append_empty. reflexivity.
Qed.

Lemma scans_reference n : scans (String "$" (dec n)) [dec n].
Proof.
  intros rest Hclean. simpl. unfold dec. rewrite digits_of_uint. simpl.
  destruct rest as [|c rest]; simpl in *; [reflexivity|].
  destruct (is_digit c); [discriminate | reflexivity].
Qed.

Lemma clean_append f rest : clean f = true -> clean rest = true -> clean (f ++ rest)%string = true.
Proof. destruct f; simpl; auto. Qed.

Lemma scans_append f1 f2 L1 L2 :
  scans f1 L1 -> scans f2 L2 -> clean f2 = true -> scans (f1 ++ f2)%string (L1 ++ L2).
Proof.
  intros H1 H2 Hc rest Hrest. rewrite append_assoc, H1, H2, app_assoc; auto.
  apply clean_append; assumption.
Qed.

Lemma scans_references f L : scans f L -> references f = L.
Proof.
  intros H. unfold references. rewrite <- (append_empty f), (H EmptyString eq_refl).
  simpl. apply app_nil_r.
Qed.

Lemma clean_join sep cs :
  clean sep = true -> Forall (fun c => clean c = true) cs -> clean (join sep cs) = true.
Proof.
  intros Hsep. induction 1 as [|c cs Hc Hcs IH]; simpl; [reflexivity|].
  destruct cs; [exact Hc|].
  apply clean_append; [exact Hc|]. apply clean_append; [exact Hsep | exact IH].
Qed.

Lemma scans_join sep cs Ls :
  plain sep = true -> clean sep = true ->
  Forall2 (fun c L => scans c L /\ clean c = true) cs Ls ->
  scans (join sep cs) (List.concat Ls).
Proof.
  intros Hp Hc. induction 1 as [|c L cs Ls [Hs Hcl] Hrest IH]; simpl.
  - apply scans_plain. reflexivity.
  - destruct cs as [|c' cs'].
    + inversion Hrest; subst. simpl. rewrite app_nil_r. exact Hs.
    + apply scans_append; [exact Hs | | ].
      * change (List.concat Ls) with ([] ++ List.concat Ls).
        apply scans_append; [apply scans_plain, Hp | exact IH |].
        apply clean_join; [exact Hc|].
        clear -Hrest. induction Hrest as [|? ? ? ? [_ ?] _ ?]; constructor; assumption.
      * apply clean_append; [exact Hc|].
        apply clean_join; [exact Hc|].
        clear -Hrest. induction Hrest as [|? ? ? ? [_ ?] _ ?]; constructor; assumption.
Qed.

Lemma scans_any_of cs Ls :
  Forall2 (fun c L => scans c L /\ clean c = true) cs Ls ->
  scans (any_of cs) (List.concat Ls) /\ clean (any_of cs) = true.
Proof.
  intros H. split; [|reflexivity]. unfold any_of.
  change (List.concat Ls) with ([] ++ List.concat Ls).
  apply scans_append; [apply scans_plain; reflexivity | |].
  - rewrite <- (app_nil_r (List.concat Ls)).
    apply scans_append; [|apply scans_plain; reflexivity | reflexivity].
    apply scans_join; [reflexivity | reflexivity | exact H].
  - apply clean_append; [|reflexivity].
    apply clean_join; [reflexivity|].
    clear -H. induction H as [|? ? ? ? [_ ?] _ ?]; constructor; assumption.
Qed.

Lemma scans_term_clause k : scans (term_clause (dec k)) [dec k] /\ clean (term_clause (dec k)) = true.
Proof.
  split; [|reflexivity].
  change (term_clause (dec k)) with ("lower(name) LIKE " ++ String "$" (dec k))%string.
  change [dec k] with ([] ++ [dec k]).
  apply scans_append; [apply scans_plain; reflexivity | apply scans_reference | reflexivity].
Qed.

Lemma scans_category_clause k :
  scans (category_clause (dec k)) [dec k] /\ clean (category_clause (dec k)) = true.
Proof.
  split; [|reflexivity].
  change (category_clause (dec k))
    with ("lower(category) = lower(" ++ (String "$" (dec k) ++ ")"))%string.
  change [dec k] with ([] ++ ([dec k] ++ [])).
  apply scans_append; [apply scans_plain; reflexivity | | reflexivity].
  apply scans_append; [apply scans_reference | apply scans_plain; reflexivity | reflexivity].
Qed.

Lemma scans_price_clause k : scans (price_clause (dec k)) [dec k] /\ clean (price_clause (dec k)) = true.
Proof.
  split; [|reflexivity].
  change (price_clause (dec k)) with ("price_cents <= " ++ String "$" (dec k))%string.
  change [dec k] with ([] ++ [dec k]).
  apply scans_append; [apply scans_plain; reflexivity | apply scans_reference | reflexivity].
Qed.

Lemma clause_loop clause (value : string -> param) xs : forall ps cls,
  fold_left (fun s x => push_clause clause s (value x)) xs (ps, cls) =
  (ps ++ map value xs,
   cls ++ map (fun k => clause (dec k)) (seq (S (List.length ps)) (List.length xs))).
Proof.
  induction xs as [|x xs IH]; intros ps cls; simpl.
  - rewrite !app_nil_r. reflexivity.
  - unfold push_clause at 2. simpl fst. simpl snd. rewrite IH.
    rewrite length_app. simpl List.length. rewrite Nat.add_1_r.
    rewrite <- !app_assoc. reflexivity.
Qed.

(** What a clause group adds: its values as parameters, and, when there
    are any, one entry that refers to them by consecutive numbers. *)
Lemma clause_group_closed clause value xs ps ors :
  clause_group clause value xs (ps, ors) =
  (ps ++ map value xs,
   ors ++ match xs with
          | [] => []
          | _ :: _ => [any_of (map (fun k => clause (dec k))
                                   (seq (S (List.length ps)) (List.length xs)))]
          end).
Proof.
  destruct xs as [|x xs]; [simpl; rewrite !app_nil_r; reflexivity|].
  unfold clause_group. cbn [fst snd].
  rewrite (clause_loop clause value (x :: xs)). reflexivity.
Qed.

Lemma scans_clauses (clause : string -> string) ks :
  (forall k, scans (clause (dec k)) [dec k] /\ clean (clause (dec k)) = true) ->
  Forall2 (fun c L => scans c L /\ clean c = true)
          (map (fun k => clause (dec k)) ks) (map (fun k => [dec k]) ks).
Proof. intros H. induction ks; simpl; constructor; auto. Qed.

Lemma concat_singletons {A B} (f : A -> B) ks :
  List.concat (map (fun k => [f k]) ks) = map f ks.
Proof. induction ks; simpl; [reflexivity|]. rewrite IHks. reflexivity. Qed.

(** An entry of [orParts] for a non-empty list refers to its parameters. *)
Lemma scans_group clause a xs :
  (forall k, scans (clause (dec k)) [dec k] /\ clean (clause (dec k)) = true) ->
  Forall2 (fun c L => scans c L /\ clean c = true)
    match xs with
    | [] => []
    | _ :: _ => [any_of (map (fun k => clause (dec k)) (seq a (List.length xs)))]
    end
    match xs with
    | [] => []
    | _ :: _ => [map dec (seq a (List.length (A := string) xs))]
    end.
Proof.
  intros H. destruct xs as [|x xs]; constructor; [|constructor].
  rewrite <- (concat_singletons dec). apply scans_any_of, scans_clauses, H.
Qed.

Lemma group_references a (xs : list string) :
  List.concat match xs with
              | [] => []
              | _ :: _ => [map dec (seq a (List.length xs))]
              end = map dec (seq a (List.length xs)).
Proof. destruct xs; simpl; [reflexivity | rewrite app_nil_r; reflexivity]. Qed.


Lemma scans_where ws Ls :
  Forall2 (fun c L => scans c L /\ clean c = true) ws Ls ->
  scans match ws with
        | [] => EmptyString
        | _ :: _ => ("WHERE " ++ join " AND " ws)%string
        end (List.concat Ls) /\
  clean match ws with
        | [] => EmptyString
        | _ :: _ => ("WHERE " ++ join " AND " ws)%string
        end = true.
Proof.
  intros H. destruct ws as [|w ws].
  - inversion H; subst. split; [apply scans_plain|]; reflexivity.
  - split; [|reflexivity].
    change (List.concat Ls) with ([] ++ List.concat Ls).
    apply scans_append; [apply scans_plain; reflexivity | |].
    + apply scans_join; [reflexivity | reflexivity | exact H].
    + apply clean_join; [reflexivity|].
      clear -H. induction H as [|? ? ? ? [_ ?] _ ?]; constructor; assumption.
Qed.

Lemma references_select where_ L :
  scans where_ L -> clean where_ = true ->
  references ("SELECT id, name, description, price_cents, stock, category FROM products "
              ++ where_ ++ " ORDER BY name LIMIT 100")%string = L.
Proof.
  intros Hs Hc. apply scans_references.
  change L with ([] ++ L). apply scans_append; [apply scans_plain; reflexivity | |].
  - rewrite <- (app_nil_r L).
    apply scans_append; [exact Hs | apply scans_plain; reflexivity | reflexivity].
  - apply clean_append; [exact Hc | reflexivity].
Qed.

(** X17. The statement [runProductSearch] builds and its parameter array
    stay in step: the parameters are the LIKE patterns of the terms, then
    the categories, then the price ceiling (left out when absent or 0), and
    the text refers to exactly these, as $1, $2, ... in this order. *)
Theorem search_statement_references (words : string -> list string) (i : intent) :
  let (sql, params) := search_statement words i in
  params = map like_pattern (term_list words i) ++
           map PText (category_list i) ++
           match in_maxPriceCents i with
           | Some n => if n =? 0 then [] else [PInt n]
           | None => []
           end /\
  references sql = map dec (seq 1 (List.length params)).
Proof.
  unfold search_statement.
  set (tl := term_list words i). set (cl := category_list i).
  rewrite clause_group_closed, clause_group_closed. cbn [app List.length].
  rewrite length_map.
  set (n := List.length tl). set (m := List.length cl).
  set (g1 := match tl with [] => [] | _ :: _ => _ end).
  set (g2 := match cl with [] => [] | _ :: _ => _ end).
  set (Ls := match tl with [] => [] | _ :: _ => [map dec (seq 1 n)] end ++
             match cl with [] => [] | _ :: _ => [map dec (seq (S n) m)] end).
  assert (Hor : Forall2 (fun c L => scans c L /\ clean c = true) (g1 ++ g2) Ls).
  { apply Forall2_app; [apply scans_group, scans_term_clause
                       | apply scans_group, scans_category_clause]. }
  assert (HLs : List.concat Ls = map dec (seq 1 (n + m))).
  { subst Ls n m. rewrite concat_app, !group_references, seq_app, map_app. reflexivity. }
  set (w0 := match g1 ++ g2 with [] => [] | _ :: _ => [any_of (g1 ++ g2)] end).
  assert (Hw0 : exists Ws, Forall2 (fun c L => scans c L /\ clean c = true) w0 Ws /\
                           List.concat Ws = map dec (seq 1 (n + m))).
  { subst w0. destruct (g1 ++ g2) as [|g gs] eqn:E.
    - exists []. split; [constructor|]. rewrite <- HLs.
      inversion Hor; subst. reflexivity.
    - exists [List.concat Ls]. split; [|simpl; rewrite app_nil_r; exact HLs].
      constructor; [|constructor]. apply scans_any_of. exact Hor. }
  destruct Hw0 as (Ws & Hw0 & HWs).
  assert (Hlen : List.length (map like_pattern tl ++ map PText cl) = (n + m)%nat).
  { rewrite length_app, !length_map. reflexivity. }
  destruct (in_maxPriceCents i) as [p|]; [destruct (p =? 0)|].
  - rewrite app_nil_r, Hlen. split; [reflexivity|].
    destruct (scans_where w0 Ws Hw0) as [Hs Hc]. rewrite HWs in Hs.
    exact (references_select _ _ Hs Hc).
  - unfold push_clause. cbn [fst snd].
    rewrite <- app_assoc. split; [reflexivity|].
    rewrite !length_app, !length_map. cbn [List.length]. fold n m.
    assert (Hw : Forall2 (fun c L => scans c L /\ clean c = true)
                   (w0 ++ [price_clause (dec (n + (m + 1)))])
                   (Ws ++ [[dec (n + (m + 1))]])).
    { apply Forall2_app; [exact Hw0|]. constructor; [apply scans_price_clause | constructor]. }
    destruct (scans_where _ _ Hw) as [Hs Hc].
    rewrite concat_app, HWs in Hs. simpl in Hs.
    replace (n + (m + 1))%nat with (S (n + m)) in * by lia.
    rewrite seq_S, map_app. simpl.
    exact (references_select _ _ Hs Hc).
  - rewrite app_nil_r, Hlen. split; [reflexivity|].
    destruct (scans_where w0 Ws Hw0) as [Hs Hc]. rewrite HWs in Hs.
    exact (references_select _ _ Hs Hc).
Qed.

(** ** The client's reading of a response body *)

Lemma split_line l rest :
  no_newline l = true ->
  split_on NL (l ++ String NL rest) = l :: split_on NL rest.
Proof.
  induction l as [|c l IH]; simpl; intros H; [reflexivity|].
  apply andb_prop in H. destruct H as [Hc Hl].
  destruct (Ascii.eqb c NL); [discriminate|]. rewrite (IH Hl). reflexivity.
Qed.

Lemma split_last l : no_newline l = true -> split_on NL l = [l].
Proof.
  induction l as [|c l IH]; simpl; intros H; [reflexivity|].
  apply andb_prop in H. destruct H as [Hc Hl].
  destruct (Ascii.eqb c NL); [discriminate|]. rewrite (IH Hl). reflexivity.
Qed.

Lemma split_unlines before rest :
  Forall (fun l => no_newline l = true) before ->
  split_on NL (unlines before ++ rest) = before ++ split_on NL rest.
Proof.
  induction 1 as [|l ls Hl _ IH]; simpl; [reflexivity|].
  rewrite append_assoc. simpl. rewrite (split_line l _ Hl), IH. reflexivity.
Qed.

Lemma find_skips {A} (f : A -> bool) l1 l2 :
  Forall (fun x => f x = false) l1 -> find f (l1 ++ l2) = find f l2.
Proof. induction 1 as [|x l Hx _ IH]; simpl; [reflexivity|]. rewrite Hx. exact IH. Qed.

Lemma json_text_of_lines before payload after_ :
  Forall (fun l => no_newline l = true /\ prefix "data: " l = false) before ->
  split_on NL after_ = ("data: " ++ payload)%string :: tl (split_on NL after_) ->
  json_text (unlines before ++ after_) = payload.
Proof.
  intros Hb Ha. unfold json_text.
  rewrite split_unlines by (eapply Forall_impl; [|exact Hb]; simpl; tauto).
  rewrite find_skips by (eapply Forall_impl; [|exact Hb]; simpl; tauto).
  rewrite Ha. simpl. destruct payload; simpl; reflexivity.
Qed.

(** X15. [rpc] finds the payload of a server-sent event: when the body
    is any number of lines that do not start with [data: ], then a line
    [data: ] followed by a payload without a newline, then the end of the
    body or a newline and anything, the text handed to [JSON.parse] is
    the payload.  A body of one line that does not start with [data: ]
    is handed over as it is. *)
Theorem json_text_spec (before : list string) (payload rest : string) :
  Forall (fun l => no_newline l = true /\ prefix "data: " l = false) before ->
  no_newline payload = true ->
  json_text (unlines before ++ "data: " ++ payload) = payload /\
  json_text (unlines before ++ "data: " ++ payload ++ String NL rest) = payload /\
  (prefix "data: " payload = false -> json_text payload = payload).
Proof.
  intros Hb Hp. split; [|split].
  - apply json_text_of_lines; [exact Hb|].
    rewrite (split_last ("data: " ++ payload)); [reflexivity | exact Hp].
  - apply json_text_of_lines; [exact Hb|].
    change ("data: " ++ payload ++ String NL rest)%string
      with (("data: " ++ payload) ++ String NL rest)%string.
    rewrite (split_line ("data: " ++ payload)); [reflexivity | exact Hp].
  - intros Hno. unfold json_text. rewrite (split_last payload Hp). cbv [find].
    rewrite !Hno. reflexivity.
Qed.

Lemma json_text_spec_witness :
  json_text ("event: message" ++ String NL ("data: {}" ++ String NL (String NL "")))
  = "{}"%string.
Proof.
  destruct (json_text_spec ["event: message"%string] "{}" (String NL "")) as (_ & H & _).
  - constructor; [split; reflexivity | constructor].
  - reflexivity.
  - exact H.
Defined.

(** ** Quoting a category in the client's fallback search *)

Lemma read_escaped s rest :
  match rest with String c _ => is_quote c = false | EmptyString => True end ->
  read_literal (escape_quotes s ++ String "'" rest) = Some (s, rest).
Proof.
  intros Hrest. induction s as [|c s IH]; simpl.
  - destruct rest as [|c rest]; [reflexivity|]. rewrite Hrest. reflexivity.
  - destruct (is_quote c) eqn:Ec; simpl.
    + rewrite IH. simpl. unfold is_quote in Ec. apply Ascii.eqb_eq in Ec.
      subst c. reflexivity.
    + rewrite Ec, IH. reflexivity.
Qed.

(** X16. The category clause of the client's fallback search quotes its
    value safely: whatever quotes the category holds, and whatever the
    statement goes on with (another clause, the ordering), the literal
    that follows [category = ] reads back as the category as typed, and
    the statement resumes right after it. *)
Theorem category_filter_quotes (searchCategory rest : string) :
  match rest with String c _ => is_quote c = false | EmptyString => True end ->
  read_literal (drop 12 (category_filter searchCategory ++ rest)) =
    Some (searchCategory, rest).
Proof.
  intros Hrest. unfold category_filter. simpl.
  rewrite append_assoc. simpl. apply read_escaped. exact Hrest.
Qed.

Lemma category_filter_quotes_witness :
  read_literal (drop 12 (category_filter "Kids' ''Tees" ++ " ORDER BY name")) =
    Some ("Kids' ''Tees"%string, " ORDER BY name"%string).
Proof. apply (category_filter_quotes "Kids' ''Tees" " ORDER BY name"). reflexivity. Defined.

(** ** Emptying the cart before checkout *)

Lemma lines_after_delete cartId productId cis :
  Forall (fun ci => ci_product_id ci = productId)
         (filter (fun ci => ci_cart_id ci =? cartId) cis) ->
  filter (fun ci => ci_cart_id ci =? cartId)
         (filter (fun ci => negb (is_line cartId productId ci)) cis) = [].
Proof.
  induction cis as [|ci cis IH]; simpl; intros H; [reflexivity|].
  unfold is_line at 1.
  destruct (ci_cart_id ci =? cartId) eqn:Ec; simpl.
  - inversion H as [|? ? Hp Hrest].
    rewrite Hp, Z.eqb_refl. simpl. apply IH, Hrest.
  - rewrite Ec. apply IH, H.
Qed.

(** X18. Removing the last product from the cart and then checking out:
    when every line of the active cart is for one product,
    [cart.remove_item] for it followed by [cart.checkout] throws "Cart is
    empty"; the cart stays active, and no order is created and no stock
    taken by the two calls. *)
Theorem remove_all_then_checkout (s : DB) (productId cartId : Z) :
  schema_ok s ->
  active_cart s = Some cartId ->
  Forall (fun ci => ci_product_id ci = productId) (lines_of cartId s) ->
  let s1 := after (cart_remove_item productId s) in
  cart_checkout s1 = mk_outcome (inl CartIsEmpty) s1 [] /\
  active_cart s1 = Some cartId /\
  lines_of cartId s1 = [] /\
  products s1 = products s /\ orders s1 = orders s /\ order_items s1 = order_items s.
Proof.
  intros Hs Hc Hl s1.
  assert (Hs1 : schema_ok s1) by (apply cart_remove_item_schema, Hs).
  assert (H1 : active_cart s1 = Some cartId /\ lines_of cartId s1 = [] /\
               products s1 = products s /\ orders s1 = orders s /\
               order_items s1 = order_items s).
  { destruct (in_range_dec productId) as [Hi|Hi].
    - assert (E1 : s1 = set_cart_items
                (filter (fun ci => negb (is_line cartId productId ci)) (cart_items s)) s).
      { unfold s1. rewrite (cart_remove_item_cases _ _ Hi), Hc. reflexivity. }
      rewrite E1. split; [exact Hc|]. split; [|repeat split].
      unfold lines_of. cbn [cart_items set_cart_items].
      apply lines_after_delete, Hl.
    - (* an id the store rejects is the id of no line: the call changes nothing *)
      assert (E1 : s1 = s).
      { unfold s1. rewrite (cart_remove_item_rejected _ _ _ Hi Hc). reflexivity. }
      rewrite E1. split; [exact Hc|]. split; [|repeat split].
      destruct (lines_of cartId s) as [|ci rest] eqn:El; [reflexivity|]. exfalso.
      inversion Hl as [|? ? Hid _].
      assert (Hin : In ci (cart_items s)).
      { assert (Hline : In ci (lines_of cartId s)) by (rewrite El; left; reflexivity).
        apply filter_In in Hline. apply Hline. }
      pose proof (cart_items_product_fkey s Hs) as Hfk. rewrite Forall_forall in Hfk.
      specialize (Hfk ci Hin). apply in_map_iff in Hfk. destruct Hfk as (p & Hp & Hpin).
      pose proof (products_id_integer s Hs) as Hint. rewrite Forall_forall in Hint.
      specialize (Hint p Hpin). rewrite Hp, Hid in Hint. exact (Hi Hint). }
  destruct H1 as (Hc1 & Hl1 & Hframe).
  split; [|split; [exact Hc1|split; [exact Hl1|exact Hframe]]].
  destruct (cart_checkout_outcome s1 Hs1)
    as [(Hn & _) | [(c & _ & _ & E) | [(c & h & Ha & Hex & _) | (c & Ha & Hne & _)]]].
  - rewrite Hc1 in Hn. discriminate.
  - exact E.
  - rewrite Hc1 in Ha. injection Ha as <-. rewrite Hl1 in Hex. inversion Hex.
  - rewrite Hc1 in Ha. injection Ha as <-. contradiction.
Qed.

Lemma remove_all_then_checkout_witness :
  let s1 := after (cart_remove_item 1 (after (cart_add_item 1 2 shop))) in
  cart_checkout s1 = mk_outcome (inl CartIsEmpty) s1 [].
Proof.
  intros s1.
  refine (proj1 (remove_all_then_checkout (after (cart_add_item 1 2 shop)) 1 1 _ _ _)).
  - apply cart_add_item_schema, shop_ok.
  - reflexivity.
  - vm_compute. repeat constructor.
Defined.
